(** * WinClone: the installed-program scanner of [cmd/scan.go]

    A shallow embedding of the Go package [cmd] (the [scan] sub-command and
    the root command's [Execute]) together with the parts of the Go standard
    library its behaviour depends on: [unicode/utf8], [unicode.IsSpace],
    [strings.TrimSpace], [strings.ToLower], [strings.HasSuffix],
    [strings.Repeat], the [%d] verb of [fmt], and the encoder and decoder of
    [encoding/json] at the type [[]Program].

    Go strings are immutable byte sequences: they are modelled by [string]
    (a sequence of 8-bit [ascii] values).  Go [int]s and [rune]s are modelled
    by [Z]; no arithmetic of the program can leave the 64-bit range (every
    integer is a length, an index below a length, or such an index plus
    one). *)

From Stdlib Require Import ZArith Ascii String List Lia Bool DecimalString.
From stdpp Require Import base tactics option list gmap strings.

Local Open Scope Z_scope.

#[global] Arguments String.append : simpl nomatch.

(** ** Byte strings *)

Definition nl : string := String (ascii_of_nat 10) EmptyString.
Definition dquote : string := String (ascii_of_nat 34) EmptyString.

(** [byte_val c] is the numeric value of the byte [c], in [0, 256). *)
Definition byte_val (c : ascii) : Z := Z.of_N (N_of_ascii c).

(** [byte_of z] is the conversion [byte(z)]: the low eight bits of [z]. *)
Definition byte_of (z : Z) : ascii := ascii_of_N (Z.to_N (Z.land z 255)).

(** [len s] is Go's [len(s)]. *)
Definition len (s : string) : Z := Z.of_nat (String.length s).

Fixpoint sdrop (n : nat) (s : string) : string :=
  match n, s with
  | O, _ => s
  | S n', String _ s' => sdrop n' s'
  | S _, EmptyString => EmptyString
  end.

Fixpoint stake (n : nat) (s : string) : string :=
  match n, s with
  | O, _ => EmptyString
  | S n', String c s' => String c (stake n' s')
  | S _, EmptyString => EmptyString
  end.

(** [s[i:]], [s[:j]] and [s[i:j]] for in-range indices. *)
Definition slice_from (s : string) (i : Z) : string := sdrop (Z.to_nat i) s.
Definition slice_to (s : string) (j : Z) : string := stake (Z.to_nat j) s.
Definition slice (s : string) (i j : Z) : string :=
  stake (Z.to_nat (j - i)) (sdrop (Z.to_nat i) s).

(** [at_ s i] is the byte [s[i]] as a number; the callers below only use it
    at indices they have checked to be in range (0 stands for the panic that
    Go raises otherwise, which no caller reaches). *)
Definition at_ (s : string) (i : Z) : Z :=
  match sdrop (Z.to_nat i) s with
  | String c _ => if 0 <=? i then byte_val c else 0
  | EmptyString => 0
  end.

Definition is_empty (s : string) : bool :=
  match s with EmptyString => true | String _ _ => false end.

(** The [%d] verb on an [int]. *)
Definition itoa (z : Z) : string := NilZero.string_of_int (Z.to_int z).

(** ** unicode/utf8 *)
Module utf8.

Definition RuneError : Z := 0xFFFD.
Definition RuneSelf : Z := 0x80.
Definition MaxRune : Z := 0x10FFFF.
Definition UTFMax : Z := 4.

Definition surrogateMin : Z := 0xD800.
Definition surrogateMax : Z := 0xDFFF.

Definition maskx : Z := 0x3F.
Definition mask2 : Z := 0x1F.
Definition mask3 : Z := 0x0F.
Definition mask4 : Z := 0x07.

Definition t1 : Z := 0x00.
Definition tx : Z := 0x80.
Definition t2 : Z := 0xC0.
Definition t3 : Z := 0xE0.
Definition t4 : Z := 0xF0.

Definition rune1Max : Z := 0x7F.
Definition rune2Max : Z := 0x7FF.
Definition rune3Max : Z := 0xFFFF.

Definition locb : Z := 0x80.
Definition hicb : Z := 0xBF.

(** The entries of the table [first]: the low three bits give the length of
    the sequence a byte starts, the high four bits index [acceptRanges]. *)
Definition xx : Z := 0xF1.
Definition as_ : Z := 0xF0.
Definition s1 : Z := 0x02.
Definition s2 : Z := 0x13.
Definition s3 : Z := 0x03.
Definition s4 : Z := 0x23.
Definition s5 : Z := 0x34.
Definition s6 : Z := 0x04.
Definition s7 : Z := 0x44.

(** The 256-entry table [first], row by row. *)
Definition first (b : Z) : Z :=
  if b <? 0x80 then as_
  else if b <? 0xC2 then xx
  else if b <? 0xE0 then s1
  else if b =? 0xE0 then s2
  else if b <? 0xED then s3
  else if b =? 0xED then s4
  else if b <? 0xF0 then s3
  else if b =? 0xF0 then s5
  else if b <? 0xF4 then s6
  else if b =? 0xF4 then s7
  else xx.

(** [acceptRanges]: the range of the second byte of a sequence. *)
Definition acceptRanges (i : Z) : Z * Z :=
  if i =? 0 then (locb, hicb)
  else if i =? 1 then (0xA0, hicb)
  else if i =? 2 then (locb, 0x9F)
  else if i =? 3 then (0x90, hicb)
  else if i =? 4 then (locb, 0x8F)
  else (0, 0).

(** [DecodeRuneInString]: the first rune of [s] and its width in bytes;
    [(RuneError, 0)] on the empty string and [(RuneError, 1)] on an invalid
    encoding. *)
Definition DecodeRuneInString (s : string) : Z * Z :=
  let n := len s in
  if n <? 1 then (RuneError, 0) else
  let s0 := at_ s 0 in
  let x := first s0 in
  if as_ <=? x then
    (* mask := rune(x) << 31 >> 31 is all ones exactly when x is odd (xx) *)
    (if Z.odd x then RuneError else s0, 1)
  else
  let sz := Z.land x 7 in
  let accept := acceptRanges (Z.shiftr x 4) in
  if n <? sz then (RuneError, 1) else
  let b1 := at_ s 1 in
  if (b1 <? fst accept) || (snd accept <? b1) then (RuneError, 1) else
  if sz <=? 2 then
    (Z.lor (Z.shiftl (Z.land s0 mask2) 6) (Z.land b1 maskx), 2)
  else
  let b2 := at_ s 2 in
  if (b2 <? locb) || (hicb <? b2) then (RuneError, 1) else
  if sz <=? 3 then
    (Z.lor (Z.lor (Z.shiftl (Z.land s0 mask3) 12)
                  (Z.shiftl (Z.land b1 maskx) 6))
           (Z.land b2 maskx), 3)
  else
  let b3 := at_ s 3 in
  if (b3 <? locb) || (hicb <? b3) then (RuneError, 1) else
  (Z.lor (Z.lor (Z.lor (Z.shiftl (Z.land s0 mask4) 18)
                       (Z.shiftl (Z.land b1 maskx) 12))
                (Z.shiftl (Z.land b2 maskx) 6))
         (Z.land b3 maskx), 4).

(** [RuneStart b]: [b] is not a continuation byte. *)
Definition RuneStart (b : Z) : bool := negb (Z.land b 0xC0 =? 0x80).

(** The loop [for start--; start >= lim; start-- { if RuneStart(s[start])
    { break } }] of [DecodeLastRuneInString]; it runs at most [UTFMax]
    times, which is what [k] counts. *)
Fixpoint backToStart (k : nat) (s : string) (lim start : Z) : Z :=
  match k with
  | O => start
  | S k' =>
      if start <? lim then start
      else if RuneStart (at_ s start) then start
      else backToStart k' s lim (start - 1)
  end.

(** [DecodeLastRuneInString]: the last rune of [s] and its width. *)
Definition DecodeLastRuneInString (s : string) : Z * Z :=
  let end_ := len s in
  if end_ =? 0 then (RuneError, 0) else
  let start := end_ - 1 in
  let r := at_ s start in
  if r <? RuneSelf then (r, 1) else
  let lim := Z.max 0 (end_ - UTFMax) in
  let start := backToStart 4 s lim (start - 1) in
  let start := Z.max 0 start in
  let '(r, size) := DecodeRuneInString (slice s start end_) in
  if negb (start + size =? end_) then (RuneError, 1) else (r, size).

(** [AppendRune]/[EncodeRune]: the UTF-8 encoding of [r]; a surrogate or an
    out-of-range value is encoded as [RuneError]. *)
Definition encode3 (r : Z) : string :=
  String (byte_of (Z.lor t3 (Z.shiftr r 12)))
    (String (byte_of (Z.lor tx (Z.land (Z.shiftr r 6) maskx)))
       (String (byte_of (Z.lor tx (Z.land r maskx))) EmptyString)).

Definition EncodeRune (r : Z) : string :=
  if (0 <=? r) && (r <=? rune1Max) then String (byte_of r) EmptyString
  else if (0 <=? r) && (r <=? rune2Max) then
    String (byte_of (Z.lor t2 (Z.shiftr r 6)))
      (String (byte_of (Z.lor tx (Z.land r maskx))) EmptyString)
  else if (r <? 0) || (MaxRune <? r)
          || ((surrogateMin <=? r) && (r <=? surrogateMax)) then
    encode3 RuneError
  else if r <=? rune3Max then encode3 r
  else
    String (byte_of (Z.lor t4 (Z.shiftr r 18)))
      (String (byte_of (Z.lor tx (Z.land (Z.shiftr r 12) maskx)))
         (String (byte_of (Z.lor tx (Z.land (Z.shiftr r 6) maskx)))
            (String (byte_of (Z.lor tx (Z.land r maskx))) EmptyString))).

(** [ValidString]: [s] consists of valid encodings only.  The recursion is
    on the bytes of [s]; [skip] counts the continuation bytes of the rune
    being crossed. *)
Fixpoint validFrom (skip : nat) (s : string) : bool :=
  match s with
  | EmptyString => true
  | String _ rest =>
      match skip with
      | S k => validFrom k rest
      | O =>
          let '(r, size) := DecodeRuneInString s in
          if (r =? RuneError) && (size =? 1) then false
          else validFrom (Z.to_nat (size - 1)) rest
      end
  end.

Definition ValidString (s : string) : bool := validFrom 0 s.

End utf8.

(** ** unicode *)
Module unicode.

Definition MaxLatin1 : Z := 0xFF.

(** [IsSpace]: the Latin-1 spaces, and outside Latin-1 the code points of
    the [White_Space] range table. *)
Definition IsSpace (r : Z) : bool :=
  if (0 <=? r) && (r <=? MaxLatin1) then
    (r =? 0x09) || (r =? 0x0A) || (r =? 0x0B) || (r =? 0x0C) || (r =? 0x0D)
    || (r =? 0x20) || (r =? 0x85) || (r =? 0xA0)
  else
    (r =? 0x1680) || ((0x2000 <=? r) && (r <=? 0x200A))
    || ((0x2028 <=? r) && (r <=? 0x2029)) || (r =? 0x202F) || (r =? 0x205F)
    || (r =? 0x3000).

End unicode.

(** ** strings *)
Module Strings.

(** [for i, r := range s { if f(r) == truth { return i } }; return -1],
    entered at byte offset [i].  Each turn of the loop moves [i] forward by
    the width of a rune, so [fuel] bounds the number of turns. *)
Fixpoint indexFuncFrom (fuel : nat) (s : string) (f : Z -> bool)
    (truth : bool) (i : Z) : Z :=
  match fuel with
  | O => -1
  | S k =>
      if len s <=? i then -1
      else
        let '(r, size) := utf8.DecodeRuneInString (slice_from s i) in
        if Bool.eqb (f r) truth then i
        else indexFuncFrom k s f truth (i + size)
  end.

Definition indexFunc (s : string) (f : Z -> bool) (truth : bool) : Z :=
  indexFuncFrom (S (String.length s)) s f truth 0.

(** [for i := len(s); i > 0; { r, size := DecodeLastRuneInString(s[0:i]);
    i -= size; if f(r) == truth { return i } }; return -1]. *)
Fixpoint lastIndexFuncFrom (fuel : nat) (s : string) (f : Z -> bool)
    (truth : bool) (i : Z) : Z :=
  match fuel with
  | O => -1
  | S k =>
      if i <=? 0 then -1
      else
        let '(r, size) := utf8.DecodeLastRuneInString (slice s 0 i) in
        let i := i - size in
        if Bool.eqb (f r) truth then i
        else lastIndexFuncFrom k s f truth i
  end.

Definition lastIndexFunc (s : string) (f : Z -> bool) (truth : bool) : Z :=
  lastIndexFuncFrom (S (String.length s)) s f truth (len s).

Definition TrimLeftFunc (s : string) (f : Z -> bool) : string :=
  let i := indexFunc s f false in
  if i =? -1 then EmptyString else slice_from s i.

Definition TrimRightFunc (s : string) (f : Z -> bool) : string :=
  let i := lastIndexFunc s f false in
  let i :=
    if (0 <=? i) && (utf8.RuneSelf <=? at_ s i) then
      let '(_, wid) := utf8.DecodeRuneInString (slice_from s i) in i + wid
    else i + 1 in
  slice s 0 i.

Definition TrimFunc (s : string) (f : Z -> bool) : string :=
  TrimRightFunc (TrimLeftFunc s f) f.

(** [TrimSpace s]: [s] without leading and trailing white space, as
    defined by Unicode. *)
Definition TrimSpace (s : string) : string := TrimFunc s unicode.IsSpace.

(** [HasSuffix]: [len(s) >= len(suffix) && s[len(s)-len(suffix):] == suffix]. *)
Definition HasSuffix (s suffix : string) : bool :=
  (len suffix <=? len s)
  && String.eqb (slice_from s (len s - len suffix)) suffix.

(** [Repeat s count], for the non-negative counts the program passes. *)
Definition Repeat (s : string) (count : Z) : string :=
  Nat.iter (Z.to_nat count) (String.append s) EmptyString.

(** [Map mapping s]: every rune of [s] (an invalid byte reads as
    [RuneError]) is replaced by its image, which is dropped when negative. *)
Fixpoint mapFrom (skip : nat) (mapping : Z -> Z) (s : string) : string :=
  match s with
  | EmptyString => EmptyString
  | String _ rest =>
      match skip with
      | S k => mapFrom k mapping rest
      | O =>
          let '(c, width) := utf8.DecodeRuneInString s in
          let r := mapping c in
          (if 0 <=? r then utf8.EncodeRune r else EmptyString)
          +:+ mapFrom (Z.to_nat (width - 1)) mapping rest
      end
  end.

Definition Map (mapping : Z -> Z) (s : string) : string := mapFrom 0 mapping s.

(** The first loop of [ToLower]: is every byte of [s] below [RuneSelf]? *)
Fixpoint isASCII (s : string) : bool :=
  match s with
  | EmptyString => true
  | String c rest => (byte_val c <? utf8.RuneSelf) && isASCII rest
  end.

(** The ASCII path of [ToLower]: ['A'..'Z'] move by ['a' - 'A']. *)
Fixpoint lowerASCII (s : string) : string :=
  match s with
  | EmptyString => EmptyString
  | String c rest =>
      let b := byte_val c in
      String (if (0x41 <=? b) && (b <=? 0x5A) then byte_of (b + 0x20) else c)
             (lowerASCII rest)
  end.

Section ToLower.
(** [unicode.ToLower] consults the case tables of the Unicode database,
    which are data of the Go distribution; the model takes the function as
    given. *)
Variable unicode_ToLower : Z -> Z.

Definition ToLower (s : string) : string :=
  if isASCII s then lowerASCII s else Map unicode_ToLower s.

End ToLower.

End Strings.

(** ** Slices

    A Go slice is [nil] or holds a sequence of elements; the two empty
    slices ([nil] and a non-nil slice of length 0) behave alike under [len],
    [range] and [append], and differently under [encoding/json]. *)
Inductive Slice (A : Type) : Type :=
| nil_slice
| mk_slice (l : list A).
Arguments nil_slice {A}.
Arguments mk_slice {A} l.

Definition elems {A} (s : Slice A) : list A :=
  match s with nil_slice => [] | mk_slice l => l end.

(** [append(s, vs...)]: with nothing to add the result is [s] itself (a nil
    slice stays nil); otherwise it is a non-nil slice. *)
Definition append {A} (s : Slice A) (vs : list A) : Slice A :=
  match vs with
  | [] => s
  | _ :: _ => mk_slice (elems s ++ vs)
  end.

Definition slice_len {A} (s : Slice A) : Z := Z.of_nat (length (elems s)).

(** ** encoding/json, at the types the program uses it *)
Module json.

Definition hex : string := "0123456789abcdef".

Definition hexDigit (n : Z) : string :=
  match String.get (Z.to_nat n) hex with
  | Some c => String c EmptyString
  | None => EmptyString
  end.

(** [htmlSafeSet[b]]: the ASCII bytes that need no escape in a JSON string
    embedded in HTML: everything from the space on, except the double
    quote, the backslash, and the three characters [&], [<] and [>]. *)
Definition htmlSafeSet (b : Z) : bool :=
  (0x20 <=? b) && (b <? 0x80)
  && negb ((b =? 0x22) || (b =? 0x26) || (b =? 0x3C) || (b =? 0x3E)
           || (b =? 0x5C)).

(** The escape of an ASCII byte outside [htmlSafeSet] (the [switch b] of
    [appendString]). *)
Definition escapeByte (b : Z) : string :=
  if (b =? 0x5C) || (b =? 0x22) then String "\" (String (byte_of b) EmptyString)
  else if b =? 0x08 then "\b"
  else if b =? 0x0C then "\f"
  else if b =? 0x0A then "\n"
  else if b =? 0x0D then "\r"
  else if b =? 0x09 then "\t"
  else "\u00" +:+ hexDigit (Z.shiftr b 4) +:+ hexDigit (Z.land b 0xF).

(** What is still to be done with the bytes that follow the first byte of a
    multi-byte rune: copy them, or pass over them (the rune was escaped). *)
Inductive pending : Type :=
| Copy (k : nat)
| Drop (k : nat).

(** The loop of [appendString] (with [escapeHTML] set, the encoder's
    default), byte by byte. *)
Fixpoint escapeFrom (p : pending) (s : string) : string :=
  match s with
  | EmptyString => EmptyString
  | String c rest =>
      match p with
      | Copy (S k) => String c (escapeFrom (Copy k) rest)
      | Drop (S k) => escapeFrom (Drop k) rest
      | Copy O | Drop O =>
          let b := byte_val c in
          if b <? utf8.RuneSelf then
            (if htmlSafeSet b then String c EmptyString else escapeByte b)
            +:+ escapeFrom (Copy 0) rest
          else
            let '(r, size) := utf8.DecodeRuneInString s in
            if (r =? utf8.RuneError) && (size =? 1) then
              "\ufffd" +:+ escapeFrom (Copy 0) rest
            else if (r =? 0x2028) || (r =? 0x2029) then
              "\u202" +:+ hexDigit (Z.land r 0xF)
              +:+ escapeFrom (Drop (Z.to_nat (size - 1))) rest
            else String c (escapeFrom (Copy (Z.to_nat (size - 1))) rest)
      end
  end.

(** [appendString]: the JSON string literal for [s]. *)
Definition appendString (s : string) : string :=
  dquote +:+ escapeFrom (Copy 0) s +:+ dquote.

(** A struct value as the encoder sees it through reflection: its exported
    fields in declaration order, all of type [string] here. *)
Definition Struct : Type := list (string * string).

Fixpoint joinWith (sep : string) (l : list string) : string :=
  match l with
  | [] => EmptyString
  | [x] => x
  | x :: l' => x +:+ sep +:+ joinWith sep l'
  end.

Definition marshalField (kv : string * string) : string :=
  appendString (fst kv) +:+ ":" +:+ appendString (snd kv).

Definition marshalStruct (v : Struct) : string :=
  "{" +:+ joinWith "," (map marshalField v) +:+ "}".

(** [Marshal] of a slice of structs, in the compact form: [null] for a nil
    slice, an array otherwise. *)
Definition marshal (v : Slice Struct) : string :=
  match v with
  | nil_slice => "null"
  | mk_slice l => "[" +:+ joinWith "," (map marshalStruct l) +:+ "]"
  end.

(** *** Indent *)

(** Where the scanner is, as far as [appendIndent] can tell on a valid
    document: between tokens, inside a string literal, or after a backslash
    inside one. *)
Inductive mode : Type := Outside | InString | InStringEsc.

Definition isSpace (b : Z) : bool :=
  (b =? 0x20) || (b =? 0x09) || (b =? 0x0D) || (b =? 0x0A).

(** [appendNewline]: a newline, the prefix, and [depth] copies of the
    indent. *)
Definition appendNewline (prefix indent : string) (depth : Z) : string :=
  nl +:+ prefix +:+ Strings.Repeat indent depth.

Section Indent.
Variables prefix indent : string.

(** The loop of [appendIndent] over a valid document.  [nest] is the
    number of arrays and objects the scanner is inside of and [started]
    tells that the top-level value has begun: white space after its end is
    copied ([scanEnd]), all other white space between tokens is dropped
    ([scanSkipSpace]). *)
Fixpoint indentFrom (m : mode) (needIndent : bool) (depth nest : Z)
    (started : bool) (src : string) : string :=
  match src with
  | EmptyString => EmptyString
  | String c rest =>
      let b := byte_val c in
      match m with
      | InString =>
          String c
            (indentFrom
               (if b =? 0x22 then Outside
                else if b =? 0x5C then InStringEsc else InString)
               needIndent depth nest started rest)
      | InStringEsc =>
          String c (indentFrom InString needIndent depth nest started rest)
      | Outside =>
          if isSpace b then
            if started && (nest =? 0) then
              String c (indentFrom Outside needIndent depth nest started rest)
            else indentFrom Outside needIndent depth nest started rest
          else
            let closing := (b =? 0x7D) || (b =? 0x5D) in
            let opened := needIndent && negb closing in
            let depth := if opened then depth + 1 else depth in
            let lead :=
              if opened then appendNewline prefix indent depth
              else EmptyString in
            let needIndent := if opened then false else needIndent in
            if (b =? 0x7B) || (b =? 0x5B) then
              lead +:+ String c
                (indentFrom Outside true depth (nest + 1) true rest)
            else if b =? 0x2C then
              lead +:+ String c
                (appendNewline prefix indent depth
                 +:+ indentFrom Outside needIndent depth nest started rest)
            else if b =? 0x3A then
              lead +:+ String c
                (" " +:+ indentFrom Outside needIndent depth nest started rest)
            else if closing then
              if needIndent then
                String c (indentFrom Outside false depth (nest - 1) started rest)
              else
                appendNewline prefix indent (depth - 1)
                +:+ String c
                      (indentFrom Outside false (depth - 1) (nest - 1)
                         started rest)
            else
              lead +:+ String c
                (indentFrom (if b =? 0x22 then InString else Outside)
                   needIndent depth nest true rest)
      end
  end.

Definition Indent (src : string) : string :=
  indentFrom Outside false 0 0 false src.

End Indent.

(** [Encoder.Encode] after [SetIndent("", "  ")]: the compact encoding, a
    newline, and the whole passed through [appendIndent]. *)
Definition Encode (v : Slice Struct) : string :=
  Indent "" "  " (marshal v +:+ nl).

(** *** Decoding

    [Unmarshal] into a slice of structs with string fields, on the
    documents made of such values: [null], or an array of objects whose
    members are strings, with white space between the tokens.  [None]
    stands for an error of the decoder, or for a document outside this
    class. *)

Definition hexVal (c : ascii) : option Z :=
  let b := byte_val c in
  if (0x30 <=? b) && (b <=? 0x39) then Some (b - 0x30)
  else if (0x61 <=? b) && (b <=? 0x66) then Some (b - 0x61 + 10)
  else if (0x41 <=? b) && (b <=? 0x46) then Some (b - 0x41 + 10)
  else None.

(** [getu4]: the rune of the four hexadecimal digits after a [\u]. *)
Definition getu4 (h1 h2 h3 h4 : ascii) : option Z :=
  match hexVal h1, hexVal h2, hexVal h3, hexVal h4 with
  | Some a, Some b, Some c, Some d => Some (((a * 16 + b) * 16 + c) * 16 + d)
  | _, _, _, _ => None
  end.

(** [utf16.IsSurrogate] and [utf16.DecodeRune]. *)
Definition IsSurrogate (r : Z) : bool := (0xD800 <=? r) && (r <? 0xE000).

Definition utf16_DecodeRune (r1 r2 : Z) : Z :=
  if (0xD800 <=? r1) && (r1 <? 0xDC00) && (0xDC00 <=? r2) && (r2 <? 0xE000)
  then Z.lor (Z.shiftl (r1 - 0xD800) 10) (r2 - 0xDC00) + 0x10000
  else utf8.RuneError.

Definition emit (x : string) (r : option (string * string))
    : option (string * string) :=
  match r with
  | Some (d, rest) => Some (x +:+ d, rest)
  | None => None
  end.

Definition byte (z : Z) : string := String (byte_of z) EmptyString.

(** The body of a string literal, from after its opening quote: the
    decoded string and the input that follows the closing quote.  [skip]
    counts the bytes still to pass of a multi-byte rune already decoded. *)
Fixpoint unquoteFrom (skip : nat) (s : string) : option (string * string) :=
  match s with
  | EmptyString => None
  | String c rest =>
      match skip with
      | S k => unquoteFrom k rest
      | O =>
          let b := byte_val c in
          if b =? 0x22 then Some (EmptyString, rest)
          else if b =? 0x5C then
            match rest with
            | EmptyString => None
            | String e rest1 =>
                let eb := byte_val e in
                if (eb =? 0x22) || (eb =? 0x5C) || (eb =? 0x2F) then
                  emit (byte eb) (unquoteFrom 0 rest1)
                else if eb =? 0x62 then emit (byte 0x08) (unquoteFrom 0 rest1)
                else if eb =? 0x66 then emit (byte 0x0C) (unquoteFrom 0 rest1)
                else if eb =? 0x6E then emit (byte 0x0A) (unquoteFrom 0 rest1)
                else if eb =? 0x72 then emit (byte 0x0D) (unquoteFrom 0 rest1)
                else if eb =? 0x74 then emit (byte 0x09) (unquoteFrom 0 rest1)
                else if eb =? 0x75 then
                  match rest1 with
                  | String h1 (String h2 (String h3 (String h4 rest2))) =>
                      match getu4 h1 h2 h3 h4 with
                      | None => None
                      | Some rr =>
                          if IsSurrogate rr then
                            match rest2 with
                            | String bs (String u (String g1 (String g2
                                (String g3 (String g4 rest3))))) =>
                                match
                                  (if (byte_val bs =? 0x5C) && (byte_val u =? 0x75)
                                   then getu4 g1 g2 g3 g4 else None)
                                with
                                | Some rr1 =>
                                    let dec := utf16_DecodeRune rr rr1 in
                                    if negb (dec =? utf8.RuneError) then
                                      emit (utf8.EncodeRune dec)
                                           (unquoteFrom 0 rest3)
                                    else
                                      emit (utf8.EncodeRune utf8.RuneError)
                                           (unquoteFrom 0 rest2)
                                | None =>
                                    emit (utf8.EncodeRune utf8.RuneError)
                                         (unquoteFrom 0 rest2)
                                end
                            | _ =>
                                emit (utf8.EncodeRune utf8.RuneError)
                                     (unquoteFrom 0 rest2)
                            end
                          else emit (utf8.EncodeRune rr) (unquoteFrom 0 rest2)
                      end
                  | _ => None
                  end
                else None
            end
          else if b <? 0x20 then None
          else if b <? utf8.RuneSelf then
            emit (String c EmptyString) (unquoteFrom 0 rest)
          else
            let '(rr, size) := utf8.DecodeRuneInString s in
            emit (utf8.EncodeRune rr)
                 (unquoteFrom (Z.to_nat (size - 1)) rest)
      end
  end.

Fixpoint skipSpace (s : string) : string :=
  match s with
  | EmptyString => EmptyString
  | String c rest => if isSpace (byte_val c) then skipSpace rest else s
  end.

(** A string literal at the head of the input. *)
Definition parseString (s : string) : option (string * string) :=
  match s with
  | String c rest => if byte_val c =? 0x22 then unquoteFrom 0 rest else None
  | EmptyString => None
  end.

(** The input with the byte [b] taken off its head. *)
Definition expect (b : Z) (s : string) : option string :=
  match s with
  | String c rest => if byte_val c =? b then Some rest else None
  | EmptyString => None
  end.

(** The members of an object, from its first key on, and the input after
    the closing brace.  Every member takes at least one byte of input, so
    the length of the input is fuel enough. *)
Fixpoint parseMembers (fuel : nat) (s : string) : option (Struct * string) :=
  match fuel with
  | O => None
  | S k =>
      match parseString s with
      | None => None
      | Some (key, s1) =>
          match expect 0x3A (skipSpace s1) with
          | None => None
          | Some s2 =>
              match parseString (skipSpace s2) with
              | None => None
              | Some (val, s3) =>
                  match skipSpace s3 with
                  | String c s4 =>
                      if byte_val c =? 0x2C then
                        match parseMembers k (skipSpace s4) with
                        | Some (ms, s5) => Some ((key, val) :: ms, s5)
                        | None => None
                        end
                      else if byte_val c =? 0x7D then Some ([(key, val)], s4)
                      else None
                  | EmptyString => None
                  end
              end
          end
      end
  end.

Definition parseObject (n : nat) (s : string) : option (Struct * string) :=
  match expect 0x7B s with
  | None => None
  | Some s1 =>
      match expect 0x7D (skipSpace s1) with
      | Some s2 => Some ([], s2)
      | None => parseMembers n (skipSpace s1)
      end
  end.

(** The elements of an array, from its first element on, and the input
    after the closing bracket. *)
Fixpoint parseElements (fuel n : nat) (s : string)
    : option (list Struct * string) :=
  match fuel with
  | O => None
  | S k =>
      match parseObject n s with
      | None => None
      | Some (v, s1) =>
          match skipSpace s1 with
          | String c s2 =>
              if byte_val c =? 0x2C then
                match parseElements k n (skipSpace s2) with
                | Some (vs, s3) => Some (v :: vs, s3)
                | None => None
                end
              else if byte_val c =? 0x5D then Some ([v], s2)
              else None
          | EmptyString => None
          end
      end
  end.

Definition atEnd (s : string) : bool := is_empty (skipSpace s).

Definition Unmarshal (doc : string) : option (Slice Struct) :=
  let n := String.length doc in
  match skipSpace doc with
  | String c rest =>
      if byte_val c =? 0x5B then
        match expect 0x5D (skipSpace rest) with
        | Some s1 => if atEnd s1 then Some (mk_slice []) else None
        | None =>
            match parseElements n n (skipSpace rest) with
            | Some (vs, s1) => if atEnd s1 then Some (mk_slice vs) else None
            | None => None
            end
        end
      else if String.eqb (stake 4 (skipSpace doc)) "null"
              && atEnd (sdrop 4 (skipSpace doc))
      then Some nil_slice
      else None
  | EmptyString => None
  end.

End json.

(** ** Errors and the outside world *)

(** A Go [error] is observed by the program only through [%v], that is
    through its message. *)
Definition error : Type := string.

Inductive result (A : Type) : Type :=
| Ok (a : A)
| Err (e : error).
Arguments Ok {A} a.
Arguments Err {A} e.

(** The console, the files of the host, the host's verdict on creating a
    file at a path ([None]: the file can be created), and its verdict on
    the write of a JSON document to the file at a path ([None]: the
    document is written in full; [Some (n, e)]: the write fails with the
    error [e] once [n] bytes have gone through). *)
Record World : Type := mkWorld {
  stdout : string;
  files : gmap string string;
  create_error : string -> option error;
  write_error : string -> option (nat * error)
}.

(** Commands that act on the world and return a value. *)
Definition IO (A : Type) : Type := World -> A * World.

Definition ret {A} (a : A) : IO A := fun w => (a, w).
Definition bind {A B} (c : IO A) (k : A -> IO B) : IO B :=
  fun w => let '(a, w') := c w in k a w'.

Notation "'let!' x ':=' c 'in' k" := (bind c (fun x => k))
  (at level 10, x name, c at level 100, k at level 200, only parsing).
Notation "c ;;; k" := (bind c (fun _ => k))
  (at level 100, k at level 200, only parsing).

Definition value {A} (r : A * World) : A := fst r.
Definition after {A} (r : A * World) : World := snd r.

(** [fmt.Print]: the text goes to the console. *)
Definition Print (s : string) : IO unit :=
  fun w =>
    (tt, mkWorld (stdout w +:+ s) (files w) (create_error w) (write_error w)).
Definition Println (s : string) : IO unit := Print (s +:+ nl).

(** An open file is known by its path. *)
Definition File : Type := string.

(** [os.Create]: the file is created or truncated, unless the host
    refuses. *)
Definition os_Create (name : string) : IO (result File) :=
  fun w =>
    match create_error w name with
    | Some e => (Err e, w)
    | None =>
        (Ok name,
         mkWorld (stdout w) (<[name := EmptyString]> (files w))
           (create_error w) (write_error w))
    end.

(** [fmt.Fprint] to an open file: the text is added at the end.  The
    program never looks at the result of a [fmt.Fprintf] ([saveToText]
    drops it), and these writes are taken to go through. *)
Definition Fprint (f : File) (s : string) : IO unit :=
  fun w =>
    (tt,
     mkWorld (stdout w)
       (<[f := default EmptyString (files w !! f) +:+ s]> (files w))
       (create_error w) (write_error w)).

(** The [Write] method of an open [os.File], as the JSON encoder calls it
    with its document:
    the bytes are added at the end of the file, all of them when the host
    lets the write through, and otherwise the ones that went through
    before the error, which is returned. *)
Definition File_Write (f : File) (b : string) : IO (option error) :=
  fun w =>
    match write_error w f with
    | None =>
        (None,
         mkWorld (stdout w)
           (<[f := default EmptyString (files w !! f) +:+ b]> (files w))
           (create_error w) (write_error w))
    | Some (n, e) =>
        (Some e,
         mkWorld (stdout w)
           (<[f := default EmptyString (files w !! f) +:+ stake n b]> (files w))
           (create_error w) (write_error w))
    end.

(** ** golang.org/x/sys/windows/registry *)
Module registry.

Definition QUERY_VALUE : Z := 1.
Definition ENUMERATE_SUB_KEYS : Z := 8.

(** The three capabilities the scanner uses, over a snapshot of the
    store: opening a key below another for some access, listing the names
    of the subkeys of an open key, and reading a string value of an open
    key.  Each can fail with an error. *)
Class API : Type := {
  Key : Type;
  LOCAL_MACHINE : Key;
  OpenKey : Key -> string -> Z -> result Key;
  ReadSubKeyNames : Key -> Z -> result (list string);
  GetStringValue : Key -> string -> result string
}.

End registry.

(** ** Package cmd *)
Module cmd.
Import registry.

(** [Program] represents an installed application. *)
Record Program : Type := mkProgram {
  Name : string;
  Version : string;
  Path : string
}.

(** The zero value [var program Program]. *)
Definition zeroProgram : Program := mkProgram EmptyString EmptyString EmptyString.

Definition root64 : string :=
  "SOFTWARE\Microsoft\Windows\CurrentVersion\Uninstall".
Definition root32 : string :=
  "SOFTWARE\WOW6432Node\Microsoft\Windows\CurrentVersion\Uninstall".

(** The view [encoding/json] has of a [Program]: no field carries a tag, so
    the keys are the field names. *)
Definition toStruct (p : Program) : json.Struct :=
  [("Name", Name p); ("Version", Version p); ("Path", Path p)].

Definition toStructs (programs : Slice Program) : Slice json.Struct :=
  match programs with
  | nil_slice => nil_slice
  | mk_slice l => mk_slice (map toStruct l)
  end.

Section Scan.
Context {R : API}.

(** [getProgramFromSubkey] reads program details from a specific registry
    subkey. *)
Definition getProgramFromSubkey (parentKey : Key) (subkeyName : string)
    : Program * option error :=
  let program := zeroProgram in
  match OpenKey parentKey subkeyName QUERY_VALUE with
  | Err err => (program, Some err)
  | Ok subkey =>
      match GetStringValue subkey "DisplayName" with
      | Err err => (program, Some err)
      | Ok name =>
          let program :=
            mkProgram (Strings.TrimSpace name) (Version program) (Path program) in
          let program :=
            match GetStringValue subkey "DisplayVersion" with
            | Ok version =>
                mkProgram (Name program) (Strings.TrimSpace version) (Path program)
            | Err _ => program
            end in
          let program :=
            match GetStringValue subkey "InstallLocation" with
            | Ok path =>
                mkProgram (Name program) (Version program) (Strings.TrimSpace path)
            | Err _ => program
            end in
          (program, None)
      end
  end.

(** What the body of the loop of [scanRegistryLocation] adds to [programs]
    for one subkey: nothing when [getProgramFromSubkey] fails, nothing when
    the program has no name, the program otherwise. *)
Definition kept (key : Key) (subkeyName : string) : option Program :=
  let '(program, err) := getProgramFromSubkey key subkeyName in
  match err with
  | Some _ => None
  | None => if negb (is_empty (Name program)) then Some program else None
  end.

(** The loop [for i, subkeyName := range subkeyNames] of
    [scanRegistryLocation], entered at index [i] with the names still to
    visit; [total] is [len(subkeyNames)]. *)
Fixpoint scanSubkeys (key : Key) (total : Z) (names : list string) (i : Z)
    (programs : Slice Program) : IO (Slice Program) :=
  match names with
  | [] => ret programs
  | subkeyName :: rest =>
      (if (Z.rem i 50 =? 0) && (0 <? i) then
         Print ("  Processed " +:+ itoa i +:+ "/" +:+ itoa total
                +:+ " programs..." +:+ nl)
       else ret tt) ;;;
      let '(program, err) := getProgramFromSubkey key subkeyName in
      match err with
      | Some _ => scanSubkeys key total rest (i + 1) programs
      | None =>
          if negb (is_empty (Name program)) then
            scanSubkeys key total rest (i + 1) (append programs [program])
          else scanSubkeys key total rest (i + 1) programs
      end
  end.

(** [scanRegistryLocation] opens a registry key and scans all its
    subkeys. *)
Definition scanRegistryLocation (keyPath : string)
    : IO (Slice Program * option error) :=
  let programs := nil_slice in
  Print ("  Opening registry key: " +:+ keyPath +:+ nl) ;;;
  match OpenKey LOCAL_MACHINE keyPath
          (Z.lor ENUMERATE_SUB_KEYS QUERY_VALUE) with
  | Err err =>
      ret (nil_slice, Some ("failed to open registry key: " +:+ err))
  | Ok key =>
      Print ("  Reading subkey names..." +:+ nl) ;;;
      match ReadSubKeyNames key (-1) with
      | Err err =>
          ret (nil_slice, Some ("failed to read subkey names: " +:+ err))
      | Ok subkeyNames =>
          let total := Z.of_nat (length subkeyNames) in
          Print ("  Found " +:+ itoa total +:+ " subkeys to process" +:+ nl) ;;;
          let! programs := scanSubkeys key total subkeyNames 0 programs in
          ret (programs, None)
      end
  end.

(** [scanAllPrograms] scans both 64-bit and 32-bit program locations. *)
Definition scanAllPrograms : IO (Slice Program * option error) :=
  let allPrograms := nil_slice in
  Println "Step 1: Scanning 64-bit programs..." ;;;
  Println "Location: SOFTWARE\Microsoft\Windows\CurrentVersion\Uninstall" ;;;
  let! r64 := scanRegistryLocation root64 in
  let '(programs64, err) := r64 in
  let! allPrograms :=
    match err with
    | Some err =>
        Print ("Warning: Could not scan 64-bit programs: " +:+ err +:+ nl) ;;;
        ret allPrograms
    | None =>
        Print ("Found " +:+ itoa (slice_len programs64)
               +:+ " 64-bit programs" +:+ nl) ;;;
        ret (append allPrograms (elems programs64))
    end in
  Println (nl +:+ "Step 2: Scanning 32-bit programs...") ;;;
  Println
    "Location: SOFTWARE\WOW6432Node\Microsoft\Windows\CurrentVersion\Uninstall" ;;;
  let! r32 := scanRegistryLocation root32 in
  let '(programs32, err) := r32 in
  let! allPrograms :=
    match err with
    | Some err =>
        Print ("Warning: Could not scan 32-bit programs: " +:+ err +:+ nl) ;;;
        ret allPrograms
    | None =>
        Print ("Found " +:+ itoa (slice_len programs32)
               +:+ " 32-bit programs" +:+ nl) ;;;
        ret (append allPrograms (elems programs32))
    end in
  ret (allPrograms, None).

End Scan.

(** The loop [for i, program := range programs] of [displayResults],
    entered at index [i]. *)
Fixpoint displayPrograms (i : Z) (programs : list Program) : IO unit :=
  match programs with
  | [] => ret tt
  | program :: rest =>
      Print (itoa (i + 1) +:+ ". " +:+ Name program) ;;;
      (if negb (is_empty (Version program)) then
         Print (" (v" +:+ Version program +:+ ")")
       else ret tt) ;;;
      Println EmptyString ;;;
      (if negb (is_empty (Path program)) then
         Print ("   Path: " +:+ Path program +:+ nl)
       else ret tt) ;;;
      Println EmptyString ;;;
      displayPrograms (i + 1) rest
  end.

(** [displayResults] formats and displays the scan results. *)
Definition displayResults (programs : Slice Program) : IO unit :=
  Print (nl +:+ Strings.Repeat "=" 50 +:+ nl) ;;;
  Print ("SCAN COMPLETE!" +:+ nl) ;;;
  Print ("Found " +:+ itoa (slice_len programs)
         +:+ " installed programs:" +:+ nl) ;;;
  Print (Strings.Repeat "=" 50 +:+ nl +:+ nl) ;;;
  displayPrograms 0 (elems programs).

(** [encoder.Encode(programs)] on the encoder [saveToJSON] sets up: the
    indented document of the slice is built (which cannot fail for a slice
    of records of strings) and handed to the file in one write, whose error
    is the result. *)
Definition Encoder_Encode (file : File) (programs : Slice Program)
    : IO (option error) :=
  File_Write file (json.Encode (toStructs programs)).

(** [saveToJSON] saves the program list to a JSON file. *)
Definition saveToJSON (programs : Slice Program) (filename : string)
    : IO (option error) :=
  let! r := os_Create filename in
  match r with
  | Err err => ret (Some ("failed to create file: " +:+ err))
  | Ok file =>
      (* encoder := json.NewEncoder(file); encoder.SetIndent("", "  ") *)
      let! err := Encoder_Encode file programs in
      match err with
      | Some err => ret (Some ("failed to encode JSON: " +:+ err))
      | None => ret None
      end
  end.

(** The loop [for i, program := range programs] of [saveToText], entered
    at index [i]. *)
Fixpoint writePrograms (file : File) (i : Z) (programs : list Program)
    : IO unit :=
  match programs with
  | [] => ret tt
  | program :: rest =>
      Fprint file (itoa (i + 1) +:+ ". " +:+ Name program) ;;;
      (if negb (is_empty (Version program)) then
         Fprint file (" (v" +:+ Version program +:+ ")")
       else ret tt) ;;;
      Fprint file nl ;;;
      (if negb (is_empty (Path program)) then
         Fprint file ("   Path: " +:+ Path program +:+ nl)
       else ret tt) ;;;
      Fprint file nl ;;;
      writePrograms file (i + 1) rest
  end.

(** [saveToText] saves the program list to a text file. *)
Definition saveToText (programs : Slice Program) (filename : string)
    : IO (option error) :=
  let! r := os_Create filename in
  match r with
  | Err err => ret (Some ("failed to create file: " +:+ err))
  | Ok file =>
      Fprint file ("WinClone - Installed Programs List" +:+ nl) ;;;
      Fprint file ("Generated on: " +:+ "2025-01-14" +:+ nl) ;;;
      Fprint file ("Total programs found: " +:+ itoa (slice_len programs) +:+ nl) ;;;
      Fprint file (Strings.Repeat "=" 50 +:+ nl +:+ nl) ;;;
      writePrograms file 0 (elems programs) ;;;
      ret None
  end.

Section Commands.
Context {R : API}.
Variable unicode_ToLower : Z -> Z.

(** The [Run] function of [scanCmd]; [outputFile] is the value of the
    [--output] flag as the command framework parsed it (the empty string
    when the flag is not given). *)
Definition scanCmd_Run (outputFile : string) : IO unit :=
  Println "WinClone - Scanning installed programs..." ;;;
  Println "==========================================" ;;;
  let! r := scanAllPrograms in
  let '(programs, err) := r in
  match err with
  | Some err => Print ("Error scanning programs: " +:+ err +:+ nl)
  | None =>
      if negb (is_empty outputFile) then
        if Strings.HasSuffix (Strings.ToLower unicode_ToLower outputFile) ".json"
        then
          let! err := saveToJSON programs outputFile in
          match err with
          | Some err => Print ("Error saving to JSON: " +:+ err +:+ nl)
          | None => Print (nl +:+ "Results saved to JSON: " +:+ outputFile +:+ nl)
          end
        else
          let! err := saveToText programs outputFile in
          match err with
          | Some err => Print ("Error saving to text: " +:+ err +:+ nl)
          | None => Print (nl +:+ "Results saved to text: " +:+ outputFile +:+ nl)
          end
      else displayResults programs
  end.

(** What the command framework (cobra) makes of the command line: it
    rejects it (unknown command or flag, malformed flag value), or runs
    the [scan] command with a value for [--output], or handles the
    invocation itself by printing a help or usage text. *)
Inductive Dispatch : Type :=
| Rejected (err : error)
| RunScan (outputFile : string)
| HelpShown (text : string).

(** [rootCmd.Execute()]: only a rejected command line yields an error; a
    [Run] function has no error result. *)
Definition rootCmd_Execute (d : Dispatch) : IO (option error) :=
  match d with
  | Rejected err => ret (Some err)
  | RunScan outputFile => scanCmd_Run outputFile ;;; ret None
  | HelpShown text => Print text ;;; ret None
  end.

(** [Execute]: the result is the status passed to [os.Exit], or [None]
    when [Execute] returns to its caller. *)
Definition Execute (d : Dispatch) : IO (option Z) :=
  let! err := rootCmd_Execute d in
  match err with
  | Some _ => ret (Some 1)
  | None => ret None
  end.

End Commands.

End cmd.

(** ** An in-memory configuration store

    A store that implements the three capabilities over explicit data: the
    keys below [LOCAL_MACHINE], each with the errors its opening and its
    listing raise (if any) and its subkeys in listing order; a subkey has
    the error its opening raises (if any) and its string values. *)
Module Fake.
Import registry.

Record Subkey : Type := mkSubkey {
  sub_open_error : option error;
  sub_values : list (string * string)
}.

Record Root : Type := mkRoot {
  root_open_error : option error;
  root_list_error : option error;
  root_subkeys : list (string * Subkey)
}.

Definition Store : Type := list (string * Root).

Inductive Handle : Type :=
| HKLM
| AtRoot (r : Root)
| AtSubkey (k : Subkey).

Fixpoint assoc {A} (k : string) (l : list (string * A)) : option A :=
  match l with
  | [] => None
  | (k', v) :: l' => if String.eqb k k' then Some v else assoc k l'
  end.

Definition not_found : error := "The system cannot find the file specified.".

Definition open (store : Store) (k : Handle) (path : string) (access : Z)
    : result Handle :=
  match k with
  | HKLM =>
      match assoc path store with
      | None => Err not_found
      | Some r =>
          match root_open_error r with
          | Some e => Err e
          | None => Ok (AtRoot r)
          end
      end
  | AtRoot r =>
      match assoc path (root_subkeys r) with
      | None => Err not_found
      | Some s =>
          match sub_open_error s with
          | Some e => Err e
          | None => Ok (AtSubkey s)
          end
      end
  | AtSubkey _ => Err not_found
  end.

Definition list_names (store : Store) (k : Handle) (n : Z)
    : result (list string) :=
  match k with
  | HKLM => Ok (map fst store)
  | AtRoot r =>
      match root_list_error r with
      | Some e => Err e
      | None => Ok (map fst (root_subkeys r))
      end
  | AtSubkey _ => Ok []
  end.

Definition read (k : Handle) (name : string) : result string :=
  match k with
  | AtSubkey s =>
      match assoc name (sub_values s) with
      | Some v => Ok v
      | None => Err not_found
      end
  | _ => Err not_found
  end.

Definition api (store : Store) : API :=
  {| Key := Handle;
     LOCAL_MACHINE := HKLM;
     OpenKey := open store;
     ReadSubKeyNames := list_names store;
     GetStringValue := read |}.

(** The scenario of the specification: root A holds a complete entry and
    an entry without a display name, root B an entry with a name only. *)
Definition scenario : Store :=
  [ (cmd.root64,
     mkRoot None None
       [ ("C1", mkSubkey None
                  [("DisplayName", "Alpha"); ("DisplayVersion", "1.0");
                   ("InstallLocation", "C:\Alpha")]);
         ("C2", mkSubkey None [("DisplayVersion", "2.0")]) ]);
    (cmd.root32,
     mkRoot None None [ ("C3", mkSubkey None [("DisplayName", "Beta")]) ]) ].

Definition emptyWorld : World :=
  mkWorld EmptyString ∅ (fun _ => None) (fun _ => None).

(** A root whose only subkey has a display name made of three spaces,
    and a version. *)
Definition blankRoot : Root :=
  mkRoot None None
    [ ("Blank", mkSubkey None [("DisplayName", "   "); ("DisplayVersion", "3.1")]) ].

Definition blankStore : Store :=
  [ (cmd.root64, blankRoot); (cmd.root32, mkRoot None None []) ].

(** A root whose only subkey has a display name with spaces around it and
    no other value. *)
Definition paddedRoot : Root :=
  mkRoot None None [ ("Foo", mkSubkey None [("DisplayName", "  Foo  ")]) ].

(** The scenario with the first root missing. *)
Definition secondOnly : Store :=
  [ (cmd.root32,
     mkRoot None None [ ("C3", mkSubkey None [("DisplayName", "Beta")]) ]) ].

(** The scenario with a second root that opens and cannot be listed. *)
Definition firstOnly : Store :=
  [ (cmd.root64,
     mkRoot None None
       [ ("C1", mkSubkey None
                  [("DisplayName", "Alpha"); ("DisplayVersion", "1.0");
                   ("InstallLocation", "C:\Alpha")]) ]);
    (cmd.root32, mkRoot None (Some "Access is denied.") []) ].

End Fake.

(** ** The specification's vocabulary *)
Module Spec.
Import registry cmd.

(** [say w out]: the world [w] after [out] went to the console. *)
Definition say (w : World) (out : string) : World :=
  mkWorld (stdout w +:+ out) (files w) (create_error w) (write_error w).

(** [Printed msg w w']: between [w] and [w'] the text [msg] was printed. *)
Definition Printed (msg : string) (w w' : World) : Prop :=
  exists pre post, stdout w' = stdout w +:+ pre +:+ msg +:+ post.

(** A command that only prints: it returns [a] and prints [out] whatever
    the world. *)
Definition Prints {A} (c : IO A) (a : A) (out : string) : Prop :=
  forall w, c w = (a, say w out).

(** [allSpaces s]: [s] is made of ASCII white space only (tab, line feed,
    vertical tab, form feed, carriage return, space). *)
Definition asciiSpace (c : ascii) : bool :=
  let b := byte_val c in
  (b =? 0x09) || (b =? 0x0A) || (b =? 0x0B) || (b =? 0x0C) || (b =? 0x0D)
  || (b =? 0x20).

Fixpoint allSpaces (s : string) : bool :=
  match s with
  | EmptyString => true
  | String c t => asciiSpace c && allSpaces t
  end.

Section Roots.
Context {R : API}.

(** The records of one root, in the order the store lists its subkeys; a
    root that cannot be opened or listed has none. *)
Definition rootRecords (path : string) : list Program :=
  match OpenKey LOCAL_MACHINE path (Z.lor ENUMERATE_SUB_KEYS QUERY_VALUE) with
  | Err _ => []
  | Ok key =>
      match ReadSubKeyNames key (-1) with
      | Err _ => []
      | Ok names => omap (kept key) names
      end
  end.

(** What scanning one root comes to: the records with no error, or no
    records with the error of the step that failed. *)
Definition rootOutcome (path : string) : Slice Program * option error :=
  match OpenKey LOCAL_MACHINE path (Z.lor ENUMERATE_SUB_KEYS QUERY_VALUE) with
  | Err e0 => (nil_slice, Some ("failed to open registry key: " +:+ e0))
  | Ok key =>
      match ReadSubKeyNames key (-1) with
      | Err e0 => (nil_slice, Some ("failed to read subkey names: " +:+ e0))
      | Ok names => (append nil_slice (omap (kept key) names), None)
      end
  end.

(** The line [scanAllPrograms] prints after scanning a root: a warning
    with the error, or the number of programs found. *)
Definition rootReport (bits : string) (o : Slice Program * option error)
    : string :=
  match snd o with
  | Some e => "Warning: Could not scan " +:+ bits +:+ " programs: " +:+ e +:+ nl
  | None =>
      "Found " +:+ itoa (slice_len (fst o)) +:+ " " +:+ bits +:+ " programs" +:+ nl
  end.

(** Opening or listing the root at [path] fails, and [e] is the error
    [scanRegistryLocation] makes of it. *)
Definition RootFails (path : string) (e : error) : Prop :=
  (exists e0,
     OpenKey LOCAL_MACHINE path (Z.lor ENUMERATE_SUB_KEYS QUERY_VALUE) = Err e0
     /\ e = "failed to open registry key: " +:+ e0)
  \/ (exists key e0,
        OpenKey LOCAL_MACHINE path (Z.lor ENUMERATE_SUB_KEYS QUERY_VALUE) = Ok key
        /\ ReadSubKeyNames key (-1) = Err e0
        /\ e = "failed to read subkey names: " +:+ e0).

(** The subkey [name] of [key] has a display name that can be read and is
    not empty once trimmed. *)
Definition HasName (key : Key) (name : string) : Prop :=
  exists subkey v,
    OpenKey key name QUERY_VALUE = Ok subkey
    /\ GetStringValue subkey "DisplayName" = Ok v
    /\ Strings.TrimSpace v <> EmptyString.

(** An optional field of the record: empty when the value cannot be read,
    trimmed otherwise. *)
Definition optionalField (subkey : Key) (field : string) : string :=
  match GetStringValue subkey field with
  | Ok v => Strings.TrimSpace v
  | Err _ => EmptyString
  end.

End Roots.

(** The store [R] with the key at [path] replaced by one that opens and
    has no subkeys. *)
Inductive EKey (K : Type) : Type :=
| EHKLM
| EFresh
| EOld (k : K).
Arguments EHKLM {K}.
Arguments EFresh {K}.
Arguments EOld {K} k.

Definition lift {K} (r : result K) : result (EKey K) :=
  match r with Ok k => Ok (EOld k) | Err e => Err e end.

Definition withEmptyRoot (R : API) (path : string) : API :=
  {| Key := EKey (@Key R);
     LOCAL_MACHINE := EHKLM;
     OpenKey := fun k p a =>
       match k with
       | EHKLM =>
           if String.eqb p path then Ok EFresh
           else lift (@OpenKey R (@LOCAL_MACHINE R) p a)
       | EOld k => lift (@OpenKey R k p a)
       | EFresh => Err Fake.not_found
       end;
     ReadSubKeyNames := fun k n =>
       match k with
       | EHKLM => @ReadSubKeyNames R (@LOCAL_MACHINE R) n
       | EOld k => @ReadSubKeyNames R k n
       | EFresh => Ok []
       end;
     GetStringValue := fun k f =>
       match k with
       | EHKLM => @GetStringValue R (@LOCAL_MACHINE R) f
       | EOld k => @GetStringValue R k f
       | EFresh => Err Fake.not_found
       end |}.

(** The block of one program in the console listing and in the text
    report: its 1-based index and name, the version in parentheses when
    there is one, the path on a line of its own when there is one, and an
    empty line. *)
Definition block (i : Z) (p : Program) : string :=
  itoa (i + 1) +:+ ". " +:+ Name p
  +:+ (if is_empty (Version p) then EmptyString
       else " (v" +:+ Version p +:+ ")")
  +:+ nl
  +:+ (if is_empty (Path p) then EmptyString
       else "   Path: " +:+ Path p +:+ nl)
  +:+ nl.

Fixpoint blocks (i : Z) (programs : list Program) : string :=
  match programs with
  | [] => EmptyString
  | p :: rest => block i p +:+ blocks (i + 1) rest
  end.

(** The header of the text report. *)
Definition reportHeader (count : Z) : string :=
  "WinClone - Installed Programs List" +:+ nl
  +:+ "Generated on: 2025-01-14" +:+ nl
  +:+ "Total programs found: " +:+ itoa count +:+ nl
  +:+ "==================================================" +:+ nl
  +:+ nl.

Definition textReport (programs : list Program) : string :=
  reportHeader (Z.of_nat (length programs)) +:+ blocks 0 programs.

(** The banner of the console listing. *)
Definition consoleBanner (count : Z) : string :=
  nl +:+ "==================================================" +:+ nl
  +:+ "SCAN COMPLETE!" +:+ nl
  +:+ "Found " +:+ itoa count +:+ " installed programs:" +:+ nl
  +:+ "==================================================" +:+ nl
  +:+ nl.

(** A command that only adds [out] at the end of the open file [f], and
    returns [a]. *)
Definition Writes {A} (c : IO A) (a : A) (f : File) (out : string) : Prop :=
  forall w content,
    files w !! f = Some content ->
    c w = (a, mkWorld (stdout w) (<[f := content +:+ out]> (files w))
                (create_error w) (write_error w)).

End Spec.

(** ** Vocabulary of the proofs about UTF-8 *)
Module Runes.
Import utf8.

(** [DecodeRuneInString] read off the bytes of the string, with the rune
    given by arithmetic. *)
Definition cont (b : Z) : bool := (0x80 <=? b) && (b <=? 0xBF).

Definition second_ok (b0 b1 : Z) : bool :=
  if b0 =? 0xE0 then (0xA0 <=? b1) && (b1 <=? 0xBF)
  else if b0 =? 0xED then (0x80 <=? b1) && (b1 <=? 0x9F)
  else if b0 =? 0xF0 then (0x90 <=? b1) && (b1 <=? 0xBF)
  else if b0 =? 0xF4 then (0x80 <=? b1) && (b1 <=? 0x8F)
  else cont b1.

Definition decodeSpec (s : string) : Z * Z :=
  match s with
  | EmptyString => (RuneError, 0)
  | String c0 t0 =>
      let b0 := byte_val c0 in
      if b0 <? 0x80 then (b0, 1)
      else if (b0 <? 0xC2) || (0xF4 <? b0) then (RuneError, 1)
      else
        match t0 with
        | EmptyString => (RuneError, 1)
        | String c1 t1 =>
            let b1 := byte_val c1 in
            if negb (second_ok b0 b1) then (RuneError, 1)
            else if b0 <? 0xE0 then ((b0 - 0xC0) * 64 + (b1 - 0x80), 2)
            else
              match t1 with
              | EmptyString => (RuneError, 1)
              | String c2 t2 =>
                  let b2 := byte_val c2 in
                  if negb (cont b2) then (RuneError, 1)
                  else if b0 <? 0xF0 then
                    ((b0 - 0xE0) * 4096 + (b1 - 0x80) * 64 + (b2 - 0x80), 3)
                  else
                    match t2 with
                    | EmptyString => (RuneError, 1)
                    | String c3 t3 =>
                        let b3 := byte_val c3 in
                        if negb (cont b3) then (RuneError, 1)
                        else
                          ((b0 - 0xF0) * 262144 + (b1 - 0x80) * 4096
                           + (b2 - 0x80) * 64 + (b3 - 0x80), 4)
                    end
              end
        end
  end.

Fixpoint allHigh (u : string) : bool :=
  match u with
  | EmptyString => true
  | String c u' => (0x80 <=? byte_val c) && allHigh u'
  end.

Record MultiRune (u : string) (r : Z) : Prop := mkMultiRune {
  mr_len : 2 <= len u <= 4;
  mr_high : allHigh u = true;
  mr_decode : forall t, DecodeRuneInString (u +:+ t) = (r, len u);
  mr_encode : EncodeRune r = u
}.

Inductive Segs (strict : bool) : string -> Prop :=
| Segs_nil : Segs strict EmptyString
| Segs_ascii c t :
    byte_val c < 0x80 -> Segs strict t -> Segs strict (String c t)
| Segs_bad c t :
    strict = false -> 0x80 <= byte_val c ->
    DecodeRuneInString (String c t) = (RuneError, 1) ->
    Segs strict t -> Segs strict (String c t)
| Segs_multi u r t :
    MultiRune u r -> Segs strict t -> Segs strict (u +:+ t).

End Runes.

(** ** The layout of the JSON document *)
Module Layout.
Import utf8 json cmd.

(** What [appendString] writes for one ASCII byte, and for one valid
    multi-byte rune. *)
Definition chunk (c : ascii) : string :=
  if htmlSafeSet (byte_val c) then String c EmptyString
  else escapeByte (byte_val c).

Definition escapedRune (u : string) (r : Z) : string :=
  if (r =? 0x2028) || (r =? 0x2029) then
    "\u202" +:+ hexDigit (Z.land r 0xF)
  else u.

(** [quiet esc s]: read inside a string literal (after a backslash when
    [esc] holds), the bytes of [s] neither close the literal nor leave a
    backslash pending. *)
Fixpoint quiet (esc : bool) (s : string) : bool :=
  match s with
  | EmptyString => negb esc
  | String c t =>
      if esc then quiet false t
      else if byte_val c =? 0x22 then false
      else if byte_val c =? 0x5C then quiet true t
      else quiet false t
  end.

(** The indented form of a program: one member per line, four spaces in. *)
Definition prettyProgram (p : Program) : string :=
  "{" +:+ nl
  +:+ "    " +:+ appendString "Name" +:+ ": " +:+ appendString (Name p)
  +:+ "," +:+ nl
  +:+ "    " +:+ appendString "Version" +:+ ": " +:+ appendString (Version p)
  +:+ "," +:+ nl
  +:+ "    " +:+ appendString "Path" +:+ ": " +:+ appendString (Path p)
  +:+ nl +:+ "  }".

(** The indented form of the programs after the first: each after a comma
    and a line break, two spaces in. *)
Fixpoint prettyMore (l : list Program) : string :=
  match l with
  | [] => EmptyString
  | p :: l' => "," +:+ nl +:+ "  " +:+ prettyProgram p +:+ prettyMore l'
  end.

(** The document the encoder writes for a slice of programs. *)
Definition prettyDocument (programs : Slice Program) : string :=
  match programs with
  | nil_slice => "null" +:+ nl
  | mk_slice [] => "[]" +:+ nl
  | mk_slice (p :: l) =>
      "[" +:+ nl +:+ "  " +:+ prettyProgram p +:+ prettyMore l
      +:+ nl +:+ "]" +:+ nl
  end.

Fixpoint marshalMore (l : list Struct) : string :=
  match l with
  | [] => EmptyString
  | v :: l' => "," +:+ marshalStruct v +:+ marshalMore l'
  end.

(** The members of a program in compact form, up to the closing brace. *)
Definition members (p : Program) : string :=
  appendString "Name" +:+ ":" +:+ appendString (Name p) +:+ ","
  +:+ appendString "Version" +:+ ":" +:+ appendString (Version p) +:+ ","
  +:+ appendString "Path" +:+ ":" +:+ appendString (Path p) +:+ "}".

End Layout.

(** ** Reading the JSON document back *)
Module Reader.
Import utf8 json cmd.

(** The reading side of the round trip: [json.Unmarshal] into a
    [[]Program].  A member is stored in the field whose name matches its
    key without regard to case, the last of several such members wins,
    and any other member is ignored.  Matching a key that has bytes
    outside ASCII is outside the model. *)
Definition setField (p : Program) (kv : string * string) : option Program :=
  let '(k, v) := kv in
  if negb (Strings.isASCII k) then None
  else
    let k := Strings.lowerASCII k in
    if String.eqb k "name" then Some (mkProgram v (Version p) (Path p))
    else if String.eqb k "version" then Some (mkProgram (Name p) v (Path p))
    else if String.eqb k "path" then Some (mkProgram (Name p) (Version p) v)
    else Some p.

Definition fromStruct (v : Struct) : option Program :=
  fold_left (fun acc kv => match acc with Some p => setField p kv | None => None end)
            v (Some zeroProgram).

Fixpoint fromStructs (l : list Struct) : option (list Program) :=
  match l with
  | [] => Some []
  | v :: l' =>
      match fromStruct v, fromStructs l' with
      | Some p, Some ps => Some (p :: ps)
      | _, _ => None
      end
  end.

Definition readPrograms (doc : string) : option (Slice Program) :=
  match Unmarshal doc with
  | None => None
  | Some nil_slice => Some nil_slice
  | Some (mk_slice l) =>
      match fromStructs l with
      | Some programs => Some (mk_slice programs)
      | None => None
      end
  end.

Definition validProgram (p : Program) : bool :=
  ValidString (Name p) && ValidString (Version p) && ValidString (Path p).

End Reader.

(** ** What the command prints and writes *)
Module Transcript.
Import registry cmd Spec.

(** The progress line of [scanRegistryLocation] at index [i]. *)
Definition progressLine (i total : Z) : string :=
  "  Processed " +:+ itoa i +:+ "/" +:+ itoa total +:+ " programs..." +:+ nl.

(** The progress lines at the indices [50], [100], ..., [50 * k]. *)
Fixpoint progressUpTo (k : nat) (total : Z) : string :=
  match k with
  | O => EmptyString
  | S k' => progressUpTo k' total +:+ progressLine (50 * Z.of_nat k) total
  end.

(** The progress lines of a root with [total] subkeys: one for every
    positive multiple of 50 below [total]. *)
Definition progressLines (total : Z) : string :=
  progressUpTo (Z.to_nat ((total - 1) / 50)) total.

Section Roots.
Context {R : API}.

(** What [scanRegistryLocation] prints for the root at [path]. *)
Definition rootTranscript (path : string) : string :=
  "  Opening registry key: " +:+ path +:+ nl
  +:+ match OpenKey LOCAL_MACHINE path (Z.lor ENUMERATE_SUB_KEYS QUERY_VALUE) with
      | Err _ => EmptyString
      | Ok key =>
          "  Reading subkey names..." +:+ nl
          +:+ match ReadSubKeyNames key (-1) with
              | Err _ => EmptyString
              | Ok names =>
                  "  Found " +:+ itoa (Z.of_nat (length names))
                  +:+ " subkeys to process" +:+ nl
                  +:+ progressLines (Z.of_nat (length names))
              end
      end.

(** What [scanAllPrograms] prints. *)
Definition scanTranscript : string :=
  "Step 1: Scanning 64-bit programs..." +:+ nl
  +:+ "Location: " +:+ root64 +:+ nl
  +:+ rootTranscript root64
  +:+ rootReport "64-bit" (rootOutcome root64)
  +:+ nl +:+ "Step 2: Scanning 32-bit programs..." +:+ nl
  +:+ "Location: " +:+ root32 +:+ nl
  +:+ rootTranscript root32
  +:+ rootReport "32-bit" (rootOutcome root32).

(** The programs [scanAllPrograms] returns. *)
Definition scanned : Slice Program :=
  append (append nil_slice (rootRecords root64)) (rootRecords root32).

(** What [scanCmd.Run] prints once the scan is over, in a world where the
    host answers [created] to the creation of the output file and
    [written] to the write of the JSON document. *)
Definition outcomeLines (lower : string -> string) (outputFile : string)
    (created : option error) (written : option (nat * error)) : string :=
  if is_empty outputFile then
    consoleBanner (slice_len scanned) +:+ blocks 0 (elems scanned)
  else if Strings.HasSuffix (lower outputFile) ".json" then
    match created, written with
    | Some e, _ => "Error saving to JSON: failed to create file: " +:+ e +:+ nl
    | None, Some (_, e) =>
        "Error saving to JSON: failed to encode JSON: " +:+ e +:+ nl
    | None, None => nl +:+ "Results saved to JSON: " +:+ outputFile +:+ nl
    end
  else
    match created with
    | Some e => "Error saving to text: failed to create file: " +:+ e +:+ nl
    | None => nl +:+ "Results saved to text: " +:+ outputFile +:+ nl
    end.

(** The files [scanCmd.Run] leaves, from the files [fs] it finds. *)
Definition filesAfter (lower : string -> string) (outputFile : string)
    (created : option error) (written : option (nat * error))
    (fs : gmap string string) : gmap string string :=
  if is_empty outputFile then fs
  else
    match created with
    | Some _ => fs
    | None =>
        <[outputFile :=
            if Strings.HasSuffix (lower outputFile) ".json"
            then match written with
                 | None => json.Encode (toStructs scanned)
                 | Some (n, _) => stake n (json.Encode (toStructs scanned))
                 end
            else textReport (elems scanned)]> fs
    end.

(** The opening lines of [scanCmd.Run]. *)
Definition runHeader : string :=
  "WinClone - Scanning installed programs..." +:+ nl
  +:+ "==========================================" +:+ nl.

End Roots.
End Transcript.

(** ** Stores that look alike *)
Module Observed.

(** The three values [getProgramFromSubkey] asks for. *)
Definition queried (field : string) : Prop :=
  field = "DisplayName" \/ field = "DisplayVersion" \/ field = "InstallLocation".

(** A store that answers as [Fake.api store] does, and has in every key a
    further value [Publisher]. *)
Definition withPublisher (store : Fake.Store) : registry.API :=
  {| registry.Key := Fake.Handle;
     registry.LOCAL_MACHINE := Fake.HKLM;
     registry.OpenKey := Fake.open store;
     registry.ReadSubKeyNames := Fake.list_names store;
     registry.GetStringValue := fun k field =>
       if String.eqb field "Publisher" then Ok "ACME" else Fake.read k field |}.

End Observed.

(** ** Repairing invalid UTF-8 *)
Module Repair.
Import utf8 cmd.

(** [repair s]: [s] with every byte that belongs to no valid encoding
    replaced by the encoding of [RuneError]; the valid encodings are kept.
    [skip] counts the bytes still to copy of the encoding being crossed. *)
Fixpoint repairFrom (skip : nat) (s : string) : string :=
  match s with
  | EmptyString => EmptyString
  | String c rest =>
      match skip with
      | S k => String c (repairFrom k rest)
      | O =>
          let '(r, size) := DecodeRuneInString s in
          if (r =? RuneError) && (size =? 1) then
            EncodeRune RuneError +:+ repairFrom 0 rest
          else String c (repairFrom (Z.to_nat (size - 1)) rest)
      end
  end.

Definition repair (s : string) : string := repairFrom 0 s.

Definition repairProgram (p : Program) : Program :=
  mkProgram (repair (Name p)) (repair (Version p)) (repair (Path p)).

Definition repairAll (programs : Slice Program) : Slice Program :=
  match programs with
  | nil_slice => nil_slice
  | mk_slice l => mk_slice (map repairProgram l)
  end.

(** [occurs b s]: the byte [b] occurs in [s]. *)
Fixpoint occurs (b : Z) (s : string) : bool :=
  match s with
  | EmptyString => false
  | String c t => (byte_val c =? b) || occurs b t
  end.

(** The bytes the encoder never writes as they are: [&], [<], [>] and the
    bytes below 0x20; of these the line feed alone is in the document,
    written by the indentation only.  (The byte 0x7F and the bytes from
    0x80 on are written as they are.) *)
Definition markup (b : Z) : bool :=
  (b =? 0x26) || (b =? 0x3C) || (b =? 0x3E) || ((b <? 0x20) && negb (b =? 0x0A)).

Fixpoint plain (s : string) : bool :=
  match s with
  | EmptyString => true
  | String c t => negb (markup (byte_val c)) && plain t
  end.

End Repair.

(** ** White space at the ends of a string *)
Module Blank.
Import utf8.

(** [blank s]: every rune of [s], read from the left, is white space (a
    byte that belongs to no valid encoding reads as [RuneError], which is
    not).  [skip] counts the bytes still to pass of the rune being
    crossed. *)
Fixpoint blankFrom (skip : nat) (s : string) : bool :=
  match s with
  | EmptyString => true
  | String _ rest =>
      match skip with
      | S k => blankFrom k rest
      | O =>
          let '(r, size) := DecodeRuneInString s in
          unicode.IsSpace r && blankFrom (Z.to_nat (size - 1)) rest
      end
  end.

Definition blank (s : string) : bool := blankFrom 0 s.

(** [Spaces s]: [s] is a sequence of encodings of white space. *)
Inductive Spaces : string -> Prop :=
| Spaces_nil : Spaces EmptyString
| Spaces_ascii c t :
    byte_val c < 0x80 -> unicode.IsSpace (byte_val c) = true ->
    Spaces t -> Spaces (String c t)
| Spaces_multi u r t :
    Runes.MultiRune u r -> unicode.IsSpace r = true ->
    Spaces t -> Spaces (u +:+ t).

(** [Padded v x]: [v] is [x] with white space before and after it. *)
Definition Padded (v x : string) : Prop :=
  exists pre post,
    v = pre +:+ x +:+ post /\ blank pre = true /\ blank post = true.

(** [Trimmed x]: [x] neither starts nor ends with white space, and
    [TrimSpace] leaves it as it is. *)
Definition Trimmed (x : string) : Prop :=
  unicode.IsSpace (fst (DecodeRuneInString x)) = false
  /\ unicode.IsSpace (fst (DecodeLastRuneInString x)) = false
  /\ Strings.TrimSpace x = x.

End Blank.

(** ** The keys the scan holds open *)
Module Handles.
Import registry cmd.

(** What happens to a key: it is opened, it is closed. *)
Inductive Event (K : Type) : Type :=
| Opened (k : K)
| Closed (k : K).
Arguments Opened {K} k.
Arguments Closed {K} k.

(** [Nested d log]: in [log] every key that is opened is closed, the key
    opened last is closed first, and no more than [d] keys are open at any
    time. *)
Inductive Nested {K : Type} : nat -> list (Event K) -> Prop :=
| Nested_nil d : Nested d []
| Nested_app d a b : Nested d a -> Nested d b -> Nested d (a ++ b)
| Nested_key d k a : Nested d a -> Nested (S d) (Opened k :: a ++ [Closed k]).

Section Keys.
Context {R : API}.

Definition Log : Type := list (Event Key).

(** [defer k.Close()]: the key is closed when [body], the rest of the
    function, returns, whatever it returns. *)
Definition deferClose {A} (k : Key) (body : A * Log) : A * Log :=
  let '(a, log) := body in (a, log ++ [Closed k]).

(** [getProgramFromSubkey], with the keys it opens and closes. *)
Definition getProgramFromSubkey (parentKey : Key) (subkeyName : string)
    : (Program * option error) * Log :=
  let program := zeroProgram in
  match OpenKey parentKey subkeyName QUERY_VALUE with
  | Err err => ((program, Some err), [])
  | Ok subkey =>
      let '(r, log) :=
        deferClose subkey
          (match GetStringValue subkey "DisplayName" with
           | Err err => ((program, Some err), [])
           | Ok name =>
               let program :=
                 mkProgram (Strings.TrimSpace name) (Version program)
                   (Path program) in
               let program :=
                 match GetStringValue subkey "DisplayVersion" with
                 | Ok version =>
                     mkProgram (Name program) (Strings.TrimSpace version)
                       (Path program)
                 | Err _ => program
                 end in
               let program :=
                 match GetStringValue subkey "InstallLocation" with
                 | Ok path =>
                     mkProgram (Name program) (Version program)
                       (Strings.TrimSpace path)
                 | Err _ => program
                 end in
               ((program, None), [])
           end) in
      (r, Opened subkey :: log)
  end.

(** The loop of [scanRegistryLocation], with the log so far. *)
Fixpoint scanSubkeys (key : Key) (total : Z) (names : list string) (i : Z)
    (programs : Slice Program) (log : Log) : IO (Slice Program * Log) :=
  match names with
  | [] => ret (programs, log)
  | subkeyName :: rest =>
      (if (Z.rem i 50 =? 0) && (0 <? i) then
         Print ("  Processed " +:+ itoa i +:+ "/" +:+ itoa total
                +:+ " programs..." +:+ nl)
       else ret tt) ;;;
      let '((program, err), events) := getProgramFromSubkey key subkeyName in
      match err with
      | Some _ => scanSubkeys key total rest (i + 1) programs (log ++ events)
      | None =>
          if negb (is_empty (Name program)) then
            scanSubkeys key total rest (i + 1) (append programs [program])
              (log ++ events)
          else scanSubkeys key total rest (i + 1) programs (log ++ events)
      end
  end.

(** [scanRegistryLocation], with the keys it opens and closes. *)
Definition scanRegistryLocation (keyPath : string)
    : IO ((Slice Program * option error) * Log) :=
  let programs := nil_slice in
  Print ("  Opening registry key: " +:+ keyPath +:+ nl) ;;;
  match OpenKey LOCAL_MACHINE keyPath
          (Z.lor ENUMERATE_SUB_KEYS QUERY_VALUE) with
  | Err err =>
      ret ((nil_slice, Some ("failed to open registry key: " +:+ err)), [])
  | Ok key =>
      let! body :=
        (Print ("  Reading subkey names..." +:+ nl) ;;;
         match ReadSubKeyNames key (-1) with
         | Err err =>
             ret ((nil_slice, Some ("failed to read subkey names: " +:+ err)),
                  [])
         | Ok subkeyNames =>
             let total := Z.of_nat (length subkeyNames) in
             Print ("  Found " +:+ itoa total +:+ " subkeys to process" +:+ nl) ;;;
             let! r := scanSubkeys key total subkeyNames 0 programs [] in
             ret ((fst r, None), snd r)
         end) in
      let '(r, log) := deferClose key body in
      ret (r, Opened key :: log)
  end.

(** [scanAllPrograms], with the keys it opens and closes. *)
Definition scanAllPrograms : IO ((Slice Program * option error) * Log) :=
  let allPrograms := nil_slice in
  Println "Step 1: Scanning 64-bit programs..." ;;;
  Println "Location: SOFTWARE\Microsoft\Windows\CurrentVersion\Uninstall" ;;;
  let! r64 := scanRegistryLocation root64 in
  let '((programs64, err), log64) := r64 in
  let! allPrograms :=
    match err with
    | Some err =>
        Print ("Warning: Could not scan 64-bit programs: " +:+ err +:+ nl) ;;;
        ret allPrograms
    | None =>
        Print ("Found " +:+ itoa (slice_len programs64)
               +:+ " 64-bit programs" +:+ nl) ;;;
        ret (append allPrograms (elems programs64))
    end in
  Println (nl +:+ "Step 2: Scanning 32-bit programs...") ;;;
  Println
    "Location: SOFTWARE\WOW6432Node\Microsoft\Windows\CurrentVersion\Uninstall" ;;;
  let! r32 := scanRegistryLocation root32 in
  let '((programs32, err), log32) := r32 in
  let! allPrograms :=
    match err with
    | Some err =>
        Print ("Warning: Could not scan 32-bit programs: " +:+ err +:+ nl) ;;;
        ret allPrograms
    | None =>
        Print ("Found " +:+ itoa (slice_len programs32)
               +:+ " 32-bit programs" +:+ nl) ;;;
        ret (append allPrograms (elems programs32))
    end in
  ret ((allPrograms, None), log64 ++ log32).

(** The log of the scan of one root. *)
Definition rootLog (path : string) : Log :=
  match OpenKey LOCAL_MACHINE path (Z.lor ENUMERATE_SUB_KEYS QUERY_VALUE) with
  | Err _ => []
  | Ok key =>
      Opened key
      :: match ReadSubKeyNames key (-1) with
         | Err _ => []
         | Ok names => flat_map (fun n => snd (getProgramFromSubkey key n)) names
         end
         ++ [Closed key]
  end.

End Keys.
End Handles.

(** * Properties *)

Import registry cmd Spec utf8 json Runes Layout Reader.

(** ** Strings and worlds *)

Lemma append_nil_r (s : string) : s +:+ EmptyString = s.
Proof. induction s as [|c s IH]; simpl; [done | by rewrite IH]. Qed.

Lemma append_assoc (a b c : string) : (a +:+ b) +:+ c = a +:+ (b +:+ c).
Proof. induction a as [|x a IH]; simpl; [done | by rewrite IH]. Qed.

Lemma is_empty_true (s : string) : is_empty s = true <-> s = EmptyString.
Proof. destruct s; simpl; split; congruence. Qed.

Lemma is_empty_false (s : string) : is_empty s = false <-> s <> EmptyString.
Proof. destruct s; simpl; split; congruence. Qed.

Lemma say_nil (w : World) : say w EmptyString = w.
Proof. destruct w; unfold say; simpl. by rewrite append_nil_r. Qed.

Lemma say_say (w : World) (a b : string) : say (say w a) b = say w (a +:+ b).
Proof. unfold say; simpl. by rewrite append_assoc. Qed.

Lemma Prints_ret {A} (a : A) : Prints (ret a) a EmptyString.
Proof. intros w. unfold ret. by rewrite say_nil. Qed.

Lemma Prints_Print (s : string) : Prints (Print s) tt s.
Proof. by intros w. Qed.

Lemma Prints_bind {A B} (c : IO A) (k : A -> IO B) a o1 b o2 :
  Prints c a o1 -> Prints (k a) b o2 -> Prints (bind c k) b (o1 +:+ o2).
Proof.
  intros Hc Hk w. unfold bind. rewrite Hc, Hk. by rewrite say_say.
Qed.

Lemma Prints_then_ret {A} (s : string) (a : A) :
  Prints (Print s ;;; ret a) a s.
Proof.
  rewrite <- (append_nil_r s) at 2.
  eapply Prints_bind; [apply Prints_Print | apply Prints_ret].
Qed.

(** ** UTF-8

    [DecodeRuneInString] is brought to an arithmetic form, [EncodeRune] is
    shown to undo it on every valid encoding, and every string is split
    into ASCII bytes, bytes that start no valid encoding, and valid
    multi-byte encodings. *)

Lemma lor_disjoint (a b n : Z) :
  0 <= n -> 0 <= b < 2 ^ n -> Z.lor (a * 2 ^ n) b = a * 2 ^ n + b.
Proof.
  intros Hn Hb.
  assert (Z.land (a * 2 ^ n) b = 0) as Hland.
  { apply Z.bits_inj'. intros i Hi. rewrite Z.land_spec, Z.bits_0.
    destruct (Z.lt_ge_cases i n) as [Hlt|Hge].
    - rewrite <- Z.shiftl_mul_pow2 by lia. rewrite Z.shiftl_spec_low by lia. done.
    - assert (Z.testbit b i = false) as ->; [|apply andb_false_r].
      destruct (Z.eq_dec b 0) as [->|Hnz]; [apply Z.bits_0 |].
      apply Z.bits_above_log2; [lia |].
      apply Z.log2_lt_pow2; [lia |].
      apply Z.lt_le_trans with (2 ^ n); [lia |].
      apply Z.pow_le_mono_r; lia. }
  pose proof (Z.add_lor_land (a * 2 ^ n) b). lia.
Qed.

Lemma byte_val_range (c : ascii) : 0 <= byte_val c < 256.
Proof.
  unfold byte_val. pose proof (N_ascii_bounded c). lia.
Qed.

Lemma byte_of_val (c : ascii) : byte_of (byte_val c) = c.
Proof.
  unfold byte_of. change 255 with (Z.ones 8).
  rewrite Z.land_ones by lia.
  rewrite Z.mod_small by (change (2 ^ 8) with 256; apply byte_val_range).
  unfold byte_val. rewrite N2Z.id. apply ascii_N_embedding.
Qed.

(** The rows of the table [first]. *)
Lemma first_cases (b : Z) :
  0 <= b < 256 ->
  (b < 0x80 /\ first b = as_)
  \/ ((0x80 <= b < 0xC2 \/ 0xF5 <= b) /\ first b = xx)
  \/ (0xC2 <= b < 0xE0 /\ first b = s1)
  \/ (b = 0xE0 /\ first b = s2)
  \/ ((0xE1 <= b < 0xED \/ 0xEE <= b < 0xF0) /\ first b = s3)
  \/ (b = 0xED /\ first b = s4)
  \/ (b = 0xF0 /\ first b = s5)
  \/ (0xF1 <= b < 0xF4 /\ first b = s6)
  \/ (b = 0xF4 /\ first b = s7).
Proof.
  intros Hb. unfold first.
  repeat match goal with
         | |- context [if ?x <? ?y then _ else _] => destruct (Z.ltb_spec x y)
         | |- context [if ?x =? ?y then _ else _] => destruct (Z.eqb_spec x y)
         end; lia.
Qed.

(** Masks, shifts and the powers of two they stand for. *)
Ltac bits_to_arith :=
  unfold maskx, mask2, mask3, mask4, locb, hicb in *;
  change 0x3F with (Z.ones 6); change 0x1F with (Z.ones 5);
  change 0x0F with (Z.ones 4); change 0x07 with (Z.ones 3);
  rewrite ?Z.land_ones by lia;
  rewrite ?Z.shiftl_mul_pow2 by lia;
  rewrite ?Z.shiftr_div_pow2 by lia;
  change (2 ^ 3) with 8; change (2 ^ 4) with 16; change (2 ^ 5) with 32;
  change (2 ^ 6) with 64; change (2 ^ 12) with 4096;
  change (2 ^ 18) with 262144.

Lemma rune2_arith (b0 b1 : Z) :
  Z.lor (Z.shiftl (Z.land b0 mask2) 6) (Z.land b1 maskx)
  = (b0 mod 32) * 64 + b1 mod 64.
Proof.
  bits_to_arith. change 64 with (2 ^ 6) at 1.
  rewrite lor_disjoint; [done | lia |].
  change (2 ^ 6) with 64. apply Z.mod_pos_bound. lia.
Qed.

Lemma rune3_arith (b0 b1 b2 : Z) :
  Z.lor (Z.lor (Z.shiftl (Z.land b0 mask3) 12) (Z.shiftl (Z.land b1 maskx) 6))
        (Z.land b2 maskx)
  = (b0 mod 16) * 4096 + (b1 mod 64) * 64 + b2 mod 64.
Proof.
  bits_to_arith.
  pose proof (Z.mod_pos_bound b1 64 ltac:(lia)).
  pose proof (Z.mod_pos_bound b2 64 ltac:(lia)).
  change 4096 with (2 ^ 12) at 1.
  rewrite lor_disjoint by (change (2 ^ 12) with 4096; lia).
  change (2 ^ 12) with 4096.
  replace (b0 mod 16 * 4096 + b1 mod 64 * 64)
    with ((b0 mod 16 * 64 + b1 mod 64) * 2 ^ 6) by (change (2 ^ 6) with 64; lia).
  rewrite lor_disjoint by (change (2 ^ 6) with 64; lia).
  change (2 ^ 6) with 64. lia.
Qed.

Lemma rune4_arith (b0 b1 b2 b3 : Z) :
  Z.lor (Z.lor (Z.lor (Z.shiftl (Z.land b0 mask4) 18)
                      (Z.shiftl (Z.land b1 maskx) 12))
               (Z.shiftl (Z.land b2 maskx) 6))
        (Z.land b3 maskx)
  = (b0 mod 8) * 262144 + (b1 mod 64) * 4096 + (b2 mod 64) * 64 + b3 mod 64.
Proof.
  bits_to_arith.
  pose proof (Z.mod_pos_bound b1 64 ltac:(lia)).
  pose proof (Z.mod_pos_bound b2 64 ltac:(lia)).
  pose proof (Z.mod_pos_bound b3 64 ltac:(lia)).
  change 262144 with (2 ^ 18) at 1.
  rewrite lor_disjoint by (change (2 ^ 18) with 262144; lia).
  change (2 ^ 18) with 262144.
  replace (b0 mod 8 * 262144 + b1 mod 64 * 4096)
    with ((b0 mod 8 * 64 + b1 mod 64) * 2 ^ 12)
    by (change (2 ^ 12) with 4096; lia).
  rewrite lor_disjoint by (change (2 ^ 12) with 4096; lia).
  change (2 ^ 12) with 4096.
  replace ((b0 mod 8 * 64 + b1 mod 64) * 4096 + b2 mod 64 * 64)
    with (((b0 mod 8 * 64 + b1 mod 64) * 64 + b2 mod 64) * 2 ^ 6)
    by (change (2 ^ 6) with 64; lia).
  rewrite lor_disjoint by (change (2 ^ 6) with 64; lia).
  change (2 ^ 6) with 64. lia.
Qed.

Lemma len_String (c : ascii) (s : string) : len (String c s) = 1 + len s.
Proof. unfold len. cbn [String.length]. lia. Qed.

Lemma len_nonneg (s : string) : 0 <= len s.
Proof. unfold len. lia. Qed.

Lemma at_0 (c : ascii) (s : string) : at_ (String c s) 0 = byte_val c.
Proof. reflexivity. Qed.

Lemma at_1 (c0 c1 : ascii) (s : string) :
  at_ (String c0 (String c1 s)) 1 = byte_val c1.
Proof. reflexivity. Qed.

Lemma at_2 (c0 c1 c2 : ascii) (s : string) :
  at_ (String c0 (String c1 (String c2 s))) 2 = byte_val c2.
Proof. reflexivity. Qed.

Lemma at_3 (c0 c1 c2 c3 : ascii) (s : string) :
  at_ (String c0 (String c1 (String c2 (String c3 s)))) 3 = byte_val c3.
Proof. reflexivity. Qed.

Lemma len_empty : len EmptyString = 0.
Proof. reflexivity. Qed.

Ltac prune := try (exfalso; lia).

Ltac split_if :=
  match goal with
  | |- context [if ?x <? ?y then _ else _] => destruct (Z.ltb_spec x y)
  | |- context [if ?x <=? ?y then _ else _] => destruct (Z.leb_spec x y)
  | |- context [if ?x =? ?y then _ else _] => destruct (Z.eqb_spec x y)
  | |- context [(?x <? ?y) || _] => destruct (Z.ltb_spec x y); cbn [orb andb negb]
  | |- context [(?x <=? ?y) && _] => destruct (Z.leb_spec x y); cbn [orb andb negb]
  | |- context [_ || (?x <? ?y)] => destruct (Z.ltb_spec x y); cbn [orb andb negb]
  | |- context [_ && (?x <=? ?y)] => destruct (Z.leb_spec x y); cbn [orb andb negb]
  | |- context [negb (?x <=? ?y)] => destruct (Z.leb_spec x y); cbn [orb andb negb]
  end.

Ltac split_ifs := repeat (split_if; prune; try reflexivity).

Lemma first_info (x : Z) :
  x = s1 \/ x = s2 \/ x = s3 \/ x = s4 \/ x = s5 \/ x = s6 \/ x = s7 ->
  (as_ <=? x) = false
  /\ Z.land x 7 = (if x =? s1 then 2 else if (x =? s2) || (x =? s3) || (x =? s4) then 3 else 4)
  /\ acceptRanges (Z.shiftr x 4)
     = (if x =? s2 then (0xA0, 0xBF) else if x =? s4 then (0x80, 0x9F)
        else if x =? s5 then (0x90, 0xBF) else if x =? s7 then (0x80, 0x8F)
        else (0x80, 0xBF)).
Proof. intros [->|[->|[->|[->|[->|[->| ->]]]]]]; repeat split. Qed.

Lemma DecodeRuneInString_spec (s : string) :
  DecodeRuneInString s = decodeSpec s.
Proof.
  destruct s as [|c0 t0]; [reflexivity |].
  unfold DecodeRuneInString, decodeSpec.
  rewrite len_String. pose proof (len_nonneg t0) as Hl0.
  destruct (Z.ltb_spec (1 + len t0) 1) as [?|_]; [lia |].
  rewrite at_0.
  pose proof (byte_val_range c0) as H0.
  set (b0 := byte_val c0) in *. clearbody b0.
  destruct (first_cases b0 H0)
    as [[? E]|[[? E]|[[? E]|[[? E]|[[? E]|[[? E]|[[? E]|[[? E]|[? E]]]]]]]]].
  1: { rewrite E. change (as_ <=? as_) with true. change (Z.odd as_) with false.
       cbv iota. destruct (Z.ltb_spec b0 128); [done | lia]. }
  1: { rewrite E. change (as_ <=? xx) with true. change (Z.odd xx) with true.
       cbv iota. split_ifs. }
  all: destruct (first_info (first b0)) as (-> & -> & ->); [rewrite E; tauto |];
    rewrite E;
    cbn [s1 s2 s3 s4 s5 s6 s7 Z.eqb Pos.eqb orb fst snd];
    unfold second_ok, cont, locb, hicb;
    destruct t0 as [|c1 [|c2 [|c3 [|c4 t4]]]];
    rewrite ?len_String, ?len_empty, ?at_1, ?at_2, ?at_3;
    try pose proof (len_nonneg t4);
    try pose proof (byte_val_range c1);
    try pose proof (byte_val_range c2);
    try pose proof (byte_val_range c3).
  all: split_ifs.
  all: f_equal; rewrite ?rune2_arith, ?rune3_arith, ?rune4_arith;
    Z.div_mod_to_equations; lia.
Qed.

Lemma lor_tx (x : Z) : 0 <= x < 64 -> Z.lor tx x = 0x80 + x.
Proof. intros. change tx with (2 * 2 ^ 6). rewrite lor_disjoint; [done | lia | done]. Qed.

Lemma lor_t2 (x : Z) : 0 <= x < 32 -> Z.lor t2 x = 0xC0 + x.
Proof.
  intros. change t2 with (3 * 2 ^ 6).
  rewrite lor_disjoint; [done | lia | change (2 ^ 6) with 64; lia].
Qed.

Lemma lor_t3 (x : Z) : 0 <= x < 16 -> Z.lor t3 x = 0xE0 + x.
Proof.
  intros. change t3 with (14 * 2 ^ 4).
  rewrite lor_disjoint; [done | lia | done].
Qed.

Lemma lor_t4 (x : Z) : 0 <= x < 8 -> Z.lor t4 x = 0xF0 + x.
Proof.
  intros. change t4 with (30 * 2 ^ 3).
  rewrite lor_disjoint; [done | lia | done].
Qed.

Lemma cont_byte (c : ascii) (r : Z) :
  0x80 <= byte_val c <= 0xBF ->
  r mod 64 = byte_val c - 0x80 ->
  byte_of (Z.lor tx (Z.land r maskx)) = c.
Proof.
  intros Hc Hr. unfold maskx. change 0x3F with (Z.ones 6).
  rewrite Z.land_ones by lia. change (2 ^ 6) with 64. rewrite Hr.
  rewrite lor_tx by lia.
  replace (0x80 + (byte_val c - 0x80)) with (byte_val c) by lia.
  apply byte_of_val.
Qed.

Lemma EncodeRune_2 (c0 c1 : ascii) :
  0xC2 <= byte_val c0 < 0xE0 -> 0x80 <= byte_val c1 <= 0xBF ->
  EncodeRune ((byte_val c0 - 0xC0) * 64 + (byte_val c1 - 0x80))
  = String c0 (String c1 EmptyString).
Proof.
  intros H0 H1. unfold EncodeRune, rune1Max, rune2Max.
  set (r := (byte_val c0 - 0xC0) * 64 + (byte_val c1 - 0x80)).
  assert (0x80 <= r <= 0x7FF) as Hr by (subst r; lia).
  destruct (Z.leb_spec 0 r); [|lia]. cbn [andb].
  destruct (Z.leb_spec r 127); [lia |].
  destruct (Z.leb_spec r 2047); [|lia].
  f_equal; [|f_equal].
  - rewrite Z.shiftr_div_pow2 by lia. change (2 ^ 6) with 64.
    rewrite lor_t2 by (subst r; Z.div_mod_to_equations; lia).
    replace (0xC0 + r / 64) with (byte_val c0)
      by (subst r; Z.div_mod_to_equations; lia).
    apply byte_of_val.
  - apply cont_byte; [done |]. subst r. Z.div_mod_to_equations. lia.
Qed.

Lemma EncodeRune_3 (c0 c1 c2 : ascii) :
  0xE0 <= byte_val c0 < 0xF0 ->
  0x80 <= byte_val c1 <= 0xBF ->
  (byte_val c0 = 0xE0 -> 0xA0 <= byte_val c1) ->
  (byte_val c0 = 0xED -> byte_val c1 <= 0x9F) ->
  0x80 <= byte_val c2 <= 0xBF ->
  EncodeRune ((byte_val c0 - 0xE0) * 4096 + (byte_val c1 - 0x80) * 64
              + (byte_val c2 - 0x80))
  = String c0 (String c1 (String c2 EmptyString)).
Proof.
  intros H0 H1 HE0 HED H2.
  unfold EncodeRune, rune1Max, rune2Max, rune3Max, MaxRune, surrogateMin,
    surrogateMax, utf8.encode3.
  set (r := (byte_val c0 - 0xE0) * 4096 + (byte_val c1 - 0x80) * 64
            + (byte_val c2 - 0x80)).
  assert (0x800 <= r <= 0xFFFF /\ (r < 0xD800 \/ 0xDFFF < r)) as Hr
    by (subst r; lia).
  destruct (Z.leb_spec 0 r); [|lia]. cbn [andb].
  destruct (Z.leb_spec r 127); [lia |].
  destruct (Z.leb_spec r 2047); [lia |].
  destruct (Z.ltb_spec r 0); [lia |].
  destruct (Z.ltb_spec 1114111 r); [lia |]. cbn [orb].
  assert ((55296 <=? r) && (r <=? 57343) = false) as ->.
  { destruct (Z.leb_spec 55296 r), (Z.leb_spec r 57343); try done. lia. }
  destruct (Z.leb_spec r 65535); [|lia].
  f_equal; [|f_equal; [|f_equal]].
  - rewrite Z.shiftr_div_pow2 by lia. change (2 ^ 12) with 4096.
    rewrite lor_t3 by (subst r; Z.div_mod_to_equations; lia).
    replace (0xE0 + r / 4096) with (byte_val c0)
      by (subst r; Z.div_mod_to_equations; lia).
    apply byte_of_val.
  - apply cont_byte; [done |].
    rewrite Z.shiftr_div_pow2 by lia. change (2 ^ 6) with 64.
    subst r. Z.div_mod_to_equations. lia.
  - apply cont_byte; [done |]. subst r. Z.div_mod_to_equations. lia.
Qed.

Lemma EncodeRune_4 (c0 c1 c2 c3 : ascii) :
  0xF0 <= byte_val c0 <= 0xF4 ->
  0x80 <= byte_val c1 <= 0xBF ->
  (byte_val c0 = 0xF0 -> 0x90 <= byte_val c1) ->
  (byte_val c0 = 0xF4 -> byte_val c1 <= 0x8F) ->
  0x80 <= byte_val c2 <= 0xBF ->
  0x80 <= byte_val c3 <= 0xBF ->
  EncodeRune ((byte_val c0 - 0xF0) * 262144 + (byte_val c1 - 0x80) * 4096
              + (byte_val c2 - 0x80) * 64 + (byte_val c3 - 0x80))
  = String c0 (String c1 (String c2 (String c3 EmptyString))).
Proof.
  intros H0 H1 HF0 HF4 H2 H3.
  unfold EncodeRune, rune1Max, rune2Max, rune3Max, MaxRune, surrogateMin,
    surrogateMax.
  set (r := (byte_val c0 - 0xF0) * 262144 + (byte_val c1 - 0x80) * 4096
            + (byte_val c2 - 0x80) * 64 + (byte_val c3 - 0x80)).
  assert (0x10000 <= r <= 0x10FFFF) as Hr by (subst r; lia).
  destruct (Z.leb_spec 0 r); [|lia]. cbn [andb].
  destruct (Z.leb_spec r 127); [lia |].
  destruct (Z.leb_spec r 2047); [lia |].
  destruct (Z.ltb_spec r 0); [lia |].
  destruct (Z.ltb_spec 1114111 r); [lia |]. cbn [orb].
  assert ((55296 <=? r) && (r <=? 57343) = false) as ->.
  { destruct (Z.leb_spec 55296 r), (Z.leb_spec r 57343); try done. lia. }
  destruct (Z.leb_spec r 65535); [lia |].
  f_equal; [|f_equal; [|f_equal; [|f_equal]]].
  - rewrite Z.shiftr_div_pow2 by lia. change (2 ^ 18) with 262144.
    rewrite lor_t4 by (subst r; Z.div_mod_to_equations; lia).
    replace (0xF0 + r / 262144) with (byte_val c0)
      by (subst r; Z.div_mod_to_equations; lia).
    apply byte_of_val.
  - apply cont_byte; [done |].
    rewrite Z.shiftr_div_pow2 by lia. change (2 ^ 12) with 4096.
    subst r. Z.div_mod_to_equations. lia.
  - apply cont_byte; [done |].
    rewrite Z.shiftr_div_pow2 by lia. change (2 ^ 6) with 64.
    subst r. Z.div_mod_to_equations. lia.
  - apply cont_byte; [done |]. subst r. Z.div_mod_to_equations. lia.
Qed.

Lemma cont_range (b : Z) : cont b = true <-> 0x80 <= b <= 0xBF.
Proof. unfold cont. rewrite andb_true_iff, !Z.leb_le. done. Qed.

Lemma second_ok_range (b0 b1 : Z) :
  second_ok b0 b1 = true ->
  0x80 <= b1 <= 0xBF
  /\ (b0 = 0xE0 -> 0xA0 <= b1) /\ (b0 = 0xED -> b1 <= 0x9F)
  /\ (b0 = 0xF0 -> 0x90 <= b1) /\ (b0 = 0xF4 -> b1 <= 0x8F).
Proof.
  unfold second_ok, cont.
  repeat match goal with
         | |- context [if ?x =? ?y then _ else _] => destruct (Z.eqb_spec x y)
         end;
    rewrite andb_true_iff, !Z.leb_le; lia.
Qed.

Lemma decodeSpec_2 (c0 c1 : ascii) (t : string) :
  0xC2 <= byte_val c0 < 0xE0 -> cont (byte_val c1) = true ->
  decodeSpec (String c0 (String c1 t))
  = ((byte_val c0 - 0xC0) * 64 + (byte_val c1 - 0x80), 2).
Proof.
  intros H0 H1. unfold decodeSpec.
  assert (second_ok (byte_val c0) (byte_val c1) = true) as ->.
  { unfold second_ok.
    repeat match goal with
           | |- context [if ?x =? ?y then _ else _] =>
               destruct (Z.eqb_spec x y); [lia |]
           end. done. }
  cbn [negb]. split_ifs.
Qed.

Lemma decodeSpec_3 (c0 c1 c2 : ascii) (t : string) :
  0xE0 <= byte_val c0 < 0xF0 ->
  second_ok (byte_val c0) (byte_val c1) = true ->
  cont (byte_val c2) = true ->
  decodeSpec (String c0 (String c1 (String c2 t)))
  = ((byte_val c0 - 0xE0) * 4096 + (byte_val c1 - 0x80) * 64
     + (byte_val c2 - 0x80), 3).
Proof.
  intros H0 H1 H2. unfold decodeSpec. rewrite H1, H2. cbn [negb]. split_ifs.
Qed.

Lemma decodeSpec_4 (c0 c1 c2 c3 : ascii) (t : string) :
  0xF0 <= byte_val c0 <= 0xF4 ->
  second_ok (byte_val c0) (byte_val c1) = true ->
  cont (byte_val c2) = true ->
  cont (byte_val c3) = true ->
  decodeSpec (String c0 (String c1 (String c2 (String c3 t))))
  = ((byte_val c0 - 0xF0) * 262144 + (byte_val c1 - 0x80) * 4096
     + (byte_val c2 - 0x80) * 64 + (byte_val c3 - 0x80), 4).
Proof.
  intros H0 H1 H2 H3. unfold decodeSpec. rewrite H1, H2, H3. cbn [negb].
  split_ifs.
Qed.

Lemma MultiRune_2 (c0 c1 : ascii) :
  0xC2 <= byte_val c0 < 0xE0 -> cont (byte_val c1) = true ->
  MultiRune (String c0 (String c1 EmptyString))
    ((byte_val c0 - 0xC0) * 64 + (byte_val c1 - 0x80)).
Proof.
  intros H0 H1. pose proof (proj1 (cont_range _) H1).
  split.
  - unfold len. cbn [String.length]. lia.
  - cbn [allHigh]. rewrite !andb_true_iff, !Z.leb_le. lia.
  - intros t. rewrite DecodeRuneInString_spec. cbn [String.append].
    by rewrite decodeSpec_2.
  - by apply EncodeRune_2.
Qed.

Lemma MultiRune_3 (c0 c1 c2 : ascii) :
  0xE0 <= byte_val c0 < 0xF0 ->
  second_ok (byte_val c0) (byte_val c1) = true ->
  cont (byte_val c2) = true ->
  MultiRune (String c0 (String c1 (String c2 EmptyString)))
    ((byte_val c0 - 0xE0) * 4096 + (byte_val c1 - 0x80) * 64
     + (byte_val c2 - 0x80)).
Proof.
  intros H0 H1 H2. pose proof (proj1 (cont_range _) H2).
  destruct (second_ok_range _ _ H1) as (? & ? & ? & ? & ?).
  split.
  - unfold len. cbn [String.length]. lia.
  - cbn [allHigh]. rewrite !andb_true_iff, !Z.leb_le. lia.
  - intros t. rewrite DecodeRuneInString_spec. cbn [String.append].
    by rewrite decodeSpec_3.
  - by apply EncodeRune_3.
Qed.

Lemma MultiRune_4 (c0 c1 c2 c3 : ascii) :
  0xF0 <= byte_val c0 <= 0xF4 ->
  second_ok (byte_val c0) (byte_val c1) = true ->
  cont (byte_val c2) = true ->
  cont (byte_val c3) = true ->
  MultiRune (String c0 (String c1 (String c2 (String c3 EmptyString))))
    ((byte_val c0 - 0xF0) * 262144 + (byte_val c1 - 0x80) * 4096
     + (byte_val c2 - 0x80) * 64 + (byte_val c3 - 0x80)).
Proof.
  intros H0 H1 H2 H3.
  pose proof (proj1 (cont_range _) H2). pose proof (proj1 (cont_range _) H3).
  destruct (second_ok_range _ _ H1) as (? & ? & ? & ? & ?).
  split.
  - unfold len. cbn [String.length]. lia.
  - cbn [allHigh]. rewrite !andb_true_iff, !Z.leb_le. lia.
  - intros t. rewrite DecodeRuneInString_spec. cbn [String.append].
    by rewrite decodeSpec_4.
  - by apply EncodeRune_4.
Qed.

(** Every non-empty string starts with an ASCII byte, or with a byte that
    does not start a valid encoding, or with a valid multi-byte encoding. *)
Lemma decode_shape (c : ascii) (t : string) :
  (byte_val c < 0x80 /\ DecodeRuneInString (String c t) = (byte_val c, 1))
  \/ (0x80 <= byte_val c
      /\ DecodeRuneInString (String c t) = (RuneError, 1))
  \/ (exists u t' r,
        String c t = u +:+ t' /\ MultiRune u r
        /\ DecodeRuneInString (String c t) = (r, len u)).
Proof.
  rewrite DecodeRuneInString_spec. unfold decodeSpec.
  destruct (Z.ltb_spec (byte_val c) 0x80) as [?|H80]; [by left |].
  right.
  destruct ((byte_val c <? 0xC2) || (0xF4 <? byte_val c)) eqn:Hlead;
    [by left |].
  apply orb_false_iff in Hlead. destruct Hlead as [Hlo Hhi].
  apply Z.ltb_ge in Hlo, Hhi.
  destruct t as [|c1 t1]; [by left |].
  destruct (second_ok (byte_val c) (byte_val c1)) eqn:H1; cbn [negb];
    [|by left].
  destruct (Z.ltb_spec (byte_val c) 0xE0) as [?|HE0].
  { right. eexists (String c (String c1 EmptyString)), t1, _.
    destruct (second_ok_range _ _ H1) as (? & _).
    split; [done |]. split; [apply MultiRune_2; [lia | by apply cont_range] |].
    done. }
  destruct t1 as [|c2 t2]; [by left |].
  destruct (cont (byte_val c2)) eqn:H2; cbn [negb]; [|by left].
  destruct (Z.ltb_spec (byte_val c) 0xF0) as [?|HF0].
  { right. eexists (String c (String c1 (String c2 EmptyString))), t2, _.
    split; [done |]. split; [apply MultiRune_3; [lia | done | done] |].
    done. }
  destruct t2 as [|c3 t3]; [by left |].
  destruct (cont (byte_val c3)) eqn:H3; cbn [negb]; [|by left].
  right. eexists (String c (String c1 (String c2 (String c3 EmptyString)))), t3, _.
  split; [done |]. split; [apply MultiRune_4; [lia | done | done | done] |].
  done.
Qed.

Lemma length_append (a b : string) :
  String.length (a +:+ b) = (String.length a + String.length b)%nat.
Proof. induction a as [|c a IH]; cbn [String.append String.length]; [done | by rewrite IH]. Qed.

Lemma MultiRune_cons (u : string) (r : Z) :
  MultiRune u r ->
  exists c u', u = String c u' /\ 0x80 <= byte_val c
               /\ allHigh u' = true
               /\ Z.to_nat (len u - 1) = String.length u'
               /\ (1 <= String.length u')%nat.
Proof.
  intros [Hl Hh _ _]. destruct u as [|c u']; [unfold len in Hl; cbn in Hl; lia |].
  exists c, u'. cbn [allHigh] in Hh. apply andb_true_iff in Hh as [Hc Hh].
  apply Z.leb_le in Hc. rewrite len_String in *. unfold len in *.
  repeat split; try done; lia.
Qed.

Lemma Segs_all (s : string) : Segs false s.
Proof.
  remember (String.length s) as n eqn:Hn.
  revert s Hn. induction n as [n IH] using lt_wf_ind. intros s Hn.
  destruct s as [|c t]; [constructor |].
  destruct (decode_shape c t) as [[Hc _]|[[Hc Hd]|(u & t' & r & Hs & Hm & _)]].
  - apply Segs_ascii; [done |]. apply (IH (String.length t)); [|done].
    subst n. cbn [String.length]. lia.
  - apply Segs_bad; try done. apply (IH (String.length t)); [|done].
    subst n. cbn [String.length]. lia.
  - rewrite Hs. apply (Segs_multi _ u r); [done |].
    apply (IH (String.length t')); [|done].
    subst n. rewrite Hs, length_append.
    destruct (MultiRune_cons _ _ Hm) as (c' & u' & -> & _ & _ & _ & ?).
    cbn [String.length]. lia.
Qed.

Lemma validFrom_skip (u t : string) :
  validFrom (String.length u) (u +:+ t) = validFrom 0 t.
Proof. induction u as [|c u IH]; [done | exact IH]. Qed.

Lemma String_append_inv (c c' : ascii) (t u' t' : string) :
  String c t = String c' u' +:+ t' -> c = c' /\ t = u' +:+ t'.
Proof. cbn [String.append]. by intros [= -> ->]. Qed.

Lemma Segs_valid (s : string) : ValidString s = true -> Segs true s.
Proof.
  unfold ValidString.
  remember (String.length s) as n eqn:Hn.
  revert s Hn. induction n as [n IH] using lt_wf_ind. intros s Hn Hv.
  destruct s as [|c t]; [constructor |].
  cbn [validFrom] in Hv.
  destruct (decode_shape c t) as [[Hc Hd]|[[Hc Hd]|(u & t' & r & Hs & Hm & Hd)]].
  - rewrite Hd in Hv.
    assert ((byte_val c =? RuneError) = false) as Hne
      by (apply Z.eqb_neq; unfold RuneError; lia).
    rewrite Hne in Hv. cbn [andb] in Hv.
    change (Z.to_nat (1 - 1)) with 0%nat in Hv.
    apply Segs_ascii; [done |]. apply (IH (String.length t)); [|done|done].
    subst n. cbn [String.length]. lia.
  - rewrite Hd in Hv. discriminate.
  - rewrite Hd in Hv.
    destruct (MultiRune_cons _ _ Hm) as (c' & u' & -> & _ & _ & Hk & ?).
    apply String_append_inv in Hs as [<- ->].
    pose proof (mr_len _ _ Hm) as Hl.
    assert ((len (String c u') =? 1) = false) as Hne
      by (apply Z.eqb_neq; lia).
    rewrite Hne, andb_false_r, Hk, validFrom_skip in Hv.
    apply (Segs_multi _ (String c u') r); [done |].
    apply (IH (String.length t')); [|done|done].
    subst n. cbn [String.length]. rewrite length_append. lia.
Qed.

(** ** White space *)

Lemma decode_ascii (c : ascii) (t : string) :
  byte_val c < 0x80 -> DecodeRuneInString (String c t) = (byte_val c, 1).
Proof.
  intros Hc. destruct (decode_shape c t) as [[_ H]|[[? _]|(u & t' & r & Hs & Hm & _)]];
    [done | lia |].
  destruct (MultiRune_cons _ _ Hm) as (c' & u' & -> & ? & _).
  apply String_append_inv in Hs as [<- _]. lia.
Qed.

Lemma asciiSpace_IsSpace (c : ascii) :
  asciiSpace c = true ->
  byte_val c < 0x80 /\ unicode.IsSpace (byte_val c) = true.
Proof.
  unfold asciiSpace, unicode.IsSpace, unicode.MaxLatin1.
  pose proof (byte_val_range c) as Hr.
  rewrite !orb_true_iff, !Z.eqb_eq. intros Hc.
  split; [lia |].
  destruct (Z.leb_spec 0 (byte_val c)); [|lia].
  destruct (Z.leb_spec (byte_val c) 255); [|lia]. cbn [andb].
  rewrite !orb_true_iff, !Z.eqb_eq. tauto.
Qed.

Lemma sdrop_allSpaces (n : nat) (s : string) :
  allSpaces s = true -> allSpaces (sdrop n s) = true.
Proof.
  revert s. induction n as [|n IH]; intros s Hs; [done |].
  destruct s as [|c t]; [done |]. cbn [sdrop].
  cbn [allSpaces] in Hs. apply andb_true_iff in Hs as [_ Hs]. by apply IH.
Qed.

Lemma sdrop_nonempty (n : nat) (s : string) :
  (n < String.length s)%nat -> exists c t, sdrop n s = String c t.
Proof.
  revert s. induction n as [|n IH]; intros s Hn.
  - destruct s as [|c t]; [cbn in Hn; lia | by exists c, t].
  - destruct s as [|c t]; [cbn in Hn; lia |]. cbn [sdrop].
    apply IH. cbn in Hn. lia.
Qed.

(** In a string of ASCII white space no rune stops the scan from the
    left. *)
Lemma indexFuncFrom_allSpaces (s : string) :
  allSpaces s = true ->
  forall fuel i, 0 <= i ->
    Strings.indexFuncFrom fuel s unicode.IsSpace false i = -1.
Proof.
  intros Hs. induction fuel as [|fuel IH]; intros i Hi; [done |].
  cbn [Strings.indexFuncFrom].
  destruct (Z.leb_spec (len s) i) as [|Hlt]; [done |].
  unfold slice_from.
  destruct (sdrop_nonempty (Z.to_nat i) s) as (c & t & Hd);
    [unfold len in Hlt; lia |].
  pose proof (sdrop_allSpaces (Z.to_nat i) s Hs) as Hc.
  rewrite Hd in *. cbn [allSpaces] in Hc. apply andb_true_iff in Hc as [Hc _].
  destruct (asciiSpace_IsSpace c Hc) as [Hb Hsp].
  rewrite decode_ascii by done. rewrite Hsp. cbn [Bool.eqb].
  apply IH. lia.
Qed.

(** A string made of ASCII white space only trims to the empty string. *)
Lemma TrimSpace_allSpaces (s : string) :
  allSpaces s = true -> Strings.TrimSpace s = EmptyString.
Proof.
  intros Hs. unfold Strings.TrimSpace, Strings.TrimFunc, Strings.TrimLeftFunc,
    Strings.indexFunc.
  by rewrite indexFuncFrom_allSpaces.
Qed.

(** ** The fuel of the scans

    The scans from the left and from the right are given the length of the
    string plus one as fuel; no more is ever needed, as every turn of their
    loops moves by at least one byte. *)

Lemma decode_size (c : ascii) (t : string) :
  1 <= snd (DecodeRuneInString (String c t)).
Proof.
  destruct (decode_shape c t) as [[_ ->]|[[_ ->]|(u & t' & r & _ & Hm & ->)]];
    cbn [snd]; try lia.
  pose proof (mr_len _ _ Hm). lia.
Qed.

Lemma indexFuncFrom_fuel (s : string) (f : Z -> bool) (truth : bool) :
  forall fuel fuel' i,
    0 <= i -> len s - i < Z.of_nat fuel -> len s - i < Z.of_nat fuel' ->
    Strings.indexFuncFrom fuel s f truth i
    = Strings.indexFuncFrom fuel' s f truth i.
Proof.
  induction fuel as [|fuel IH]; intros fuel' i Hi Hf Hf'.
  - destruct fuel' as [|fuel']; [done |]. cbn [Strings.indexFuncFrom].
    destruct (Z.leb_spec (len s) i); [done | lia].
  - destruct fuel' as [|fuel']; cbn [Strings.indexFuncFrom];
      destruct (Z.leb_spec (len s) i) as [|Hlt]; try done; try lia.
    unfold slice_from.
    destruct (sdrop_nonempty (Z.to_nat i) s) as (c & t & Hd);
      [unfold len in Hlt; lia |].
    rewrite Hd. pose proof (decode_size c t) as Hsz.
    destruct (DecodeRuneInString (String c t)) as [r size]. cbn [snd] in Hsz.
    destruct (Bool.eqb (f r) truth); [done |].
    apply IH; lia.
Qed.

Lemma indexFunc_fuel (s : string) (f : Z -> bool) (truth : bool) (extra : nat) :
  Strings.indexFuncFrom (S (String.length s) + extra) s f truth 0
  = Strings.indexFunc s f truth.
Proof. unfold Strings.indexFunc. apply indexFuncFrom_fuel; unfold len; lia. Qed.

Lemma backToStart_le (k : nat) (s : string) (lim start : Z) :
  backToStart k s lim start <= start.
Proof.
  revert start. induction k as [|k IH]; intros start; cbn [backToStart]; [lia |].
  destruct (start <? lim); [lia |].
  destruct (RuneStart (at_ s start)); [lia |].
  specialize (IH (start - 1)). lia.
Qed.

Lemma length_stake (n : nat) (s : string) :
  String.length (stake n s) = Nat.min n (String.length s).
Proof.
  revert s. induction n as [|n IH]; intros s; [done |].
  destruct s as [|c t]; [done |]. cbn [stake String.length]. by rewrite IH.
Qed.

Lemma decode_last_size (s : string) :
  s <> EmptyString -> 1 <= snd (DecodeLastRuneInString s).
Proof.
  intros Hne. unfold DecodeLastRuneInString.
  destruct (Z.eqb_spec (len s) 0) as [H0|H0].
  { destruct s; [done |]. rewrite len_String in H0. pose proof (len_nonneg s). lia. }
  destruct (at_ s (len s - 1) <? RuneSelf); [cbn [snd]; lia |].
  set (start := Z.max 0 (backToStart 4 s (Z.max 0 (len s - UTFMax)) (len s - 1 - 1))).
  destruct (DecodeRuneInString (slice s start (len s))) as [r size] eqn:Hd.
  destruct (Z.eqb_spec (start + size) (len s)) as [He|He]; cbn [negb snd]; [|lia].
  pose proof (backToStart_le 4 s (Z.max 0 (len s - UTFMax)) (len s - 1 - 1)).
  pose proof (len_nonneg s). lia.
Qed.

Lemma lastIndexFuncFrom_fuel (s : string) (f : Z -> bool) (truth : bool) :
  forall fuel fuel' i,
    i <= len s -> i < Z.of_nat fuel -> i < Z.of_nat fuel' ->
    Strings.lastIndexFuncFrom fuel s f truth i
    = Strings.lastIndexFuncFrom fuel' s f truth i.
Proof.
  induction fuel as [|fuel IH]; intros fuel' i Hi Hf Hf'.
  - destruct fuel' as [|fuel']; [done |]. cbn [Strings.lastIndexFuncFrom].
    destruct (Z.leb_spec i 0); [done | lia].
  - destruct fuel' as [|fuel']; cbn [Strings.lastIndexFuncFrom];
      destruct (Z.leb_spec i 0) as [|Hpos]; try done; try lia.
    assert (slice s 0 i <> EmptyString) as Hne.
    { unfold slice. change (Z.to_nat 0) with 0%nat. cbn [sdrop].
      intros Heq. apply (f_equal String.length) in Heq.
      rewrite length_stake in Heq. cbn [String.length] in Heq.
      unfold len in Hi. lia. }
    pose proof (decode_last_size _ Hne) as Hsz.
    destruct (DecodeLastRuneInString (slice s 0 i)) as [r size]. cbn [snd] in Hsz.
    destruct (Bool.eqb (f r) truth); [done |].
    apply IH; lia.
Qed.

Lemma lastIndexFunc_fuel (s : string) (f : Z -> bool) (truth : bool)
    (extra : nat) :
  Strings.lastIndexFuncFrom (S (String.length s) + extra) s f truth (len s)
  = Strings.lastIndexFunc s f truth.
Proof.
  unfold Strings.lastIndexFunc. apply lastIndexFuncFrom_fuel; unfold len; lia.
Qed.

(** ** The enumerator *)
Section ScanFacts.
Context {R : API}.

Lemma append_append {A} (s : Slice A) (a : A) (l : list A) :
  append (append s [a]) l = append s (a :: l).
Proof.
  destruct l as [|b l]; simpl; [done |].
  by rewrite <- app_assoc.
Qed.

(** The loop adds the kept records of the subkeys, in order, and only
    prints. *)
Lemma scanSubkeys_Prints (key : Key) (total : Z) (names : list string) :
  forall (i : Z) (programs : Slice Program),
  exists out,
    Prints (scanSubkeys key total names i programs)
           (append programs (omap (kept key) names)) out.
Proof.
  induction names as [|name names IH]; intros i programs.
  - exists EmptyString. apply Prints_ret.
  - simpl scanSubkeys. unfold kept at 1. simpl omap.
    set (progress :=
           if (Z.rem i 50 =? 0) && (0 <? i)
           then Print ("  Processed " +:+ itoa i +:+ "/" +:+ itoa total
                       +:+ " programs..." +:+ nl)
           else ret tt).
    assert (exists o, Prints progress tt o) as [o Ho].
    { subst progress. destruct ((Z.rem i 50 =? 0) && (0 <? i)); eexists;
        [apply Prints_Print | apply Prints_ret]. }
    unfold kept.
    destruct (getProgramFromSubkey key name) as [program [err|]].
    + destruct (IH (i + 1) programs) as [o' Ho'].
      exists (o +:+ o'). eapply Prints_bind; eauto.
    + destruct (negb (is_empty (Name program))).
      * destruct (IH (i + 1) (append programs [program])) as [o' Ho'].
        exists (o +:+ o'). rewrite <- append_append.
        eapply Prints_bind; eauto.
      * destruct (IH (i + 1) programs) as [o' Ho'].
        exists (o +:+ o'). eapply Prints_bind; eauto.
Qed.

End ScanFacts.

Section ScanResults.
Context {R : API}.

Lemma elems_append {A} (s : Slice A) (l : list A) :
  elems (append s l) = elems s ++ l.
Proof. destruct l; simpl; [by rewrite app_nil_r | done]. Qed.

Lemma rootRecords_outcome (path : string) :
  rootRecords path = elems (fst (rootOutcome path)).
Proof.
  unfold rootRecords, rootOutcome.
  destruct (OpenKey _ _ _) as [key|e]; [|done].
  destruct (ReadSubKeyNames _ _) as [names|e]; [|done].
  simpl. by rewrite elems_append.
Qed.

Lemma rootOutcome_error (path : string) (e : error) :
  snd (rootOutcome path) = Some e <-> RootFails path e.
Proof.
  unfold rootOutcome, RootFails.
  destruct (OpenKey _ _ _) as [key|e0].
  - destruct (ReadSubKeyNames _ _) as [names|e0] eqn:Hl; cbn [snd].
    + split; [done |].
      intros [(e1 & ? & _) | (k & e1 & Hk & Hl' & _)]; [done |].
      injection Hk as <-. rewrite Hl in Hl'. discriminate.
    + split.
      * intros [= <-]. right. by exists key, e0.
      * intros [(e1 & ? & _) | (k & e1 & Hk & Hl' & ->)]; [done |].
        injection Hk as <-. rewrite Hl in Hl'. by injection Hl' as <-.
  - cbn [snd]. split.
    + intros [= <-]. left. by exists e0.
    + intros [(e1 & He & ->) | (k & e1 & Hk & _)]; [|done].
      by injection He as <-.
Qed.

Lemma rootOutcome_failed (path : string) (e : error) :
  snd (rootOutcome path) = Some e -> fst (rootOutcome path) = nil_slice.
Proof.
  unfold rootOutcome.
  destruct (OpenKey _ _ _) as [key|e0]; [|done].
  by destruct (ReadSubKeyNames _ _).
Qed.

(** [scanRegistryLocation] returns the outcome of its root and only
    prints. *)
Lemma scanRegistryLocation_Prints (path : string) :
  exists out, Prints (scanRegistryLocation path) (rootOutcome path) out.
Proof.
  unfold scanRegistryLocation, rootOutcome.
  destruct (OpenKey _ _ _) as [key|e0].
  - destruct (ReadSubKeyNames _ _) as [names|e0].
    + destruct (scanSubkeys_Prints key (Z.of_nat (length names)) names 0 nil_slice)
        as [o Ho].
      eexists.
      eapply Prints_bind; [apply Prints_Print |].
      eapply Prints_bind; [apply Prints_Print |].
      eapply Prints_bind; [apply Prints_Print |].
      eapply Prints_bind; [apply Ho | apply Prints_ret].
    + eexists.
      eapply Prints_bind; [apply Prints_Print |].
      eapply Prints_bind; [apply Prints_Print | apply Prints_ret].
  - eexists. eapply Prints_bind; [apply Prints_Print | apply Prints_ret].
Qed.

(** The step of [scanAllPrograms] that follows the scan of a root. *)
Lemma collect_Prints (bits : string) (allPrograms : Slice Program)
    (o : Slice Program * option error) :
  (forall e, snd o = Some e -> fst o = nil_slice) ->
  Prints
    (match snd o with
     | Some err =>
         Print ("Warning: Could not scan " +:+ bits +:+ " programs: "
                +:+ err +:+ nl) ;;;
         ret allPrograms
     | None =>
         Print ("Found " +:+ itoa (slice_len (fst o)) +:+ " " +:+ bits
                +:+ " programs" +:+ nl) ;;;
         ret (append allPrograms (elems (fst o)))
     end)
    (append allPrograms (elems (fst o)))
    (rootReport bits o).
Proof.
  intros Hfail. unfold rootReport. destruct o as [programs [e|]]; cbn [fst snd] in *.
  - rewrite (Hfail e eq_refl). cbn [elems append]. apply Prints_then_ret.
  - apply Prints_then_ret.
Qed.

(** [scanAllPrograms] returns the records of the first root followed by
    those of the second, with no error, and prints a report per root. *)
Lemma scanAllPrograms_Prints :
  exists o64 o32,
    Prints scanAllPrograms
      (append (append nil_slice (rootRecords root64)) (rootRecords root32), None)
      (("Step 1: Scanning 64-bit programs..." +:+ nl)
       +:+ ("Location: SOFTWARE\Microsoft\Windows\CurrentVersion\Uninstall" +:+ nl)
       +:+ o64
       +:+ rootReport "64-bit" (rootOutcome root64)
       +:+ ((nl +:+ "Step 2: Scanning 32-bit programs...") +:+ nl)
       +:+ ("Location: SOFTWARE\WOW6432Node\Microsoft\Windows\CurrentVersion\Uninstall"
            +:+ nl)
       +:+ o32
       +:+ rootReport "32-bit" (rootOutcome root32)).
Proof.
  destruct (scanRegistryLocation_Prints root64) as [o64 H64].
  destruct (scanRegistryLocation_Prints root32) as [o32 H32].
  exists o64, o32. unfold scanAllPrograms, Println.
  rewrite !rootRecords_outcome.
  eapply Prints_bind; [apply Prints_Print |].
  eapply Prints_bind; [apply Prints_Print |].
  eapply Prints_bind; [apply H64 |].
  destruct (rootOutcome root64) as [p64 e64] eqn:E64.
  eapply Prints_bind.
  { apply (collect_Prints "64-bit" nil_slice (p64, e64)).
    intros e He. rewrite <- E64. apply (rootOutcome_failed _ e).
    by rewrite E64. }
  eapply Prints_bind; [apply Prints_Print |].
  eapply Prints_bind; [apply Prints_Print |].
  eapply Prints_bind; [apply H32 |].
  destruct (rootOutcome root32) as [p32 e32] eqn:E32.
  rewrite <- (append_nil_r (rootReport "32-bit" _)).
  eapply Prints_bind; [| apply Prints_ret].
  apply (collect_Prints "32-bit" _ (p32, e32)).
  intros e He. rewrite <- E32. apply (rootOutcome_failed _ e).
  by rewrite E32.
Qed.

(** The same, keeping only the two reports apart in what is printed. *)
Lemma scanAllPrograms_reports :
  exists pre mid,
    Prints scanAllPrograms
      (append (append nil_slice (rootRecords root64)) (rootRecords root32), None)
      (pre +:+ rootReport "64-bit" (rootOutcome root64)
       +:+ mid +:+ rootReport "32-bit" (rootOutcome root32)).
Proof.
  destruct scanAllPrograms_Prints as (o64 & o32 & H).
  exists (("Step 1: Scanning 64-bit programs..." +:+ nl)
          +:+ ("Location: SOFTWARE\Microsoft\Windows\CurrentVersion\Uninstall" +:+ nl)
          +:+ o64),
         (((nl +:+ "Step 2: Scanning 32-bit programs...") +:+ nl)
          +:+ ("Location: SOFTWARE\WOW6432Node\Microsoft\Windows\CurrentVersion\Uninstall"
               +:+ nl)
          +:+ o32).
  intros w. rewrite H. do 2 f_equal.
Qed.

End ScanResults.

Section Claims.
Context {R : API}.

Lemma scanAllPrograms_value (w : World) :
  value (scanAllPrograms w)
  = (append (append nil_slice (rootRecords root64)) (rootRecords root32), None).
Proof.
  destruct scanAllPrograms_Prints as (o64 & o32 & H). by rewrite H.
Qed.

Lemma scanAllPrograms_elems (w : World) :
  elems (fst (value (scanAllPrograms w)))
  = rootRecords root64 ++ rootRecords root32.
Proof.
  rewrite scanAllPrograms_value. cbn [fst]. by rewrite !elems_append.
Qed.

Lemma scanRegistryLocation_value (path : string) (w : World) :
  value (scanRegistryLocation path w) = rootOutcome path.
Proof.
  destruct (scanRegistryLocation_Prints path) as [o H]. by rewrite H.
Qed.

(** C1: the result of [scanAllPrograms] is the records of the first root
    followed by the records of the second root; the records of a root are
    what [scanRegistryLocation] returns for it, and for a root that opens
    and lists they are the records kept from its subkeys, in the order the
    store lists the subkeys. *)
Theorem scanAllPrograms_concatenates_roots (w : World) :
  elems (fst (value (scanAllPrograms w)))
  = rootRecords root64 ++ rootRecords root32
  /\ (forall path w',
        elems (fst (value (scanRegistryLocation path w'))) = rootRecords path)
  /\ (forall path key names,
        OpenKey LOCAL_MACHINE path (Z.lor ENUMERATE_SUB_KEYS QUERY_VALUE) = Ok key ->
        ReadSubKeyNames key (-1) = Ok names ->
        rootRecords path = omap (kept key) names).
Proof.
  split; [apply scanAllPrograms_elems |]. split.
  - intros path w'. by rewrite scanRegistryLocation_value, rootRecords_outcome.
  - intros path key names Hk Hn. unfold rootRecords. by rewrite Hk, Hn.
Qed.

Lemma kept_Some_name (key : Key) (name : string) (p : Program) :
  kept key name = Some p -> Name p <> EmptyString.
Proof.
  unfold kept. destruct (getProgramFromSubkey key name) as [q [e|]]; [done |].
  destruct (is_empty (Name q)) eqn:E; cbn [negb]; [done |].
  intros [= <-]. by apply is_empty_false.
Qed.

Lemma getProgramFromSubkey_name (key subkey : Key) (name v : string) :
  OpenKey key name QUERY_VALUE = Ok subkey ->
  GetStringValue subkey "DisplayName" = Ok v ->
  exists p, getProgramFromSubkey key name = (p, None)
            /\ Name p = Strings.TrimSpace v.
Proof.
  intros Hs Hv. unfold getProgramFromSubkey. rewrite Hs, Hv.
  destruct (GetStringValue subkey "DisplayVersion");
    destruct (GetStringValue subkey "InstallLocation"); by eexists.
Qed.

Lemma kept_iff_HasName (key : Key) (name : string) :
  is_Some (kept key name) <-> HasName key name.
Proof.
  unfold HasName. split.
  - intros [p Hp]. pose proof (kept_Some_name _ _ _ Hp) as Hne.
    unfold kept in Hp.
    destruct (getProgramFromSubkey key name) as [q [e|]] eqn:Hq; [done |].
    destruct (negb (is_empty (Name q))); [|done]. injection Hp as ->.
    unfold getProgramFromSubkey in Hq.
    destruct (OpenKey key name QUERY_VALUE) as [subkey|e]; [|done].
    destruct (GetStringValue subkey "DisplayName") as [v|e] eqn:Hv; [|done].
    exists subkey, v. split; [done |]. split; [done |].
    destruct (GetStringValue subkey "DisplayVersion");
      destruct (GetStringValue subkey "InstallLocation");
      injection Hq as <-; exact Hne.
  - intros (subkey & v & Hs & Hv & Hne).
    destruct (getProgramFromSubkey_name _ _ _ _ Hs Hv) as (p & Hp & Hn).
    unfold kept. rewrite Hp, Hn.
    apply is_empty_false in Hne. rewrite Hne. by eexists.
Qed.

Lemma rootRecords_named (path : string) :
  Forall (fun p => Name p <> EmptyString) (rootRecords path).
Proof.
  unfold rootRecords.
  destruct (OpenKey _ _ _) as [key|e]; [|constructor].
  destruct (ReadSubKeyNames _ _) as [names|e]; [|constructor].
  induction names as [|n names IH]; [constructor |].
  cbn [omap list_omap]. destruct (kept key n) as [p|] eqn:E; [|exact IH].
  constructor; [by eapply kept_Some_name | exact IH].
Qed.

(** C2: a subkey adds a record to the output exactly when its display
    name can be read and is not empty once trimmed; a subkey whose display
    name is absent adds nothing, whatever else it holds; the output of a
    root that opens and lists is made of the records so kept; and every
    record of the output of [scanAllPrograms] has a name. *)
Theorem record_iff_display_name (key : Key) (name : string) :
  (is_Some (kept key name) <-> HasName key name)
  /\ (forall subkey e,
        OpenKey key name QUERY_VALUE = Ok subkey ->
        GetStringValue subkey "DisplayName" = Err e ->
        kept key name = None)
  /\ (forall path k names w,
        OpenKey LOCAL_MACHINE path (Z.lor ENUMERATE_SUB_KEYS QUERY_VALUE) = Ok k ->
        ReadSubKeyNames k (-1) = Ok names ->
        elems (fst (value (scanRegistryLocation path w))) = omap (kept k) names)
  /\ (forall w,
        Forall (fun p => Name p <> EmptyString)
               (elems (fst (value (scanAllPrograms w))))).
Proof.
  split; [apply kept_iff_HasName |]. split; [|split].
  - intros subkey e Hs He. unfold kept, getProgramFromSubkey.
    by rewrite Hs, He.
  - intros path k names w Hk Hn.
    rewrite scanRegistryLocation_value. unfold rootOutcome.
    rewrite Hk, Hn. cbn [fst]. by rewrite elems_append.
  - intros w. rewrite scanAllPrograms_elems.
    apply Forall_app; split; apply rootRecords_named.
Qed.

(** C3, amended: a subkey whose display name is present but made of
    white space only, or that otherwise trims to the empty string, adds no
    record: [getProgramFromSubkey] returns a program with an empty name,
    and the guard [program.Name != ""] of [scanRegistryLocation] skips it,
    as it skips a subkey without a display name. *)
Theorem blank_display_name_is_skipped (key : Key) (name : string)
    (subkey : Key) (v : string) :
  OpenKey key name QUERY_VALUE = Ok subkey ->
  GetStringValue subkey "DisplayName" = Ok v ->
  allSpaces v = true \/ Strings.TrimSpace v = EmptyString ->
  kept key name = None
  /\ getProgramFromSubkey key name
     = (mkProgram EmptyString (optionalField subkey "DisplayVersion")
          (optionalField subkey "InstallLocation"), None).
Proof.
  intros Hs Hv Ht.
  assert (Strings.TrimSpace v = EmptyString) as Ht'
    by (destruct Ht as [Ht|Ht]; [by apply TrimSpace_allSpaces | done]).
  unfold kept, getProgramFromSubkey, optionalField.
  rewrite Hs, Hv, Ht'.
  by destruct (GetStringValue subkey "DisplayVersion");
    destruct (GetStringValue subkey "InstallLocation").
Qed.

(** C4: when [getProgramFromSubkey] yields a record, the subkey opened
    and its display name was read; the name of the record is the display
    name trimmed, and its version and path are the trimmed values of
    [DisplayVersion] and [InstallLocation], each empty when the value
    cannot be read. *)
Theorem getProgramFromSubkey_fields (key : Key) (name : string)
    (program : Program) :
  getProgramFromSubkey key name = (program, None) ->
  exists subkey v,
    OpenKey key name QUERY_VALUE = Ok subkey
    /\ GetStringValue subkey "DisplayName" = Ok v
    /\ Name program = Strings.TrimSpace v
    /\ Version program = optionalField subkey "DisplayVersion"
    /\ Path program = optionalField subkey "InstallLocation".
Proof.
  unfold getProgramFromSubkey, optionalField.
  destruct (OpenKey key name QUERY_VALUE) as [subkey|e]; [|done].
  destruct (GetStringValue subkey "DisplayName") as [v|e] eqn:Hv; [|done].
  intros H. exists subkey, v. split; [done |]. split; [done |].
  by destruct (GetStringValue subkey "DisplayVersion");
    destruct (GetStringValue subkey "InstallLocation");
    injection H as <-.
Qed.

End Claims.

(** ** Failing roots *)

Lemma kept_EOld (R : API) (path : string) (key : @Key R) (name : string) :
  @kept (withEmptyRoot R path) (EOld key) name = @kept R key name.
Proof.
  unfold kept, getProgramFromSubkey. cbn [OpenKey withEmptyRoot].
  destruct (@OpenKey R key name QUERY_VALUE) as [subkey|e]; cbn [lift]; [|done].
  cbn [GetStringValue withEmptyRoot]. done.
Qed.

Lemma rootRecords_emptied (R : API) (path : string) :
  @rootRecords (withEmptyRoot R path) path = [].
Proof.
  unfold rootRecords. cbn [OpenKey withEmptyRoot LOCAL_MACHINE].
  by rewrite String.eqb_refl.
Qed.

Lemma rootRecords_other (R : API) (path path' : string) :
  String.eqb path' path = false ->
  @rootRecords (withEmptyRoot R path) path' = @rootRecords R path'.
Proof.
  intros Hne. unfold rootRecords. cbn [OpenKey withEmptyRoot LOCAL_MACHINE].
  rewrite Hne.
  destruct (@OpenKey R _ path' _) as [key|e]; cbn [lift]; [|done].
  cbn [ReadSubKeyNames withEmptyRoot].
  destruct (@ReadSubKeyNames R key (-1)) as [names|e]; [|done].
  induction names as [|n names IH]; [done |].
  cbn [omap list_omap]. by rewrite kept_EOld, IH.
Qed.

Lemma RootFails_no_records (R : API) (path : string) (e : error) :
  RootFails path e -> rootRecords path = [].
Proof.
  intros H. apply rootOutcome_error in H.
  rewrite rootRecords_outcome. by rewrite (rootOutcome_failed _ _ H).
Qed.

Lemma append_nil_slice {A} (l : list A) :
  append nil_slice l = nil_slice -> l = [].
Proof. by destruct l. Qed.

(** C5: when opening or listing a root fails, [scanAllPrograms] still
    returns a nil error; it prints a warning for that root with the error,
    the root has no records, the result is the records of the other root,
    and it is the result of the scan of the store in which the failing root
    opens and has no subkeys.  When both roots fail the result is the nil
    slice. *)
Theorem root_failure_is_a_warning (R : API) (w : World) :
  (exists e, RootFails root64 e) \/ (exists e, RootFails root32 e) ->
  let r := scanAllPrograms w in
  snd (value r) = None
  /\ (forall e, RootFails root64 e ->
        Printed ("Warning: Could not scan 64-bit programs: " +:+ e +:+ nl)
                w (after r)
        /\ rootRecords root64 = []
        /\ elems (fst (value r)) = rootRecords root32
        /\ value r = value (@scanAllPrograms (withEmptyRoot R root64) w))
  /\ (forall e, RootFails root32 e ->
        Printed ("Warning: Could not scan 32-bit programs: " +:+ e +:+ nl)
                w (after r)
        /\ rootRecords root32 = []
        /\ elems (fst (value r)) = rootRecords root64
        /\ value r = value (@scanAllPrograms (withEmptyRoot R root32) w))
  /\ (forall e64 e32, RootFails root64 e64 -> RootFails root32 e32 ->
        fst (value r) = nil_slice).
Proof.
  intros _ r. subst r.
  destruct (@scanAllPrograms_reports R) as (pre & mid & H).
  rewrite !scanAllPrograms_value. unfold after, value. rewrite H.
  cbn [fst snd]. split; [done |]. split; [|split].
  - intros e He. pose proof (RootFails_no_records _ _ _ He) as Hnil.
    apply rootOutcome_error in He. split; [|split; [done | split]].
    + unfold Printed, rootReport at 1. rewrite He. cbn [stdout say].
      by exists pre, (mid +:+ rootReport "32-bit" (rootOutcome root32)).
    + by rewrite !elems_append, Hnil.
    + by rewrite rootRecords_emptied, Hnil, rootRecords_other.
  - intros e He. pose proof (RootFails_no_records _ _ _ He) as Hnil.
    apply rootOutcome_error in He. split; [|split; [done | split]].
    + unfold Printed, rootReport at 2. rewrite He. cbn [stdout say].
      exists (pre +:+ rootReport "64-bit" (rootOutcome root64) +:+ mid),
             EmptyString.
      rewrite append_nil_r. f_equal.
      by rewrite (append_assoc pre), (append_assoc (rootReport _ _)).
    + by rewrite !elems_append, Hnil, app_nil_r.
    + by rewrite rootRecords_emptied, Hnil, rootRecords_other.
  - intros e64 e32 H64 H32.
    by rewrite (RootFails_no_records _ _ _ H64), (RootFails_no_records _ _ _ H32).
Qed.

(** C9: [scanAllPrograms] returns a nil error on every store, and the nil
    slice with a nil error when both roots fail; [Execute] calls [os.Exit]
    exactly when the command framework rejects the command line, and then
    with status 1. *)
Theorem scan_warnings_never_exit_nonzero (R : API) (unicode_ToLower : Z -> Z)
    (w : World) :
  snd (value (scanAllPrograms w)) = None
  /\ (forall e64 e32, RootFails root64 e64 -> RootFails root32 e32 ->
        value (scanAllPrograms w) = (nil_slice, None))
  /\ (forall d,
        (value (Execute unicode_ToLower d w) = Some 1
         <-> exists err, d = Rejected err)
        /\ (value (Execute unicode_ToLower d w) = None
            <-> forall err, d <> Rejected err)).
Proof.
  split; [by rewrite scanAllPrograms_value |]. split.
  - intros e64 e32 H64 H32. rewrite scanAllPrograms_value.
    by rewrite (RootFails_no_records _ _ _ H64), (RootFails_no_records _ _ _ H32).
  - intros d. unfold Execute, rootCmd_Execute, bind, ret, value.
    destruct d as [err|outputFile|text].
    + cbn [fst]. split; split; try done.
      * intros _. by exists err.
      * intros Hd. by destruct (Hd err).
    + destruct (scanCmd_Run unicode_ToLower outputFile w) as [[] w'].
      cbn [fst]. split; split; try done. by intros [err Hd].
    + destruct (Print text w) as [[] w']. cbn [fst].
      split; split; try done. by intros [err Hd].
Qed.

(** ** The exporters *)

Lemma Writes_ret {A} (a : A) (f : File) : Writes (ret a) a f EmptyString.
Proof.
  intros [o fs ce we] content H. cbn [files] in *. unfold ret.
  cbn [stdout files create_error write_error].
  by rewrite append_nil_r, insert_id.
Qed.

Lemma Writes_Fprint (f : File) (s : string) : Writes (Fprint f s) tt f s.
Proof. intros w content H. unfold Fprint. by rewrite H. Qed.

Lemma Writes_bind {A B} (c : IO A) (k : A -> IO B) (a : A) (b : B)
    (f : File) (o1 o2 : string) :
  Writes c a f o1 -> Writes (k a) b f o2 -> Writes (bind c k) b f (o1 +:+ o2).
Proof.
  intros Hc Hk w content H. unfold bind. rewrite (Hc w content H).
  rewrite (Hk _ (content +:+ o1)); cbn [files stdout create_error write_error].
  - by rewrite insert_insert_eq, append_assoc.
  - apply lookup_insert_eq.
Qed.

Lemma Writes_ext {A} (c : IO A) (a : A) (f : File) (o1 o2 : string) :
  o1 = o2 -> Writes c a f o1 -> Writes c a f o2.
Proof. by intros ->. Qed.

Lemma Prints_ext {A} (c : IO A) (a : A) (o1 o2 : string) :
  o1 = o2 -> Prints c a o1 -> Prints c a o2.
Proof. by intros ->. Qed.

(** The two loops write the same blocks. *)
Lemma writePrograms_Writes (file : File) (programs : list Program) :
  forall i, Writes (writePrograms file i programs) tt file (blocks i programs).
Proof.
  induction programs as [|p programs IH]; intros i.
  - apply Writes_ret.
  - cbn [writePrograms blocks]. unfold block.
    destruct (is_empty (Version p)), (is_empty (Path p)); cbn [negb];
      (eapply Writes_ext;
       [| repeat first [ apply Writes_Fprint | apply Writes_ret | apply IH
                       | eapply Writes_bind ] ];
       repeat (rewrite (append_assoc _ _ _)); reflexivity).
Qed.

Lemma displayPrograms_Prints (programs : list Program) :
  forall i, Prints (displayPrograms i programs) tt (blocks i programs).
Proof.
  induction programs as [|p programs IH]; intros i.
  - apply Prints_ret.
  - cbn [displayPrograms blocks]. unfold block, Println.
    destruct (is_empty (Version p)), (is_empty (Path p)); cbn [negb];
      (eapply Prints_ext;
       [| repeat first [ apply Prints_Print | apply Prints_ret | apply IH
                       | eapply Prints_bind ] ];
       repeat (rewrite (append_assoc _ _ _)); reflexivity).
Qed.

Lemma displayResults_Prints (programs : Slice Program) :
  Prints (displayResults programs) tt
    (consoleBanner (slice_len programs) +:+ blocks 0 (elems programs)).
Proof.
  unfold displayResults, consoleBanner.
  eapply Prints_ext;
    [| repeat first [ apply Prints_Print | apply displayPrograms_Prints
                    | eapply Prints_bind ] ].
  generalize (itoa (slice_len programs)) (blocks 0 (elems programs)).
  intros n b.
  cbn [Strings.Repeat Z.to_nat Pos.to_nat Pos.iter_op Nat.iter Nat.add nat_rect].
  repeat (rewrite (append_assoc _ _ _)). reflexivity.
Qed.

Lemma bind_eq {A B} (c : IO A) (k : A -> IO B) (w w' : World) (a : A) :
  c w = (a, w') -> bind c k w = k a w'.
Proof. intros H. unfold bind. by rewrite H. Qed.

Lemma os_Create_ok (name : string) (w : World) :
  create_error w name = None ->
  os_Create name w
  = (Ok name,
     mkWorld (stdout w) (<[name := EmptyString]> (files w))
       (create_error w) (write_error w)).
Proof. intros H. unfold os_Create. by rewrite H. Qed.

Lemma saveToText_spec (programs : Slice Program) (filename : string)
    (w : World) :
  create_error w filename = None ->
  saveToText programs filename w
  = (None,
     mkWorld (stdout w)
       (<[filename := reportHeader (slice_len programs)
                      +:+ blocks 0 (elems programs)]> (files w))
       (create_error w) (write_error w)).
Proof.
  intros Hc. unfold saveToText.
  rewrite (bind_eq _ _ _ _ _ (os_Create_ok _ _ Hc)).
  match goal with
  | |- ?c _ = _ =>
      assert (Writes c None filename
                (reportHeader (slice_len programs)
                 +:+ blocks 0 (elems programs))) as HW
  end.
  { unfold reportHeader.
    eapply Writes_ext;
      [| repeat first [ apply Writes_Fprint | apply Writes_ret
                      | apply writePrograms_Writes | eapply Writes_bind ] ].
    generalize (itoa (slice_len programs)) (blocks 0 (elems programs)).
    intros n b.
    cbn [Strings.Repeat Z.to_nat Pos.to_nat Pos.iter_op Nat.iter Nat.add nat_rect].
    repeat (rewrite (append_assoc _ _ _)). rewrite append_nil_r. reflexivity. }
  rewrite (HW _ EmptyString); cbn [files stdout create_error write_error].
  - by rewrite insert_insert_eq.
  - apply lookup_insert_eq.
Qed.

Lemma saveToJSON_spec (programs : Slice Program) (filename : string)
    (w : World) :
  create_error w filename = None ->
  write_error w filename = None ->
  saveToJSON programs filename w
  = (None,
     mkWorld (stdout w)
       (<[filename := json.Encode (toStructs programs)]> (files w))
       (create_error w) (write_error w)).
Proof.
  intros Hc Hw.
  unfold saveToJSON, Encoder_Encode, bind, os_Create, File_Write, ret.
  rewrite Hc. cbn [files stdout create_error write_error]. rewrite Hw.
  cbn [files stdout create_error write_error].
  by rewrite lookup_insert_eq, insert_insert_eq.
Qed.

(** The write of the document fails: the error is reported as an encoding
    error, and the file holds the bytes that went through. *)
Lemma saveToJSON_short (programs : Slice Program) (filename : string)
    (w : World) (n : nat) (e : error) :
  create_error w filename = None ->
  write_error w filename = Some (n, e) ->
  saveToJSON programs filename w
  = (Some ("failed to encode JSON: " +:+ e),
     mkWorld (stdout w)
       (<[filename := stake n (json.Encode (toStructs programs))]> (files w))
       (create_error w) (write_error w)).
Proof.
  intros Hc Hw.
  unfold saveToJSON, Encoder_Encode, bind, os_Create, File_Write, ret.
  rewrite Hc. cbn [files stdout create_error write_error]. rewrite Hw.
  cbn [files stdout create_error write_error].
  by rewrite lookup_insert_eq, insert_insert_eq.
Qed.

(** C8: when the file can be created, [saveToText] returns a nil error
    and leaves in it the header (the title line, the date line, the line
    with the number of records, the separator of 50 characters, an empty
    line) followed by one block per record, in order; the console and the
    other files are untouched; and [displayResults] prints its banner
    followed by the same blocks. *)
Theorem saveToText_report (programs : Slice Program) (filename : string)
    (w : World) :
  create_error w filename = None ->
  let r := saveToText programs filename w in
  value r = None
  /\ files (after r) !! filename
     = Some (("WinClone - Installed Programs List" +:+ nl)
             +:+ ("Generated on: 2025-01-14" +:+ nl)
             +:+ ("Total programs found: "
                  +:+ itoa (Z.of_nat (length (elems programs))) +:+ nl)
             +:+ (Strings.Repeat "=" 50 +:+ nl)
             +:+ nl
             +:+ blocks 0 (elems programs))
  /\ len (Strings.Repeat "=" 50) = 50
  /\ (forall other, other <> filename ->
        files (after r) !! other = files w !! other)
  /\ stdout (after r) = stdout w
  /\ (forall w0,
        stdout (after (displayResults programs w0))
        = stdout w0
          +:+ consoleBanner (Z.of_nat (length (elems programs)))
          +:+ blocks 0 (elems programs)).
Proof.
  intros Hc r. subst r. rewrite (saveToText_spec _ _ _ Hc).
  unfold value, after. cbn [fst snd files stdout].
  split; [done |]. split; [|split; [done | split; [|split; [done |]]]].
  - rewrite lookup_insert_eq. f_equal. unfold reportHeader, slice_len.
    generalize (itoa (Z.of_nat (length (elems programs))))
               (blocks 0 (elems programs)).
    intros n b. cbn [Strings.Repeat Z.to_nat Pos.to_nat Pos.iter_op Nat.iter Nat.add nat_rect].
    repeat (rewrite (append_assoc _ _ _)). reflexivity.
  - intros other Hne. by rewrite lookup_insert_ne.
  - intros w0. by rewrite displayResults_Prints.
Qed.

(** ** Escaping, segment by segment *)

Lemma escapeFrom_copy (u t : string) :
  escapeFrom (Copy (String.length u)) (u +:+ t) = u +:+ escapeFrom (Copy 0) t.
Proof.
  induction u as [|c u IH]; [done |].
  cbn [String.length String.append escapeFrom]. by rewrite IH.
Qed.

Lemma escapeFrom_drop (u t : string) :
  escapeFrom (Drop (String.length u)) (u +:+ t) = escapeFrom (Copy 0) t.
Proof.
  induction u as [|c u IH]; [by destruct t |].
  cbn [String.length String.append escapeFrom]. exact IH.
Qed.

Lemma escape_ascii (c : ascii) (t : string) :
  byte_val c < 0x80 ->
  escapeFrom (Copy 0) (String c t) = chunk c +:+ escapeFrom (Copy 0) t.
Proof.
  intros Hc. cbn [escapeFrom]. unfold RuneSelf, chunk.
  destruct (Z.ltb_spec (byte_val c) 128); [done | lia].
Qed.

Lemma escape_bad (c : ascii) (t : string) :
  0x80 <= byte_val c ->
  DecodeRuneInString (String c t) = (RuneError, 1) ->
  escapeFrom (Copy 0) (String c t) = "\ufffd" +:+ escapeFrom (Copy 0) t.
Proof.
  intros Hc Hd. cbn [escapeFrom]. unfold RuneSelf.
  destruct (Z.ltb_spec (byte_val c) 128); [lia |].
  by rewrite Hd.
Qed.

Lemma escape_multi (u : string) (r : Z) (t : string) :
  MultiRune u r ->
  escapeFrom (Copy 0) (u +:+ t) = escapedRune u r +:+ escapeFrom (Copy 0) t.
Proof.
  intros Hm.
  destruct (MultiRune_cons _ _ Hm) as (c & u' & -> & Hc & _ & Hk & _).
  pose proof (mr_len _ _ Hm) as Hl. pose proof (mr_decode _ _ Hm t) as Hd.
  cbn [String.append] in *. cbn [escapeFrom]. unfold RuneSelf.
  destruct (Z.ltb_spec (byte_val c) 128); [lia |].
  rewrite Hd.
  assert ((len (String c u') =? 1) = false) as -> by (apply Z.eqb_neq; lia).
  rewrite andb_false_r, Hk. unfold escapedRune.
  destruct ((r =? 8232) || (r =? 8233)).
  - by rewrite escapeFrom_drop, !append_assoc.
  - by rewrite escapeFrom_copy.
Qed.

(** ** Reading back, segment by segment *)

Lemma unquoteFrom_skip (u t : string) :
  unquoteFrom (String.length u) (u +:+ t) = unquoteFrom 0 t.
Proof. induction u as [|c u IH]; [done | exact IH]. Qed.

Lemma unquote_ascii (c : ascii) (X : string) :
  byte_val c < 0x80 ->
  unquoteFrom 0 (chunk c +:+ X) = emit (String c EmptyString) (unquoteFrom 0 X).
Proof.
  intros H.
  destruct c as [[] [] [] [] [] [] [] []];
    first [ reflexivity | exfalso; vm_compute in H; discriminate H ].
Qed.

Lemma allHigh_head (c : ascii) (u : string) :
  allHigh (String c u) = true -> 0x80 <= byte_val c.
Proof. cbn [allHigh]. rewrite andb_true_iff, Z.leb_le. tauto. Qed.

Lemma unquote_raw (u : string) (r : Z) (X : string) :
  MultiRune u r ->
  unquoteFrom 0 (u +:+ X) = emit u (unquoteFrom 0 X).
Proof.
  intros Hm.
  destruct (MultiRune_cons _ _ Hm) as (c & u' & -> & Hc & _ & Hk & _).
  pose proof (mr_decode _ _ Hm X) as Hd. pose proof (mr_encode _ _ Hm) as He.
  cbn [String.append] in *. cbn [unquoteFrom]. unfold RuneSelf.
  destruct (Z.eqb_spec (byte_val c) 34); [lia |].
  destruct (Z.eqb_spec (byte_val c) 92); [lia |].
  destruct (Z.ltb_spec (byte_val c) 32); [lia |].
  destruct (Z.ltb_spec (byte_val c) 128); [lia |].
  by rewrite Hd, He, Hk, unquoteFrom_skip.
Qed.

Lemma unquote_rune (u : string) (r : Z) (X : string) :
  MultiRune u r ->
  unquoteFrom 0 (escapedRune u r +:+ X) = emit u (unquoteFrom 0 X).
Proof.
  intros Hm. unfold escapedRune.
  destruct (Z.eqb_spec r 8232) as [->|_];
    [|destruct (Z.eqb_spec r 8233) as [->|_]]; cbn [orb].
  - rewrite <- (mr_encode _ _ Hm). reflexivity.
  - rewrite <- (mr_encode _ _ Hm). reflexivity.
  - by apply (unquote_raw u r).
Qed.

(** A string literal is read back as the string it was made from, when
    that string is valid UTF-8. *)
Lemma unquote_escape (s : string) :
  Segs true s ->
  forall rest,
    unquoteFrom 0 (escapeFrom (Copy 0) s +:+ dquote +:+ rest) = Some (s, rest).
Proof.
  induction 1 as [|c t Hc _ IH|c t Hs|u r t Hm _ IH]; intros rest.
  - reflexivity.
  - rewrite escape_ascii, append_assoc, unquote_ascii, IH by done. reflexivity.
  - discriminate.
  - rewrite (escape_multi u r), append_assoc, (unquote_rune u r), IH by done.
    reflexivity.
Qed.

Lemma parseString_appendString (s rest : string) :
  ValidString s = true ->
  parseString (appendString s +:+ rest) = Some (s, rest).
Proof.
  intros Hv. unfold appendString, parseString. rewrite !append_assoc.
  change (dquote +:+ ?x) with (String (ascii_of_nat 34) x).
  change (byte_val (ascii_of_nat 34) =? 34) with true. cbv iota.
  apply unquote_escape. by apply Segs_valid.
Qed.

Section Quiet.
Variables prefix indent : string.

Lemma indentFrom_quiet (body : string) :
  forall esc ni d n st rest,
    quiet esc body = true ->
    indentFrom prefix indent (if esc then InStringEsc else InString)
      ni d n st (body +:+ rest)
    = body +:+ indentFrom prefix indent InString ni d n st rest.
Proof.
  induction body as [|c t IH]; intros esc ni d n st rest Hq.
  - destruct esc; [discriminate | reflexivity].
  - cbn [String.append]. cbn [quiet] in Hq. destruct esc.
    + cbn [indentFrom]. f_equal. apply (IH false). exact Hq.
    + cbn [indentFrom]. f_equal.
      destruct (byte_val c =? 34); [discriminate |].
      destruct (byte_val c =? 92).
      * apply (IH true). exact Hq.
      * apply (IH false). exact Hq.
Qed.

End Quiet.

Lemma quiet_app (a b : string) :
  quiet false a = true -> quiet false (a +:+ b) = quiet false b.
Proof.
  assert (forall esc, quiet esc a = true ->
                      quiet esc (a +:+ b) = quiet false b) as H;
    [|apply H].
  induction a as [|c a IH]; intros esc Hq.
  - by destruct esc.
  - cbn [String.append quiet] in *. destruct esc; [by apply IH |].
    destruct (byte_val c =? 34); [discriminate |].
    destruct (byte_val c =? 92); by apply IH.
Qed.

Lemma quiet_chunk (c : ascii) : byte_val c < 0x80 -> quiet false (chunk c) = true.
Proof.
  intros H.
  destruct c as [[] [] [] [] [] [] [] []];
    first [ reflexivity | exfalso; vm_compute in H; discriminate H ].
Qed.

Lemma quiet_high (u : string) : allHigh u = true -> quiet false u = true.
Proof.
  induction u as [|c u IH]; [done |].
  cbn [allHigh quiet]. rewrite andb_true_iff, Z.leb_le. intros [Hc Hu].
  destruct (Z.eqb_spec (byte_val c) 34); [lia |].
  destruct (Z.eqb_spec (byte_val c) 92); [lia |]. by apply IH.
Qed.

Lemma quiet_rune (u : string) (r : Z) :
  MultiRune u r -> quiet false (escapedRune u r) = true.
Proof.
  intros Hm. unfold escapedRune.
  destruct (Z.eqb_spec r 8232) as [->|_];
    [|destruct (Z.eqb_spec r 8233) as [->|_]]; cbn [orb]; try reflexivity.
  apply quiet_high, (mr_high _ _ Hm).
Qed.

(** The escaped form of any string is quiet. *)
Lemma quiet_escape (s : string) : quiet false (escapeFrom (Copy 0) s) = true.
Proof.
  induction (Segs_all s) as [|c t Hc _ IH|c t _ Hc Hd _ IH|u r t Hm _ IH].
  - reflexivity.
  - rewrite escape_ascii by done. rewrite quiet_app; [exact IH |].
    by apply quiet_chunk.
  - rewrite escape_bad by done. rewrite quiet_app; [exact IH | reflexivity].
  - rewrite (escape_multi u r) by done.
    rewrite quiet_app; [exact IH |]. by apply (quiet_rune u r).
Qed.

(** [appendIndent] copies a string literal as it is, after the line
    break and indent that are due when it is the first thing in an object
    or array. *)
Lemma indentFrom_string (prefix indent : string) (s rest : string)
    (ni : bool) (d n : Z) (st : bool) :
  indentFrom prefix indent Outside ni d n st (appendString s +:+ rest)
  = (if ni then appendNewline prefix indent (d + 1) else EmptyString)
    +:+ appendString s
    +:+ indentFrom prefix indent Outside false (if ni then d + 1 else d) n
          true rest.
Proof.
  unfold appendString. rewrite !append_assoc.
  change (dquote +:+ ?x) with (String (ascii_of_nat 34) x) at 1.
  cbn [indentFrom]. change (byte_val (ascii_of_nat 34)) with 34.
  cbn [isSpace Z.eqb Pos.eqb orb andb negb].
  rewrite andb_true_r.
  change (dquote +:+ ?x) with (String (ascii_of_nat 34) x) at 1.
  rewrite (indentFrom_quiet prefix indent _ false) by apply quiet_escape.
  destruct ni; reflexivity.
Qed.

Lemma joinWith_cons (x : string) (l : list string) :
  joinWith "," (x :: l) = x +:+ fold_right (fun y acc => "," +:+ y +:+ acc) EmptyString l.
Proof.
  revert x. induction l as [|y l IH]; intros x.
  - cbn [joinWith fold_right]. by rewrite append_nil_r.
  - cbn [joinWith fold_right] in *. by rewrite IH.
Qed.

Lemma marshal_cons (v : Struct) (l : list Struct) :
  marshal (mk_slice (v :: l)) = "[" +:+ marshalStruct v +:+ marshalMore l +:+ "]".
Proof.
  unfold marshal. cbn [map]. rewrite joinWith_cons.
  f_equal. rewrite append_assoc. f_equal. f_equal.
  induction l as [|y l IH]; [done |]. cbn [map fold_right marshalMore].
  by rewrite IH.
Qed.

Section Steps.
Variables (d n : Z) (st : bool) (rest : string).
Let go := indentFrom "" "  " Outside.

Lemma indent_colon :
  go false d n st (":" +:+ rest) = ": " +:+ go false d n st rest.
Proof. reflexivity. Qed.

Lemma indent_comma :
  go false d n st ("," +:+ rest)
  = "," +:+ appendNewline "" "  " d +:+ go false d n st rest.
Proof. reflexivity. Qed.

Lemma indent_open :
  go false d n st ("{" +:+ rest) = "{" +:+ go true d (n + 1) true rest.
Proof. reflexivity. Qed.

Lemma indent_open_first :
  go true d n st ("{" +:+ rest)
  = appendNewline "" "  " (d + 1) +:+ "{" +:+ go true (d + 1) (n + 1) true rest.
Proof. reflexivity. Qed.

Lemma indent_close_brace :
  go false d n st ("}" +:+ rest)
  = appendNewline "" "  " (d - 1) +:+ "}" +:+ go false (d - 1) (n - 1) st rest.
Proof. reflexivity. Qed.

Lemma indent_close_bracket :
  go false d n st ("]" +:+ rest)
  = appendNewline "" "  " (d - 1) +:+ "]" +:+ go false (d - 1) (n - 1) st rest.
Proof. reflexivity. Qed.

Lemma indent_string (s : string) :
  go false d n st (appendString s +:+ rest)
  = appendString s +:+ go false d n true rest.
Proof. apply (indentFrom_string "" "  " s rest false). Qed.

Lemma indent_string_first (s : string) :
  go true d n st (appendString s +:+ rest)
  = appendNewline "" "  " (d + 1) +:+ appendString s
    +:+ go false (d + 1) n true rest.
Proof. apply (indentFrom_string "" "  " s rest true). Qed.

End Steps.

Lemma indent_open_bracket (d n : Z) (st : bool) (rest : string) :
  indentFrom "" "  " Outside false d n st ("[" +:+ rest)
  = "[" +:+ indentFrom "" "  " Outside true d (n + 1) true rest.
Proof. reflexivity. Qed.

Lemma marshalStruct_members (p : Program) :
  marshalStruct (toStruct p) = "{" +:+ members p.
Proof.
  unfold marshalStruct, toStruct, members, marshalField.
  cbn [map joinWith fst snd]. by rewrite !append_assoc.
Qed.

Lemma indent_members (p : Program) (rest : string) :
  indentFrom "" "  " Outside true 1 2 true (members p +:+ rest)
  = nl +:+ "    " +:+ appendString "Name" +:+ ": " +:+ appendString (Name p)
    +:+ "," +:+ nl
    +:+ "    " +:+ appendString "Version" +:+ ": " +:+ appendString (Version p)
    +:+ "," +:+ nl
    +:+ "    " +:+ appendString "Path" +:+ ": " +:+ appendString (Path p)
    +:+ nl +:+ "  }"
    +:+ indentFrom "" "  " Outside false 1 1 true rest.
Proof.
  unfold members. rewrite !append_assoc.
  rewrite indent_string_first, indent_colon, indent_string, indent_comma.
  rewrite indent_string, indent_colon, indent_string, indent_comma.
  rewrite indent_string, indent_colon, indent_string, indent_close_brace.
  reflexivity.
Qed.

Lemma indent_more (l : list Program) :
  indentFrom "" "  " Outside false 1 1 true
    (marshalMore (map toStruct l) +:+ "]" +:+ nl)
  = prettyMore l +:+ nl +:+ "]" +:+ nl.
Proof.
  induction l as [|p l IH]; [reflexivity |].
  cbn [map marshalMore prettyMore]. rewrite marshalStruct_members.
  rewrite !append_assoc.
  rewrite indent_comma, indent_open, indent_members, IH.
  unfold prettyProgram. rewrite !append_assoc. reflexivity.
Qed.

(** The document written for a slice of programs. *)
Lemma Encode_pretty (programs : Slice Program) :
  json.Encode (toStructs programs) = prettyDocument programs.
Proof.
  destruct programs as [|[|p l]]; [reflexivity | reflexivity |].
  unfold json.Encode, Indent, toStructs, prettyDocument.
  cbn [map]. rewrite marshal_cons, marshalStruct_members.
  rewrite !append_assoc.
  rewrite indent_open_bracket, indent_open_first, indent_members, indent_more.
  unfold prettyProgram. rewrite !append_assoc. reflexivity.
Qed.

Lemma fromStruct_toStruct (p : Program) : fromStruct (toStruct p) = Some p.
Proof. by destruct p. Qed.

Lemma fromStructs_toStruct (l : list Program) :
  fromStructs (map toStruct l) = Some l.
Proof.
  induction l as [|p l IH]; [done |].
  cbn [map fromStructs]. by rewrite fromStruct_toStruct, IH.
Qed.

(** ** Reading the indented document *)

Lemma skipSpace_literal (s X : string) :
  skipSpace (appendString s +:+ X) = appendString s +:+ X.
Proof. unfold appendString. rewrite !append_assoc. reflexivity. Qed.

Lemma skip_indent4 (s X : string) :
  skipSpace (nl +:+ "    " +:+ appendString s +:+ X) = appendString s +:+ X.
Proof. rewrite <- (skipSpace_literal s X). reflexivity. Qed.

Lemma skip_space1 (s X : string) :
  skipSpace (" " +:+ appendString s +:+ X) = appendString s +:+ X.
Proof. rewrite <- (skipSpace_literal s X). reflexivity. Qed.

(** A member that is followed by another one. *)
Lemma parseMembers_more (k : nat) (key val next X : string) :
  ValidString key = true -> ValidString val = true ->
  parseMembers (S k)
    (appendString key +:+ ": " +:+ appendString val +:+ "," +:+ nl
     +:+ "    " +:+ appendString next +:+ X)
  = match parseMembers k (appendString next +:+ X) with
    | Some (ms, s5) => Some ((key, val) :: ms, s5)
    | None => None
    end.
Proof.
  intros Hk Hv. cbn [parseMembers].
  rewrite (parseString_appendString key) by done.
  change (expect 58 (skipSpace (": " +:+ ?Y))) with (Some (" " +:+ Y)).
  cbv iota. rewrite skip_space1.
  rewrite (parseString_appendString val) by done.
  change (skipSpace ("," +:+ ?Y)) with (String "," Y).
  cbv iota. change (byte_val "," =? 44) with true. cbv iota.
  by rewrite skip_indent4.
Qed.

(** The last member of an object. *)
Lemma parseMembers_last (k : nat) (key val X : string) :
  ValidString key = true -> ValidString val = true ->
  parseMembers (S k)
    (appendString key +:+ ": " +:+ appendString val +:+ nl +:+ "  }" +:+ X)
  = Some ([(key, val)], X).
Proof.
  intros Hk Hv. cbn [parseMembers].
  rewrite (parseString_appendString key) by done.
  change (expect 58 (skipSpace (": " +:+ ?Y))) with (Some (" " +:+ Y)).
  cbv iota. rewrite skip_space1.
  rewrite (parseString_appendString val) by done.
  reflexivity.
Qed.

Lemma parseObject_pretty (n : nat) (p : Program) (X : string) :
  validProgram p = true ->
  parseObject (S (S (S n))) (prettyProgram p +:+ X) = Some (toStruct p, X).
Proof.
  unfold validProgram. rewrite !andb_true_iff. intros [[Hn Hv] Hp].
  unfold parseObject, prettyProgram. rewrite !append_assoc.
  change (expect 123 ("{" +:+ ?Y)) with (Some Y). cbv iota.
  rewrite skip_indent4.
  assert (forall s Y, expect 125 (appendString s +:+ Y) = None) as ->
    by (intros; unfold appendString; rewrite !append_assoc; reflexivity).
  rewrite parseMembers_more, parseMembers_more, parseMembers_last by done.
  reflexivity.
Qed.

Lemma prettyProgram_head (p : Program) (X : string) :
  prettyProgram p +:+ X = String "{" (sdrop 1 (prettyProgram p +:+ X)).
Proof. unfold prettyProgram. rewrite !append_assoc. reflexivity. Qed.

(** The elements of the array, from any of them on. *)
Lemma parseElements_pretty (n : nat) (l : list Program) :
  forall (fuel : nat) (p : Program),
    Forall (fun q => validProgram q = true) (p :: l) ->
    (length l < fuel)%nat ->
    parseElements fuel (S (S (S n)))
      (prettyProgram p +:+ prettyMore l +:+ nl +:+ "]" +:+ nl)
    = Some (map toStruct (p :: l), nl).
Proof.
  induction l as [|q l IH]; intros fuel p Hv Hf.
  - destruct fuel as [|fuel]; [cbn in Hf; lia |].
    cbn [parseElements]. rewrite parseObject_pretty by (by inversion Hv).
    reflexivity.
  - destruct fuel as [|fuel]; [cbn in Hf; lia |].
    inversion Hv as [|? ? Hp Hl]; subst.
    cbn [parseElements prettyMore]. rewrite !append_assoc.
    rewrite parseObject_pretty by done.
    change (skipSpace ("," +:+ ?Y)) with (String "," Y).
    cbv iota. change (byte_val "," =? 44) with true. cbv iota.
    assert (forall Y, skipSpace (nl +:+ "  " +:+ prettyProgram q +:+ Y)
                      = prettyProgram q +:+ Y) as ->.
    { intros Y. rewrite (prettyProgram_head q Y). reflexivity. }
    rewrite (IH fuel q Hl) by (cbn [length] in Hf; lia).
    reflexivity.
Qed.

Lemma prettyMore_length (l : list Program) :
  (length l <= String.length (prettyMore l))%nat.
Proof.
  induction l as [|p l IH]; [done |].
  cbn [prettyMore length]. rewrite !length_append.
  cbn [String.length]. lia.
Qed.

(** JSON round trip: a slice of programs whose fields are valid UTF-8 is
    read back from the document written for it. *)
Lemma read_Encode (programs : Slice Program) :
  Forall (fun p => validProgram p = true) (elems programs) ->
  readPrograms (json.Encode (toStructs programs)) = Some programs.
Proof.
  intros Hv. rewrite Encode_pretty.
  destruct programs as [|[|p l]]; [reflexivity | reflexivity |].
  cbn [elems] in Hv. unfold readPrograms, Unmarshal, prettyDocument.
  set (doc := "[" +:+ nl +:+ "  " +:+ prettyProgram p +:+ prettyMore l
              +:+ nl +:+ "]" +:+ nl).
  assert (exists n, String.length doc = S (S (S n)) /\ (length l < S (S (S n)))%nat)
    as (n & -> & Hn).
  { subst doc. rewrite !length_append. pose proof (prettyMore_length l).
    cbn [String.length nl Nat.add].
    eexists. split; [reflexivity |]. lia. }
  subst doc.
  change (skipSpace ("[" +:+ ?Y)) with (String "[" Y). cbv iota.
  change (byte_val "[" =? 91) with true. cbv iota.
  assert (forall Y, skipSpace (nl +:+ "  " +:+ prettyProgram p +:+ Y)
                    = prettyProgram p +:+ Y) as ->.
  { intros Y. rewrite (prettyProgram_head p Y). reflexivity. }
  assert (forall Y, expect 93 (prettyProgram p +:+ Y) = None) as ->.
  { intros Y. rewrite (prettyProgram_head p Y). reflexivity. }
  rewrite parseElements_pretty by done.
  change (atEnd nl) with true. cbv iota.
  by rewrite fromStructs_toStruct.
Qed.

(** ** The structured export *)

(** When the file can be created, [saveToJSON] returns a nil error if the
    write of the document goes through, and the error of the write, as
    [failed to encode JSON: ...], if it does not.  After a write that went
    through, and for programs whose fields are valid UTF-8, the file holds
    the indented document of the slice: [null] for the nil slice, [[]] for
    an empty slice that is not nil, and otherwise an array with one object
    per program, each with the members [Name], [Version] and [Path] in this
    order, indented by two spaces per level, and a final line break.  The
    console and the other files are untouched either way. *)
Theorem saveToJSON_document (programs : Slice Program) (filename : string)
    (w : World) :
  create_error w filename = None ->
  let r := saveToJSON programs filename w in
  (write_error w filename = None ->
     value r = None
     /\ (Forall (fun p => validProgram p = true) (elems programs) ->
         files (after r) !! filename = Some (prettyDocument programs)))
  /\ (forall n e,
        write_error w filename = Some (n, e) ->
        value r = Some ("failed to encode JSON: " +:+ e))
  /\ (forall other, other <> filename ->
        files (after r) !! other = files w !! other)
  /\ stdout (after r) = stdout w.
Proof.
  intros Hc r. subst r.
  destruct (write_error w filename) as [[n e]|] eqn:Hw.
  - rewrite (saveToJSON_short _ _ _ _ _ Hc Hw).
    unfold value, after. cbn [fst snd files stdout].
    split; [done |]. split; [|split; [|done]].
    + by intros n' e' [= <- <-].
    + intros other Hne. by rewrite lookup_insert_ne.
  - rewrite (saveToJSON_spec _ _ _ Hc Hw).
    unfold value, after. cbn [fst snd files stdout].
    split; [|split; [done | split; [|done]]].
    + intros _. split; [done |]. intros _.
      by rewrite lookup_insert_eq, Encode_pretty.
    + intros other Hne. by rewrite lookup_insert_ne.
Qed.

Lemma saveToJSON_document_witness :
  files (after (saveToJSON
                  (mk_slice [ mkProgram "Alpha" "1.0" "C:\Alpha";
                              mkProgram "Beta" "" "" ])
                  "programs.json" Fake.emptyWorld)) !! "programs.json"
  = Some ("[" +:+ nl
          +:+ "  {" +:+ nl
          +:+ "    " +:+ dquote +:+ "Name" +:+ dquote +:+ ": "
              +:+ dquote +:+ "Alpha" +:+ dquote +:+ "," +:+ nl
          +:+ "    " +:+ dquote +:+ "Version" +:+ dquote +:+ ": "
              +:+ dquote +:+ "1.0" +:+ dquote +:+ "," +:+ nl
          +:+ "    " +:+ dquote +:+ "Path" +:+ dquote +:+ ": "
              +:+ dquote +:+ "C:\\Alpha" +:+ dquote +:+ nl
          +:+ "  }," +:+ nl
          +:+ "  {" +:+ nl
          +:+ "    " +:+ dquote +:+ "Name" +:+ dquote +:+ ": "
              +:+ dquote +:+ "Beta" +:+ dquote +:+ "," +:+ nl
          +:+ "    " +:+ dquote +:+ "Version" +:+ dquote +:+ ": "
              +:+ dquote +:+ dquote +:+ "," +:+ nl
          +:+ "    " +:+ dquote +:+ "Path" +:+ dquote +:+ ": "
              +:+ dquote +:+ dquote +:+ nl
          +:+ "  }" +:+ nl
          +:+ "]" +:+ nl).
Proof.
  destruct (saveToJSON_document
              (mk_slice [ mkProgram "Alpha" "1.0" "C:\Alpha";
                          mkProgram "Beta" "" "" ])
              "programs.json" Fake.emptyWorld eq_refl)
    as (Hdone & _).
  destruct (Hdone eq_refl) as (_ & Hfile).
  rewrite Hfile; [vm_compute; reflexivity | repeat constructor].
Defined.

(** C7, amended: a slice of programs whose names, versions and paths are
    valid UTF-8 is read back, nil or not, from the document [json.Encode]
    writes for it, and so from the file [saveToJSON] leaves when the file is
    created and the write of the document goes through: as many programs,
    with the same three fields each. *)
Theorem json_round_trip (programs : Slice Program) :
  Forall (fun p => validProgram p = true) (elems programs) ->
  readPrograms (json.Encode (toStructs programs)) = Some programs
  /\ (forall filename w,
        create_error w filename = None ->
        write_error w filename = None ->
        exists doc,
          files (after (saveToJSON programs filename w)) !! filename = Some doc
          /\ readPrograms doc = Some programs).
Proof.
  intros Hv. split; [by apply read_Encode |].
  intros filename w Hc Hw. exists (json.Encode (toStructs programs)).
  split; [|by apply read_Encode].
  rewrite (saveToJSON_spec _ _ _ Hc Hw). unfold after. cbn [snd files].
  apply lookup_insert_eq.
Qed.

Lemma json_round_trip_witness :
  readPrograms
    (json.Encode
       (toStructs
          (mk_slice [ mkProgram "Alpha <1>" "1.0" "C:\Alpha";
                      mkProgram ("Caf" +:+ utf8.EncodeRune 0xE9) "" "" ])))
  = Some (mk_slice [ mkProgram "Alpha <1>" "1.0" "C:\Alpha";
                     mkProgram ("Caf" +:+ utf8.EncodeRune 0xE9) "" "" ]).
Proof.
  apply (json_round_trip
           (mk_slice [ mkProgram "Alpha <1>" "1.0" "C:\Alpha";
                       mkProgram ("Caf" +:+ utf8.EncodeRune 0xE9) "" "" ])).
  repeat constructor.
Defined.

(** C7, as stated, fails: a name that is the single byte 255 is not valid
    UTF-8, and the program read back from the document has the three bytes
    of the replacement character U+FFFD as its name. *)
Lemma invalid_utf8_name_is_replaced :
  let programs :=
    mk_slice [ mkProgram (String (ascii_of_nat 255) EmptyString) "" "" ] in
  utf8.ValidString (String (ascii_of_nat 255) EmptyString) = false
  /\ readPrograms (json.Encode (toStructs programs))
     = Some (mk_slice [ mkProgram (utf8.EncodeRune utf8.RuneError) "" "" ])
  /\ readPrograms (json.Encode (toStructs programs)) <> Some programs.
Proof.
  cbv zeta. split; [reflexivity |].
  assert (readPrograms
            (json.Encode
               (toStructs
                  (mk_slice
                     [ mkProgram (String (ascii_of_nat 255) EmptyString) "" "" ])))
          = Some (mk_slice [ mkProgram (utf8.EncodeRune utf8.RuneError) "" "" ]))
    as H by (vm_compute; reflexivity).
  split; [exact H |]. rewrite H. vm_compute. discriminate.
Qed.

(** ** The choice of the export *)

Lemma Printed_last (w : World) (out msg : string) :
  Printed msg w (say (say w out) msg).
Proof.
  exists out, EmptyString. cbn [stdout say].
  by rewrite append_nil_r, append_assoc.
Qed.

Lemma Encode_head (v : Slice json.Struct) :
  exists s, json.Encode v = String "n" s \/ json.Encode v = String "[" s.
Proof.
  destruct v as [|l]; eexists.
  - left. reflexivity.
  - right. reflexivity.
Qed.

Lemma Encode_not_textReport (v : Slice json.Struct) (l : list Program) :
  json.Encode v <> textReport l.
Proof.
  destruct (Encode_head v) as [s [H|H]]; rewrite H;
    unfold textReport, reportHeader; cbn [String.append]; discriminate.
Qed.

Section Run.
Context {R : API}.
Variable unicode_ToLower : Z -> Z.

(** What [scanCmd.Run] does once the scan is over. *)
Lemma scanCmd_Run_after_scan (outputFile : string) :
  exists out, forall w,
    scanCmd_Run unicode_ToLower outputFile w
    = (let programs :=
         append (append nil_slice (rootRecords root64)) (rootRecords root32) in
       if negb (is_empty outputFile) then
         if Strings.HasSuffix (Strings.ToLower unicode_ToLower outputFile) ".json"
         then
           let! err := saveToJSON programs outputFile in
           match err with
           | Some err => Print ("Error saving to JSON: " +:+ err +:+ nl)
           | None => Print (nl +:+ "Results saved to JSON: " +:+ outputFile +:+ nl)
           end
         else
           let! err := saveToText programs outputFile in
           match err with
           | Some err => Print ("Error saving to text: " +:+ err +:+ nl)
           | None => Print (nl +:+ "Results saved to text: " +:+ outputFile +:+ nl)
           end
       else displayResults programs) (say w out).
Proof.
  destruct (@scanAllPrograms_Prints R) as (o64 & o32 & H).
  eexists. intros w. unfold scanCmd_Run, Println.
  rewrite (bind_eq _ _ _ _ _ (Prints_Print _ _)).
  rewrite (bind_eq _ _ _ _ _ (Prints_Print _ _)).
  rewrite (bind_eq _ _ _ _ _ (H _)).
  rewrite !say_say. reflexivity.
Qed.

(** C10, amended: with no output path [scanCmd.Run] lists the programs
    on the console and writes no file; with an output path whose
    lower-cased form ends in [.json] (so also a path ending in [.JSON]) it
    takes the JSON export, which writes the JSON document there, or, when
    the write of the document fails, reports the encoding error; with any
    other output path it writes the text report there. *)
Theorem export_format_by_suffix (outputFile : string) (w : World) :
  let programs := fst (value (scanAllPrograms w)) in
  let w' := after (scanCmd_Run unicode_ToLower outputFile w) in
  (outputFile = EmptyString ->
     files w' = files w
     /\ Printed (consoleBanner (slice_len programs) +:+ blocks 0 (elems programs))
                w w')
  /\ (outputFile <> EmptyString ->
      create_error w outputFile = None ->
      (Strings.HasSuffix (Strings.ToLower unicode_ToLower outputFile) ".json" = true ->
         write_error w outputFile = None ->
         files w' !! outputFile = Some (json.Encode (toStructs programs))
         /\ Printed (nl +:+ "Results saved to JSON: " +:+ outputFile +:+ nl) w w')
      /\ (Strings.HasSuffix (Strings.ToLower unicode_ToLower outputFile) ".json" = true ->
          forall n e,
            write_error w outputFile = Some (n, e) ->
            Printed ("Error saving to JSON: failed to encode JSON: " +:+ e +:+ nl)
                    w w')
      /\ (Strings.HasSuffix (Strings.ToLower unicode_ToLower outputFile) ".json" = false ->
            files w' !! outputFile = Some (textReport (elems programs))
            /\ Printed (nl +:+ "Results saved to text: " +:+ outputFile +:+ nl) w w')
      /\ (write_error w outputFile = None ->
          (files w' !! outputFile = Some (json.Encode (toStructs programs))
           <-> Strings.HasSuffix (Strings.ToLower unicode_ToLower outputFile) ".json"
               = true))).
Proof.
  intros programs w'. subst programs w'.
  destruct (scanCmd_Run_after_scan outputFile) as [out H].
  rewrite H, scanAllPrograms_value. cbn [fst]. cbv zeta.
  set (programs :=
         append (append nil_slice (rootRecords root64)) (rootRecords root32)).
  split.
  - intros ->. cbn [is_empty negb]. rewrite displayResults_Prints.
    unfold after. cbn [snd]. split; [done | apply Printed_last].
  - intros Hne Hc. apply is_empty_false in Hne. rewrite Hne. cbn [negb].
    assert (create_error (say w out) outputFile = None) as Hc' by done.
    destruct (Strings.HasSuffix (Strings.ToLower unicode_ToLower outputFile) ".json")
      eqn:E.
    + destruct (write_error w outputFile) as [[n e]|] eqn:Hw.
      * assert (write_error (say w out) outputFile = Some (n, e)) as Hw' by done.
        rewrite (bind_eq _ _ _ _ _ (saveToJSON_short _ _ _ _ _ Hc' Hw')).
        unfold after, Print. cbn [snd files stdout create_error write_error say].
        split; [done |]. split; [|split; done].
        intros _ n' e' [= <- <-].
        exists out, EmptyString. by rewrite append_nil_r, append_assoc.
      * assert (write_error (say w out) outputFile = None) as Hw' by done.
        rewrite (bind_eq _ _ _ _ _ (saveToJSON_spec _ _ _ Hc' Hw')).
        unfold after, Print. cbn [snd files stdout create_error write_error say].
        assert (<[outputFile := json.Encode (toStructs programs)]> (files w)
                  !! outputFile
                = Some (json.Encode (toStructs programs))) as Hf
          by apply lookup_insert_eq.
        split; [|split; [done | split; [done | done]]].
        intros _ _. split; [exact Hf |].
        exists out, EmptyString. by rewrite append_nil_r, append_assoc.
    + rewrite (bind_eq _ _ _ _ _ (saveToText_spec _ _ _ Hc')).
      unfold after, Print. cbn [snd files stdout create_error write_error say].
      assert (<[outputFile := reportHeader (slice_len programs)
                              +:+ blocks 0 (elems programs)]> (files w)
                !! outputFile
              = Some (textReport (elems programs))) as Hf
        by apply lookup_insert_eq.
      split; [done |]. split; [done |]. split.
      * intros _. split; [exact Hf |].
        exists out, EmptyString. by rewrite append_nil_r, append_assoc.
      * intros _. rewrite Hf. split; [|done]. intros [= Heq]. symmetry in Heq.
        by apply Encode_not_textReport in Heq.
Qed.

End Run.

(** ** The claims on concrete stores *)

(** The scenario of the specification: the entry without a display name is
    left out, and the entry of the second root comes last. *)
Example scenario_records :
  elems (fst (value (@scanAllPrograms (Fake.api Fake.scenario) Fake.emptyWorld)))
  = [ mkProgram "Alpha" "1.0" "C:\Alpha"; mkProgram "Beta" "" "" ].
Proof. vm_compute. reflexivity. Qed.

(** C3, as stated, fails: the only subkey of the first root has a display
    name (three spaces), and the output holds no record at all, so none
    with an empty name. *)
Lemma blank_display_name_not_kept :
  @GetStringValue (Fake.api Fake.blankStore)
    (Fake.AtSubkey (Fake.mkSubkey None
                      [("DisplayName", "   "); ("DisplayVersion", "3.1")]))
    "DisplayName" = Ok "   "
  /\ elems (fst (value (@scanAllPrograms (Fake.api Fake.blankStore)
                          Fake.emptyWorld))) = []
  /\ ~ (exists p,
          In p (elems (fst (value (@scanAllPrograms (Fake.api Fake.blankStore)
                                     Fake.emptyWorld))))
          /\ Name p = EmptyString).
Proof.
  split; [reflexivity |].
  assert (elems (fst (value (@scanAllPrograms (Fake.api Fake.blankStore)
                               Fake.emptyWorld))) = []) as H
    by (vm_compute; reflexivity).
  split; [exact H |]. rewrite H. intros (p & [] & _).
Qed.

Lemma blank_display_name_is_skipped_witness :
  @kept (Fake.api Fake.blankStore) (Fake.AtRoot Fake.blankRoot) "Blank" = None
  /\ @getProgramFromSubkey (Fake.api Fake.blankStore)
       (Fake.AtRoot Fake.blankRoot) "Blank"
     = (mkProgram "" "3.1" "", None).
Proof.
  apply (@blank_display_name_is_skipped (Fake.api Fake.blankStore)
           (Fake.AtRoot Fake.blankRoot) "Blank"
           (Fake.AtSubkey (Fake.mkSubkey None
                             [("DisplayName", "   "); ("DisplayVersion", "3.1")]))
           "   "); [reflexivity | reflexivity | left; reflexivity].
Defined.

Lemma getProgramFromSubkey_fields_witness :
  exists subkey v,
    @OpenKey (Fake.api []) (Fake.AtRoot Fake.paddedRoot) "Foo" QUERY_VALUE
    = Ok subkey
    /\ @GetStringValue (Fake.api []) subkey "DisplayName" = Ok v
    /\ "Foo" = Strings.TrimSpace v
    /\ "" = @optionalField (Fake.api []) subkey "DisplayVersion"
    /\ "" = @optionalField (Fake.api []) subkey "InstallLocation".
Proof.
  apply (@getProgramFromSubkey_fields (Fake.api [])
           (Fake.AtRoot Fake.paddedRoot) "Foo" (mkProgram "Foo" "" "")).
  vm_compute. reflexivity.
Defined.

Lemma root_failure_is_a_warning_witness :
  snd (value (@scanAllPrograms (Fake.api Fake.secondOnly) Fake.emptyWorld)) = None
  /\ elems (fst (value (@scanAllPrograms (Fake.api Fake.secondOnly)
                          Fake.emptyWorld)))
     = [ mkProgram "Beta" "" "" ]
  /\ Printed
       ("Warning: Could not scan 64-bit programs: "
        +:+ "failed to open registry key: The system cannot find the file specified."
        +:+ nl)
       Fake.emptyWorld
       (after (@scanAllPrograms (Fake.api Fake.secondOnly) Fake.emptyWorld)).
Proof.
  assert (@RootFails (Fake.api Fake.secondOnly) root64
            ("failed to open registry key: " +:+ Fake.not_found)) as Hfail.
  { left. exists Fake.not_found. split; reflexivity. }
  destruct (root_failure_is_a_warning (Fake.api Fake.secondOnly) Fake.emptyWorld
              (or_introl (ex_intro _ _ Hfail)))
    as (Herr & H64 & _ & _).
  destruct (H64 _ Hfail) as (Hp & _ & He & _).
  split; [exact Herr |]. split; [|exact Hp].
  rewrite He. vm_compute. reflexivity.
Defined.

Lemma saveToText_report_witness :
  files (after (saveToText
                  (mk_slice [ mkProgram "Alpha" "1.0" "C:\Alpha";
                              mkProgram "Beta" "" "" ])
                  "programs.txt" Fake.emptyWorld)) !! "programs.txt"
  = Some (("WinClone - Installed Programs List" +:+ nl)
          +:+ ("Generated on: 2025-01-14" +:+ nl)
          +:+ ("Total programs found: 2" +:+ nl)
          +:+ ("==================================================" +:+ nl)
          +:+ nl
          +:+ ("1. Alpha (v1.0)" +:+ nl)
          +:+ ("   Path: C:\Alpha" +:+ nl)
          +:+ nl
          +:+ ("2. Beta" +:+ nl)
          +:+ nl).
Proof.
  destruct (saveToText_report
              (mk_slice [ mkProgram "Alpha" "1.0" "C:\Alpha";
                          mkProgram "Beta" "" "" ])
              "programs.txt" Fake.emptyWorld eq_refl)
    as (_ & Hfile & _).
  rewrite Hfile. vm_compute. reflexivity.
Defined.

(** C10, as stated, fails: for the output path [out.JSON], which ends in
    [.JSON] before lower-casing, [scanCmd.Run] writes the JSON document and
    not the text report. *)
Lemma upper_case_json_suffix_is_json :
  let w' :=
    after (@scanCmd_Run (Fake.api Fake.scenario) (fun r => r) "out.JSON"
             Fake.emptyWorld) in
  let programs := [ mkProgram "Alpha" "1.0" "C:\Alpha"; mkProgram "Beta" "" "" ] in
  files w' !! "out.JSON" = Some (json.Encode (toStructs (mk_slice programs)))
  /\ files w' !! "out.JSON" <> Some (textReport programs).
Proof.
  cbv zeta.
  assert (files (after (@scanCmd_Run (Fake.api Fake.scenario) (fun r => r)
                          "out.JSON" Fake.emptyWorld)) !! "out.JSON"
          = Some (json.Encode
                    (toStructs
                       (mk_slice [ mkProgram "Alpha" "1.0" "C:\Alpha";
                                   mkProgram "Beta" "" "" ])))) as H
    by (vm_compute; reflexivity).
  split; [exact H |]. rewrite H. intros Heq.
  apply (inj Some) in Heq. by apply Encode_not_textReport in Heq.
Qed.

Lemma export_format_by_suffix_witness :
  let w' :=
    after (@scanCmd_Run (Fake.api Fake.scenario) (fun r => r) "programs"
             Fake.emptyWorld) in
  files w' !! "programs"
  = Some (textReport [ mkProgram "Alpha" "1.0" "C:\Alpha"; mkProgram "Beta" "" "" ]).
Proof.
  cbv zeta.
  destruct (@export_format_by_suffix (Fake.api Fake.scenario) (fun r => r)
              "programs" Fake.emptyWorld) as (_ & Hfile).
  destruct (Hfile ltac:(discriminate) eq_refl) as (_ & _ & Htext & _).
  destruct (Htext eq_refl) as (-> & _).
  vm_compute. reflexivity.
Defined.

(** The suffix test on some paths: the case of the extension does not
    matter, and only the end of the path counts. *)
Example suffix_test_examples :
  map (fun p => Strings.HasSuffix (Strings.ToLower (fun r => r) p) ".json")
      [ "programs.json"; "programs.JSON"; "Programs.Json"; ".json";
        "programs.txt"; "programs"; "programs.json.bak"; "json"; "a.jsonx" ]
  = [ true; true; true; true; false; false; false; false; false ].
Proof. vm_compute. reflexivity. Qed.

(** C6 at the empty result: when no program is found (here, when neither
    root exists) the slice handed to [saveToJSON] is nil and the document
    written is [null], not an array. *)
Theorem saveToJSON_of_no_programs_is_null :
  let scanned := @scanAllPrograms (Fake.api []) Fake.emptyWorld in
  let w' :=
    after (@scanCmd_Run (Fake.api []) (fun r => r) "programs.json"
             Fake.emptyWorld) in
  fst (value scanned) = nil_slice
  /\ files w' !! "programs.json" = Some ("null" +:+ nl)
  /\ json.Encode (toStructs (mk_slice [])) = "[]" +:+ nl.
Proof. cbv zeta. split; [|split]; vm_compute; reflexivity. Qed.

(** * Further properties *)

Import Transcript Observed Repair Blank.

(** ** The console and the files *)

Lemma done_step (i : Z) :
  0 <= i ->
  (Z.rem i 50 =? 0) && (0 <? i) = true ->
  Z.to_nat ((i + 1 - 1) / 50) = S (Z.to_nat ((i - 1) / 50))
  /\ 50 * Z.of_nat (S (Z.to_nat ((i - 1) / 50))) = i.
Proof.
  intros Hi H. apply andb_true_iff in H as [Hr Hp].
  apply Z.eqb_eq in Hr. apply Z.ltb_lt in Hp.
  rewrite Z.rem_mod_nonneg in Hr by lia.
  assert ((i + 1 - 1) / 50 = (i - 1) / 50 + 1) as E
    by (Z.div_mod_to_equations; lia).
  assert (0 <= (i - 1) / 50) by (Z.div_mod_to_equations; lia).
  split.
  - rewrite E. lia.
  - rewrite Nat2Z.inj_succ, Z2Nat.id by lia. Z.div_mod_to_equations; lia.
Qed.

Lemma done_stay (i : Z) :
  0 <= i ->
  (Z.rem i 50 =? 0) && (0 <? i) = false ->
  Z.to_nat ((i + 1 - 1) / 50) = Z.to_nat ((i - 1) / 50).
Proof.
  intros Hi H. apply andb_false_iff in H.
  destruct (Z.eq_dec i 0) as [->|Hne]; [reflexivity |].
  destruct H as [Hr|Hp]; [|apply Z.ltb_ge in Hp; lia].
  apply Z.eqb_neq in Hr. rewrite Z.rem_mod_nonneg in Hr by lia.
  f_equal. Z.div_mod_to_equations; lia.
Qed.

Section Progress.
Context {R : API}.

(** The loop of [scanRegistryLocation] prints the progress lines of the
    indices it crosses, whatever the subkeys hold. *)
Lemma scanSubkeys_progress (key : Key) (total : Z) (names : list string) :
  forall (i : Z) (programs : Slice Program),
    0 <= i ->
    exists out,
      Prints (scanSubkeys key total names i programs)
             (append programs (omap (kept key) names)) out
      /\ progressUpTo (Z.to_nat ((i - 1) / 50)) total +:+ out
         = progressUpTo (Z.to_nat ((i + Z.of_nat (length names) - 1) / 50)) total.
Proof.
  induction names as [|name names IH]; intros i programs Hi.
  - exists EmptyString. split; [apply Prints_ret |].
    cbn [length Z.of_nat]. by rewrite append_nil_r, Z.add_0_r.
  - assert (exists out',
              Prints (scanSubkeys key total names (i + 1)
                        (append programs
                           (match kept key name with Some p => [p] | None => [] end)))
                (append programs (omap (kept key) (name :: names))) out'
              /\ progressUpTo (Z.to_nat ((i + 1 - 1) / 50)) total +:+ out'
                 = progressUpTo
                     (Z.to_nat ((i + Z.of_nat (length (name :: names)) - 1) / 50))
                     total) as (out' & Hout' & Heq).
    { destruct (IH (i + 1)
                  (append programs
                     (match kept key name with Some p => [p] | None => [] end)))
        as (o & Ho & He); [lia |].
      exists o. split.
      - cbn [omap list_omap]. destruct (kept key name) as [p|].
        + by rewrite <- (append_append programs p (omap (kept key) names)).
        + exact Ho.
      - rewrite He. f_equal. f_equal. f_equal. cbn [length]. lia. }
    assert (scanSubkeys key total (name :: names) i programs
            = ((if (Z.rem i 50 =? 0) && (0 <? i)
                then Print (progressLine i total) else ret tt) ;;;
               scanSubkeys key total names (i + 1)
                 (append programs
                    (match kept key name with Some p => [p] | None => [] end))))
      as ->.
    { cbn [scanSubkeys]. unfold kept, progressLine. f_equal.
      destruct (getProgramFromSubkey key name) as [program [err|]]; [done |].
      by destruct (negb (is_empty (Name program))). }
    destruct ((Z.rem i 50 =? 0) && (0 <? i)) eqn:E.
    + destruct (done_step i Hi E) as [Hs Hv].
      exists (progressLine i total +:+ out'). split.
      * eapply Prints_bind; [apply Prints_Print | exact Hout'].
      * rewrite <- Heq, Hs. cbn [progressUpTo]. rewrite Hv.
        by rewrite append_assoc.
    + exists out'. split.
      * eapply Prints_ext; [|eapply Prints_bind; [apply Prints_ret | exact Hout']].
        reflexivity.
      * rewrite <- Heq. by rewrite (done_stay i Hi E).
Qed.

End Progress.

Section ScanTranscript.
Context {R : API}.

Lemma progressUpTo_start (total : Z) :
  progressUpTo (Z.to_nat ((0 - 1) / 50)) total = EmptyString.
Proof. reflexivity. Qed.

(** What [scanRegistryLocation] prints is fixed by the path, by the step
    that fails (if any) and by the number of subkeys. *)
Lemma scanRegistryLocation_prints (path : string) :
  Prints (scanRegistryLocation path) (rootOutcome path) (rootTranscript path).
Proof.
  unfold scanRegistryLocation, rootOutcome, rootTranscript.
  destruct (OpenKey _ _ _) as [key|e0].
  - destruct (ReadSubKeyNames _ _) as [names|e0].
    + destruct (scanSubkeys_progress key (Z.of_nat (length names)) names 0 nil_slice)
        as (o & Ho & He); [lia |].
      rewrite progressUpTo_start in He. cbn [String.append] in He.
      rewrite Z.add_0_l in He. fold (progressLines (Z.of_nat (length names))) in He.
      subst o.
      eapply Prints_ext;
        [| eapply Prints_bind; [apply Prints_Print |];
           eapply Prints_bind; [apply Prints_Print |];
           eapply Prints_bind; [apply Prints_Print |];
           eapply Prints_bind; [apply Ho | apply Prints_ret] ].
      repeat (rewrite (append_assoc _ _ _)). by rewrite append_nil_r.
    + eapply Prints_ext;
        [| eapply Prints_bind; [apply Prints_Print |];
           eapply Prints_bind; [apply Prints_Print | apply Prints_ret] ].
      repeat (rewrite (append_assoc _ _ _)). by rewrite !append_nil_r.
  - eapply Prints_ext;
      [| eapply Prints_bind; [apply Prints_Print | apply Prints_ret] ].
    repeat (rewrite (append_assoc _ _ _)). by rewrite !append_nil_r.
Qed.

Lemma scanAllPrograms_prints :
  Prints scanAllPrograms (scanned, None) scanTranscript.
Proof.
  assert (Prints scanAllPrograms (scanned, None)
            (("Step 1: Scanning 64-bit programs..." +:+ nl)
             +:+ ("Location: SOFTWARE\Microsoft\Windows\CurrentVersion\Uninstall"
                  +:+ nl)
             +:+ rootTranscript root64
             +:+ rootReport "64-bit" (rootOutcome root64)
             +:+ ((nl +:+ "Step 2: Scanning 32-bit programs...") +:+ nl)
             +:+ ("Location: SOFTWARE\WOW6432Node\Microsoft\Windows\CurrentVersion\Uninstall"
                  +:+ nl)
             +:+ rootTranscript root32
             +:+ rootReport "32-bit" (rootOutcome root32))) as H.
  { unfold scanAllPrograms, Println, scanned.
    rewrite !rootRecords_outcome.
    eapply Prints_bind; [apply Prints_Print |].
    eapply Prints_bind; [apply Prints_Print |].
    eapply Prints_bind; [apply (scanRegistryLocation_prints root64) |].
    destruct (rootOutcome root64) as [p64 e64] eqn:E64.
    eapply Prints_bind.
    { apply (collect_Prints "64-bit" nil_slice (p64, e64)).
      intros e He. rewrite <- E64. apply (rootOutcome_failed _ e).
      by rewrite E64. }
    eapply Prints_bind; [apply Prints_Print |].
    eapply Prints_bind; [apply Prints_Print |].
    eapply Prints_bind; [apply (scanRegistryLocation_prints root32) |].
    destruct (rootOutcome root32) as [p32 e32] eqn:E32.
    rewrite <- (append_nil_r (rootReport "32-bit" _)).
    eapply Prints_bind; [| apply Prints_ret].
    apply (collect_Prints "32-bit" _ (p32, e32)).
    intros e He. rewrite <- E32. apply (rootOutcome_failed _ e).
    by rewrite E32. }
  eapply Prints_ext; [|exact H]. unfold scanTranscript.
  generalize (rootTranscript root64) (rootTranscript root32)
             (rootReport "64-bit" (rootOutcome root64))
             (rootReport "32-bit" (rootOutcome root32)).
  intros a b c d.
  repeat (rewrite (append_assoc _ _ _)). reflexivity.
Qed.

End ScanTranscript.

Section RunFacts.
Context {R : API}.
Variable unicode_ToLower : Z -> Z.

Lemma os_Create_refused (name : string) (w : World) (e : error) :
  create_error w name = Some e -> os_Create name w = (Err e, w).
Proof. intros H. unfold os_Create. by rewrite H. Qed.

(** An exporter that cannot create its file returns the error of the host
    with a prefix, and leaves the world as it was. *)
Lemma saveToJSON_refused (programs : Slice Program) (filename : string)
    (w : World) (e : error) :
  create_error w filename = Some e ->
  saveToJSON programs filename w = (Some ("failed to create file: " +:+ e), w).
Proof.
  intros H. unfold saveToJSON. by rewrite (bind_eq _ _ _ _ _ (os_Create_refused _ _ _ H)).
Qed.

Lemma saveToText_refused (programs : Slice Program) (filename : string)
    (w : World) (e : error) :
  create_error w filename = Some e ->
  saveToText programs filename w = (Some ("failed to create file: " +:+ e), w).
Proof.
  intros H. unfold saveToText. by rewrite (bind_eq _ _ _ _ _ (os_Create_refused _ _ _ H)).
Qed.

Lemma scanCmd_Run_world (outputFile : string) (w : World) :
  scanCmd_Run unicode_ToLower outputFile w
  = (tt,
     mkWorld
       (stdout w +:+ runHeader +:+ scanTranscript
        +:+ outcomeLines (Strings.ToLower unicode_ToLower) outputFile
              (create_error w outputFile) (write_error w outputFile))
       (filesAfter (Strings.ToLower unicode_ToLower) outputFile
          (create_error w outputFile) (write_error w outputFile) (files w))
       (create_error w) (write_error w)).
Proof.
  unfold scanCmd_Run, Println, filesAfter, outcomeLines.
  rewrite (bind_eq _ _ _ _ _ (Prints_Print _ _)).
  rewrite (bind_eq _ _ _ _ _ (Prints_Print _ _)).
  rewrite (bind_eq _ _ _ _ _ (scanAllPrograms_prints _)).
  rewrite !say_say.
  set (pre := ("WinClone - Scanning installed programs..." +:+ nl)
              +:+ ("==========================================" +:+ nl)
              +:+ scanTranscript).
  assert (forall x, stdout w +:+ runHeader +:+ scanTranscript +:+ x
                    = stdout w +:+ pre +:+ x) as Hpre.
  { intros x. subst pre. unfold runHeader.
    generalize scanTranscript. intros t. reflexivity. }
  rewrite Hpre. clear Hpre.
  destruct (is_empty outputFile) eqn:Hempty; cbn [negb].
  - rewrite displayResults_Prints. unfold say. cbn [stdout files create_error write_error].
    by rewrite append_assoc.
  - assert (create_error (say w pre) outputFile = create_error w outputFile)
      as Hce by done.
    destruct (Strings.HasSuffix (Strings.ToLower unicode_ToLower outputFile) ".json").
    + destruct (create_error w outputFile) as [e|] eqn:Hc.
      * rewrite (bind_eq _ _ _ _ _ (saveToJSON_refused _ _ _ _ Hce)).
        unfold Print, say. cbn [stdout files create_error write_error].
        by rewrite !append_assoc.
      * assert (write_error (say w pre) outputFile = write_error w outputFile)
          as Hwe by done.
        destruct (write_error w outputFile) as [[n e]|] eqn:Hw.
        -- rewrite (bind_eq _ _ _ _ _ (saveToJSON_short _ _ _ _ _ Hce Hwe)).
           unfold Print, say. cbn [stdout files create_error write_error].
           by rewrite !append_assoc.
        -- rewrite (bind_eq _ _ _ _ _ (saveToJSON_spec _ _ _ Hce Hwe)).
           unfold Print, say. cbn [stdout files create_error write_error].
           by rewrite !append_assoc.
    + destruct (create_error w outputFile) as [e|] eqn:Hc.
      * rewrite (bind_eq _ _ _ _ _ (saveToText_refused _ _ _ _ Hce)).
        unfold Print, say. cbn [stdout files create_error write_error].
        by rewrite !append_assoc.
      * rewrite (bind_eq _ _ _ _ _ (saveToText_spec _ _ _ Hce)).
        unfold Print, say. cbn [stdout files create_error write_error].
        by rewrite !append_assoc.
Qed.

End RunFacts.

Section RunTheorems.
Context {R : API}.
Variable unicode_ToLower : Z -> Z.

Lemma progressLines_small (total : Z) :
  total <= 50 -> progressLines total = EmptyString.
Proof.
  intros H. unfold progressLines.
  replace (Z.to_nat ((total - 1) / 50)) with 0%nat; [done |].
  assert ((total - 1) / 50 <= 0) by (Z.div_mod_to_equations; lia). lia.
Qed.

Lemma progressLines_next (total : Z) (k : Z) :
  0 <= k -> 50 * k < total <= 50 * (k + 1) ->
  progressLines total = progressUpTo (Z.to_nat k) total.
Proof.
  intros Hk H. unfold progressLines. do 2 f_equal.
  Z.div_mod_to_equations; lia.
Qed.

(** [scanRegistryLocation] returns the outcome of its root and prints the
    line that announces the opening; when the key opens, the line that
    announces the listing; and when the key lists, the number of subkeys
    followed by one progress line for each of the indices 50, 100, ... below
    that number: none for 50 subkeys or fewer.  What it prints does not
    depend on what the subkeys hold. *)
Theorem scanRegistryLocation_console (path : string) (w : World) :
  scanRegistryLocation path w = (rootOutcome path, say w (rootTranscript path))
  /\ (forall e,
        OpenKey LOCAL_MACHINE path (Z.lor ENUMERATE_SUB_KEYS QUERY_VALUE) = Err e ->
        rootTranscript path = "  Opening registry key: " +:+ path +:+ nl)
  /\ (forall key e,
        OpenKey LOCAL_MACHINE path (Z.lor ENUMERATE_SUB_KEYS QUERY_VALUE) = Ok key ->
        ReadSubKeyNames key (-1) = Err e ->
        rootTranscript path
        = "  Opening registry key: " +:+ path +:+ nl
          +:+ "  Reading subkey names..." +:+ nl)
  /\ (forall key names,
        OpenKey LOCAL_MACHINE path (Z.lor ENUMERATE_SUB_KEYS QUERY_VALUE) = Ok key ->
        ReadSubKeyNames key (-1) = Ok names ->
        let n := Z.of_nat (length names) in
        rootTranscript path
        = "  Opening registry key: " +:+ path +:+ nl
          +:+ "  Reading subkey names..." +:+ nl
          +:+ "  Found " +:+ itoa n +:+ " subkeys to process" +:+ nl
          +:+ progressLines n
        /\ (n <= 50 -> progressLines n = EmptyString)
        /\ (forall k, 0 <= k -> 50 * k < n <= 50 * (k + 1) ->
              progressLines n = progressUpTo (Z.to_nat k) n)).
Proof.
  split; [apply scanRegistryLocation_prints |].
  unfold rootTranscript. split; [|split].
  - intros e ->. by rewrite append_nil_r.
  - intros key e -> ->. by rewrite append_nil_r.
  - intros key names Hk Hn. rewrite Hk, Hn. cbv zeta. split; [done |]. split.
    + apply progressLines_small.
    + apply progressLines_next.
Qed.

(** The console after [scanCmd.Run]: the two opening lines, what
    [scanAllPrograms] prints for the two roots, and then the listing (with
    no output path), or the line that reports the export to the output
    path, or, when the host refuses to create the file, the line that
    reports this error, or, when the file is created and the write of the
    JSON document fails, the line that reports the encoding error. *)
Theorem scanCmd_Run_console (outputFile : string) (w : World) :
  stdout (after (scanCmd_Run unicode_ToLower outputFile w))
  = stdout w +:+ runHeader +:+ scanTranscript
    +:+ outcomeLines (Strings.ToLower unicode_ToLower) outputFile
          (create_error w outputFile) (write_error w outputFile).
Proof. by rewrite scanCmd_Run_world. Qed.

(** [scanCmd.Run] changes no file but the one at the output path; it
    changes no file at all with no output path or when the host refuses to
    create the file; and the scan itself changes no file. *)
Theorem scanCmd_Run_touches_only_output (outputFile : string) (w : World) :
  let w' := after (scanCmd_Run unicode_ToLower outputFile w) in
  (forall other, other <> outputFile -> files w' !! other = files w !! other)
  /\ (outputFile = EmptyString -> files w' = files w)
  /\ (forall e, create_error w outputFile = Some e -> files w' = files w)
  /\ files (after (scanAllPrograms w)) = files w
  /\ create_error w' = create_error w.
Proof.
  cbv zeta. rewrite scanCmd_Run_world, scanAllPrograms_prints.
  unfold after, filesAfter. cbn [snd files create_error write_error say].
  split; [|split; [|split; [|done]]].
  - intros other Hne. destruct (is_empty outputFile); [done |].
    destruct (create_error w outputFile); [done |].
    by rewrite lookup_insert_ne.
  - by intros ->.
  - intros e ->. by destruct (is_empty outputFile).
Qed.

(** Running the command again with the same output path leaves the files
    as the first run left them: the export replaces the file, it does not
    add to it. *)
Theorem rerun_leaves_same_files (outputFile : string) (w : World) :
  let w1 := after (scanCmd_Run unicode_ToLower outputFile w) in
  files (after (scanCmd_Run unicode_ToLower outputFile w1)) = files w1
  /\ (forall content,
        outputFile <> EmptyString -> create_error w outputFile = None ->
        files w1
        = files (after (scanCmd_Run unicode_ToLower outputFile
                          (mkWorld (stdout w) (<[outputFile := content]> (files w))
                             (create_error w) (write_error w))))).
Proof.
  cbv zeta. rewrite !scanCmd_Run_world. unfold after, filesAfter.
  cbn [snd files create_error write_error]. split.
  - destruct (is_empty outputFile); [done |].
    destruct (create_error w outputFile); [done |].
    by rewrite insert_insert_eq.
  - intros content Hne Hc. apply is_empty_false in Hne. rewrite Hne, Hc.
    rewrite scanCmd_Run_world. unfold filesAfter. cbn [snd files create_error write_error].
    by rewrite Hne, Hc, insert_insert_eq.
Qed.

Lemma scanned_nil :
  rootRecords root64 ++ rootRecords root32 = [] -> scanned = nil_slice.
Proof.
  unfold scanned. intros H. apply app_eq_nil in H as [-> ->]. reflexivity.
Qed.

Lemma scanned_cons :
  rootRecords root64 ++ rootRecords root32 <> [] ->
  scanned = mk_slice (rootRecords root64 ++ rootRecords root32).
Proof.
  unfold scanned. intros H.
  destruct (rootRecords root64) as [|p l]; destruct (rootRecords root32) as [|q m];
    try done.
  cbn [append elems]. by rewrite app_nil_r.
Qed.

(** The JSON export of a scan to a file the host lets it create: after a
    write that went through, the document is [null] when no record was
    found on either root, and otherwise the array of the records found;
    and, written in full or not, the file is never the empty array. *)
Theorem empty_scan_is_exported_as_null (outputFile : string) (w : World) :
  Strings.HasSuffix (Strings.ToLower unicode_ToLower outputFile) ".json" = true ->
  create_error w outputFile = None ->
  let found := rootRecords root64 ++ rootRecords root32 in
  let doc := files (after (scanCmd_Run unicode_ToLower outputFile w)) !! outputFile in
  (write_error w outputFile = None ->
     (found = [] -> doc = Some ("null" +:+ nl))
     /\ (found <> [] -> doc = Some (prettyDocument (mk_slice found))))
  /\ doc <> Some ("[]" +:+ nl).
Proof.
  intros Hs Hc found doc. subst doc.
  assert (is_empty outputFile = false) as Hne.
  { destruct outputFile; [|done]. vm_compute in Hs. discriminate Hs. }
  rewrite scanCmd_Run_world. unfold after, filesAfter. cbn [snd files].
  rewrite Hne, Hc, Hs, lookup_insert_eq, Encode_pretty.
  assert (found = [] -> prettyDocument scanned = "null" +:+ nl) as Hnil.
  { intros H. by rewrite (scanned_nil H). }
  assert (found <> [] -> prettyDocument scanned = prettyDocument (mk_slice found))
    as Hcons.
  { intros H. by rewrite (scanned_cons H). }
  split.
  - intros ->. split.
    + intros H. by rewrite (Hnil H).
    + intros H. by rewrite (Hcons H).
  - destruct found as [|p l] eqn:E.
    + rewrite (Hnil eq_refl).
      destruct (write_error w outputFile) as [[[|n] e]|]; discriminate.
    + rewrite (Hcons ltac:(discriminate)). cbn [prettyDocument String.append].
      destruct (write_error w outputFile) as [[[|[|n]] e]|]; discriminate.
Qed.

End RunTheorems.

Lemma empty_scan_is_exported_as_null_witness :
  files (after (@scanCmd_Run (Fake.api []) (fun r => r) "programs.json"
                  Fake.emptyWorld)) !! "programs.json"
  = Some ("null" +:+ nl).
Proof.
  destruct (@empty_scan_is_exported_as_null (Fake.api []) (fun r => r)
              "programs.json" Fake.emptyWorld eq_refl eq_refl)
    as (H & _).
  apply (H eq_refl). reflexivity.
Defined.

(** ** What the scan looks at *)

Section Alike.
Variable K : Type.
Variable hklm : K.
Variables open1 open2 : K -> string -> Z -> result K.
Variables list1 list2 : K -> Z -> result (list string).
Variables read1 read2 : K -> string -> result string.

Let store1 : API := Build_API K hklm open1 list1 read1.
Let store2 : API := Build_API K hklm open2 list2 read2.

Hypothesis roots_alike :
  forall path, path = root64 \/ path = root32 ->
    open1 hklm path (Z.lor ENUMERATE_SUB_KEYS QUERY_VALUE)
    = open2 hklm path (Z.lor ENUMERATE_SUB_KEYS QUERY_VALUE).
Hypothesis subkeys_alike :
  forall k name, open1 k name QUERY_VALUE = open2 k name QUERY_VALUE.
Hypothesis listing_alike : forall k, list1 k (-1) = list2 k (-1).
Hypothesis values_alike :
  forall k field, queried field -> read1 k field = read2 k field.

Lemma getProgramFromSubkey_alike (key : K) (name : string) :
  @getProgramFromSubkey store1 key name = @getProgramFromSubkey store2 key name.
Proof.
  unfold getProgramFromSubkey. cbn [OpenKey GetStringValue store1 store2].
  rewrite subkeys_alike. destruct (open2 key name QUERY_VALUE) as [subkey|e]; [|done].
  rewrite (values_alike subkey "DisplayName") by (left; done).
  rewrite (values_alike subkey "DisplayVersion") by (right; left; done).
  rewrite (values_alike subkey "InstallLocation") by (right; right; done).
  done.
Qed.

Lemma scanSubkeys_alike (key : K) (total : Z) (names : list string) :
  forall i programs,
    @scanSubkeys store1 key total names i programs
    = @scanSubkeys store2 key total names i programs.
Proof.
  induction names as [|name names IH]; intros i programs; [done |].
  cbn [scanSubkeys]. rewrite getProgramFromSubkey_alike.
  destruct (@getProgramFromSubkey store2 key name) as [program [err|]].
  - by rewrite IH.
  - destruct (negb (is_empty (Name program))); by rewrite IH.
Qed.

Lemma scanRegistryLocation_alike (path : string) :
  path = root64 \/ path = root32 ->
  @scanRegistryLocation store1 path = @scanRegistryLocation store2 path.
Proof.
  intros Hp. unfold scanRegistryLocation.
  cbn [OpenKey ReadSubKeyNames LOCAL_MACHINE store1 store2].
  rewrite (roots_alike path Hp).
  destruct (open2 hklm path _) as [key|e]; [|done].
  rewrite listing_alike. destruct (list2 key (-1)) as [names|e]; [|done].
  by rewrite scanSubkeys_alike.
Qed.

Lemma scanAllPrograms_alike :
  @scanAllPrograms store1 = @scanAllPrograms store2.
Proof.
  unfold scanAllPrograms.
  rewrite (scanRegistryLocation_alike root64) by (by left).
  rewrite (scanRegistryLocation_alike root32) by (by right).
  done.
Qed.

(** The scan sees of the store only what it reads: two stores in
    which the two roots open alike, every key lists its subkeys and opens
    them for reading alike, and the values [DisplayName], [DisplayVersion]
    and [InstallLocation] read alike, give the same scan and the same run
    of the command, whatever else they hold. *)
Theorem scan_sees_only_what_it_reads (unicode_ToLower : Z -> Z)
    (outputFile : string) (w : World) :
  @scanAllPrograms store1 w = @scanAllPrograms store2 w
  /\ @scanCmd_Run store1 unicode_ToLower outputFile w
     = @scanCmd_Run store2 unicode_ToLower outputFile w.
Proof.
  split; [by rewrite scanAllPrograms_alike |].
  unfold scanCmd_Run. by rewrite scanAllPrograms_alike.
Qed.

End Alike.

Lemma scan_sees_only_what_it_reads_witness :
  @scanCmd_Run (Fake.api Fake.scenario) (fun r => r) "" Fake.emptyWorld
  = @scanCmd_Run (withPublisher Fake.scenario) (fun r => r) "" Fake.emptyWorld
  /\ @GetStringValue (Fake.api Fake.scenario) Fake.HKLM "Publisher"
     <> @GetStringValue (withPublisher Fake.scenario) Fake.HKLM "Publisher".
Proof.
  split; [|discriminate].
  apply (scan_sees_only_what_it_reads Fake.Handle Fake.HKLM
           (Fake.open Fake.scenario) (Fake.open Fake.scenario)
           (Fake.list_names Fake.scenario) (Fake.list_names Fake.scenario)
           Fake.read
           (fun k field =>
              if String.eqb field "Publisher" then Ok "ACME" else Fake.read k field)).
  - reflexivity.
  - reflexivity.
  - reflexivity.
  - intros k field [H | [H | H]]; rewrite H; reflexivity.
Defined.

(** ** The document, whatever the bytes *)

(** *** Repairing *)

Lemma repairFrom_copy (u t : string) :
  repairFrom (String.length u) (u +:+ t) = u +:+ repair t.
Proof.
  induction u as [|c u IH]; [done |].
  cbn [String.length String.append repairFrom]. by rewrite IH.
Qed.

Lemma repair_ascii (c : ascii) (t : string) :
  byte_val c < 0x80 -> repair (String c t) = String c (repair t).
Proof.
  intros Hc. unfold repair. cbn [repairFrom]. rewrite decode_ascii by done.
  assert ((byte_val c =? RuneError) = false) as ->
    by (apply Z.eqb_neq; unfold RuneError; lia).
  reflexivity.
Qed.

Lemma repair_bad (c : ascii) (t : string) :
  DecodeRuneInString (String c t) = (RuneError, 1) ->
  repair (String c t) = EncodeRune RuneError +:+ repair t.
Proof. intros Hd. unfold repair. cbn [repairFrom]. by rewrite Hd. Qed.

Lemma repair_multi (u : string) (r : Z) (t : string) :
  MultiRune u r -> repair (u +:+ t) = u +:+ repair t.
Proof.
  intros Hm.
  destruct (MultiRune_cons _ _ Hm) as (c & u' & -> & Hc & _ & Hk & _).
  pose proof (mr_len _ _ Hm) as Hl. pose proof (mr_decode _ _ Hm t) as Hd.
  cbn [String.append] in *. unfold repair at 1. cbn [repairFrom]. rewrite Hd.
  assert ((len (String c u') =? 1) = false) as -> by (apply Z.eqb_neq; lia).
  by rewrite andb_false_r, Hk, repairFrom_copy.
Qed.

Lemma MultiRune_RuneError : MultiRune (EncodeRune RuneError) RuneError.
Proof.
  assert (0xE0 <= byte_val (ascii_of_nat 239) < 0xF0) as H0
    by (change (byte_val (ascii_of_nat 239)) with 239; lia).
  exact (MultiRune_3 (ascii_of_nat 239) (ascii_of_nat 191) (ascii_of_nat 189)
           H0 eq_refl eq_refl).
Qed.

(** Valid strings are closed under concatenation. *)
Lemma Segs_app (a b : string) :
  Segs true a -> Segs true b -> Segs true (a +:+ b).
Proof.
  intros Ha Hb. induction Ha as [|c t Hc _ IH|c t Hs|u r t Hm _ IH].
  - exact Hb.
  - cbn [String.append]. by apply Segs_ascii.
  - discriminate.
  - rewrite append_assoc. by apply (Segs_multi _ u r).
Qed.

Lemma Segs_ValidString (s : string) : Segs true s -> ValidString s = true.
Proof.
  unfold ValidString.
  induction 1 as [|c t Hc _ IH|c t Hs|u r t Hm _ IH].
  - reflexivity.
  - cbn [validFrom]. rewrite decode_ascii by done.
    assert ((byte_val c =? RuneError) = false) as ->
      by (apply Z.eqb_neq; unfold RuneError; lia).
    exact IH.
  - discriminate.
  - destruct (MultiRune_cons _ _ Hm) as (c & u' & -> & Hc & _ & Hk & _).
    pose proof (mr_len _ _ Hm) as Hl. pose proof (mr_decode _ _ Hm t) as Hd.
    cbn [String.append] in *. cbn [validFrom]. rewrite Hd.
    assert ((len (String c u') =? 1) = false) as -> by (apply Z.eqb_neq; lia).
    by rewrite andb_false_r, Hk, validFrom_skip.
Qed.

Lemma ValidString_app (a b : string) :
  ValidString a = true -> ValidString b = true -> ValidString (a +:+ b) = true.
Proof.
  intros Ha Hb. apply Segs_ValidString, Segs_app; by apply Segs_valid.
Qed.

(** Repairing gives a valid string, and changes nothing in a valid one. *)
Lemma Segs_repair (s : string) : Segs true (repair s).
Proof.
  induction (Segs_all s) as [|c t Hc _ IH|c t _ Hc Hd _ IH|u r t Hm _ IH].
  - constructor.
  - rewrite repair_ascii by done. by apply Segs_ascii.
  - rewrite repair_bad by done.
    apply (Segs_multi _ _ RuneError); [apply MultiRune_RuneError | exact IH].
  - rewrite (repair_multi u r) by done. by apply (Segs_multi _ u r).
Qed.

Lemma repair_Segs (s : string) : Segs true s -> repair s = s.
Proof.
  induction 1 as [|c t Hc _ IH|c t Hs|u r t Hm _ IH].
  - reflexivity.
  - rewrite repair_ascii by done. by rewrite IH.
  - discriminate.
  - rewrite (repair_multi u r) by done. by rewrite IH.
Qed.

Lemma repair_valid (s : string) : ValidString s = true -> repair s = s.
Proof. intros Hv. by apply repair_Segs, Segs_valid. Qed.

Lemma ValidString_repair (s : string) : ValidString (repair s) = true.
Proof. apply Segs_ValidString, Segs_repair. Qed.

(** *** Reading back any string literal *)

Lemma unquote_replacement (X : string) :
  unquoteFrom 0 ("\ufffd" +:+ X)
  = emit (EncodeRune RuneError) (unquoteFrom 0 X).
Proof. reflexivity. Qed.

Lemma emit_Some (x d rest : string) :
  emit x (Some (d, rest)) = Some (x +:+ d, rest).
Proof. reflexivity. Qed.

(** A string literal is read back as the repaired form of the string it
    was made from. *)
Lemma unquote_escape_any (s : string) :
  forall rest,
    unquoteFrom 0 (escapeFrom (Copy 0) s +:+ dquote +:+ rest)
    = Some (repair s, rest).
Proof.
  induction (Segs_all s) as [|c t Hc _ IH|c t _ Hc Hd _ IH|u r t Hm _ IH];
    intros rest.
  - reflexivity.
  - rewrite escape_ascii, append_assoc, unquote_ascii, IH, repair_ascii by done.
    reflexivity.
  - rewrite escape_bad, append_assoc, unquote_replacement, IH, repair_bad by done.
    reflexivity.
  - rewrite (escape_multi u r), append_assoc, (unquote_rune u r), IH,
      (repair_multi u r) by done.
    reflexivity.
Qed.

Lemma parseString_appendString_any (s rest : string) :
  parseString (appendString s +:+ rest) = Some (repair s, rest).
Proof.
  unfold appendString, parseString. rewrite !append_assoc.
  change (dquote +:+ ?x) with (String (ascii_of_nat 34) x).
  change (byte_val (ascii_of_nat 34) =? 34) with true. cbv iota.
  apply unquote_escape_any.
Qed.

Lemma parseMembers_more_any (k : nat) (key val next X : string) :
  ValidString key = true ->
  parseMembers (S k)
    (appendString key +:+ ": " +:+ appendString val +:+ "," +:+ nl
     +:+ "    " +:+ appendString next +:+ X)
  = match parseMembers k (appendString next +:+ X) with
    | Some (ms, s5) => Some ((key, repair val) :: ms, s5)
    | None => None
    end.
Proof.
  intros Hk. cbn [parseMembers].
  rewrite (parseString_appendString key) by done.
  change (expect 58 (skipSpace (": " +:+ ?Y))) with (Some (" " +:+ Y)).
  cbv iota. rewrite skip_space1.
  rewrite (parseString_appendString_any val).
  change (skipSpace ("," +:+ ?Y)) with (String "," Y).
  cbv iota. change (byte_val "," =? 44) with true. cbv iota.
  by rewrite skip_indent4.
Qed.

Lemma parseMembers_last_any (k : nat) (key val X : string) :
  ValidString key = true ->
  parseMembers (S k)
    (appendString key +:+ ": " +:+ appendString val +:+ nl +:+ "  }" +:+ X)
  = Some ([(key, repair val)], X).
Proof.
  intros Hk. cbn [parseMembers].
  rewrite (parseString_appendString key) by done.
  change (expect 58 (skipSpace (": " +:+ ?Y))) with (Some (" " +:+ Y)).
  cbv iota. rewrite skip_space1.
  rewrite (parseString_appendString_any val).
  reflexivity.
Qed.

Lemma parseObject_pretty_any (n : nat) (p : Program) (X : string) :
  parseObject (S (S (S n))) (prettyProgram p +:+ X)
  = Some (toStruct (repairProgram p), X).
Proof.
  unfold parseObject, prettyProgram. rewrite !append_assoc.
  change (expect 123 ("{" +:+ ?Y)) with (Some Y). cbv iota.
  rewrite skip_indent4.
  assert (forall s Y, expect 125 (appendString s +:+ Y) = None) as ->
    by (intros; unfold appendString; rewrite !append_assoc; reflexivity).
  rewrite parseMembers_more_any, parseMembers_more_any, parseMembers_last_any
    by done.
  reflexivity.
Qed.

Lemma parseElements_pretty_any (n : nat) (l : list Program) :
  forall (fuel : nat) (p : Program),
    (length l < fuel)%nat ->
    parseElements fuel (S (S (S n)))
      (prettyProgram p +:+ prettyMore l +:+ nl +:+ "]" +:+ nl)
    = Some (map toStruct (map repairProgram (p :: l)), nl).
Proof.
  induction l as [|q l IH]; intros fuel p Hf.
  - destruct fuel as [|fuel]; [cbn in Hf; lia |].
    cbn [parseElements]. rewrite parseObject_pretty_any.
    reflexivity.
  - destruct fuel as [|fuel]; [cbn in Hf; lia |].
    cbn [parseElements prettyMore]. rewrite !append_assoc.
    rewrite parseObject_pretty_any.
    change (skipSpace ("," +:+ ?Y)) with (String "," Y).
    cbv iota. change (byte_val "," =? 44) with true. cbv iota.
    assert (forall Y, skipSpace (nl +:+ "  " +:+ prettyProgram q +:+ Y)
                      = prettyProgram q +:+ Y) as ->.
    { intros Y. rewrite (prettyProgram_head q Y). reflexivity. }
    rewrite (IH fuel q) by (cbn [length] in Hf; lia).
    reflexivity.
Qed.

(** Any slice of programs is read back, repaired, from the document
    written for it. *)
Lemma read_Encode_any (programs : Slice Program) :
  readPrograms (json.Encode (toStructs programs)) = Some (repairAll programs).
Proof.
  rewrite Encode_pretty.
  destruct programs as [|[|p l]]; [reflexivity | reflexivity |].
  unfold readPrograms, Unmarshal, prettyDocument.
  set (doc := "[" +:+ nl +:+ "  " +:+ prettyProgram p +:+ prettyMore l
              +:+ nl +:+ "]" +:+ nl).
  assert (exists n, String.length doc = S (S (S n)) /\ (length l < S (S (S n)))%nat)
    as (n & -> & Hn).
  { subst doc. rewrite !length_append. pose proof (prettyMore_length l).
    cbn [String.length nl Nat.add].
    eexists. split; [reflexivity |]. lia. }
  subst doc.
  change (skipSpace ("[" +:+ ?Y)) with (String "[" Y). cbv iota.
  change (byte_val "[" =? 91) with true. cbv iota.
  assert (forall Y, skipSpace (nl +:+ "  " +:+ prettyProgram p +:+ Y)
                    = prettyProgram p +:+ Y) as ->.
  { intros Y. rewrite (prettyProgram_head p Y). reflexivity. }
  assert (forall Y, expect 93 (prettyProgram p +:+ Y) = None) as ->.
  { intros Y. rewrite (prettyProgram_head p Y). reflexivity. }
  rewrite parseElements_pretty_any by done.
  change (atEnd nl) with true. cbv iota.
  by rewrite fromStructs_toStruct.
Qed.

(** *** What the document is made of *)

Lemma Segs_isASCII (x : string) : Strings.isASCII x = true -> Segs true x.
Proof.
  induction x as [|c x IH]; [constructor |].
  cbn [Strings.isASCII]. rewrite andb_true_iff, Z.ltb_lt. intros [Hc Hx].
  apply Segs_ascii; [exact Hc | by apply IH].
Qed.

Lemma isASCII_chunk (c : ascii) :
  byte_val c < 0x80 -> Strings.isASCII (chunk c) = true.
Proof.
  intros H.
  destruct c as [[] [] [] [] [] [] [] []];
    first [ reflexivity | exfalso; vm_compute in H; discriminate H ].
Qed.

Lemma Segs_escapedRune (u : string) (r : Z) :
  MultiRune u r -> Segs true (escapedRune u r).
Proof.
  intros Hm. unfold escapedRune.
  destruct (Z.eqb_spec r 8232) as [->|_];
    [|destruct (Z.eqb_spec r 8233) as [->|_]]; cbn [orb];
    try (by apply Segs_isASCII).
  rewrite <- (append_nil_r u). apply (Segs_multi _ u r); [done | constructor].
Qed.

Lemma Segs_escape (s : string) : Segs true (escapeFrom (Copy 0) s).
Proof.
  induction (Segs_all s) as [|c t Hc _ IH|c t _ Hc Hd _ IH|u r t Hm _ IH].
  - constructor.
  - rewrite escape_ascii by done.
    apply Segs_app; [by apply Segs_isASCII, isASCII_chunk | exact IH].
  - rewrite escape_bad by done.
    apply Segs_app; [by apply Segs_isASCII | exact IH].
  - rewrite (escape_multi u r) by done.
    apply Segs_app; [by apply (Segs_escapedRune u r) | exact IH].
Qed.

Lemma Segs_appendString (s : string) : Segs true (appendString s).
Proof.
  unfold appendString.
  apply Segs_app; [by apply Segs_isASCII |].
  apply Segs_app; [apply Segs_escape | by apply Segs_isASCII].
Qed.

Ltac segs :=
  repeat first [ apply Segs_appendString
               | apply Segs_isASCII; reflexivity
               | apply Segs_app ].

Lemma Segs_prettyProgram (p : Program) : Segs true (prettyProgram p).
Proof. unfold prettyProgram. segs. Qed.

Lemma Segs_prettyMore (l : list Program) : Segs true (prettyMore l).
Proof.
  induction l as [|p l IH]; [constructor |].
  cbn [prettyMore]. segs; first [exact IH | apply Segs_prettyProgram].
Qed.

Lemma Segs_prettyDocument (programs : Slice Program) :
  Segs true (prettyDocument programs).
Proof.
  destruct programs as [|[|p l]]; cbn [prettyDocument]; segs;
    first [apply Segs_prettyMore | apply Segs_prettyProgram].
Qed.

Lemma plain_app (a b : string) : plain (a +:+ b) = plain a && plain b.
Proof.
  induction a as [|c a IH]; [done |].
  cbn [String.append plain]. by rewrite IH, andb_assoc.
Qed.

Lemma plain_chunk (c : ascii) : byte_val c < 0x80 -> plain (chunk c) = true.
Proof.
  intros H.
  destruct c as [[] [] [] [] [] [] [] []];
    first [ reflexivity | exfalso; vm_compute in H; discriminate H ].
Qed.

Lemma plain_high (u : string) : allHigh u = true -> plain u = true.
Proof.
  induction u as [|c u IH]; [done |].
  cbn [allHigh plain]. rewrite andb_true_iff, Z.leb_le. intros [Hc Hu].
  rewrite (IH Hu), andb_true_r. unfold markup.
  destruct (Z.eqb_spec (byte_val c) 38); [lia |].
  destruct (Z.eqb_spec (byte_val c) 60); [lia |].
  destruct (Z.eqb_spec (byte_val c) 62); [lia |].
  destruct (Z.ltb_spec (byte_val c) 32); [lia |]. reflexivity.
Qed.

Lemma plain_escape (s : string) : plain (escapeFrom (Copy 0) s) = true.
Proof.
  induction (Segs_all s) as [|c t Hc _ IH|c t _ Hc Hd _ IH|u r t Hm _ IH].
  - reflexivity.
  - rewrite escape_ascii by done. by rewrite plain_app, plain_chunk, IH.
  - rewrite escape_bad by done. by rewrite plain_app, IH.
  - rewrite (escape_multi u r) by done. rewrite plain_app, IH, andb_true_r.
    unfold escapedRune.
    destruct (Z.eqb_spec r 8232) as [->|_];
      [|destruct (Z.eqb_spec r 8233) as [->|_]]; cbn [orb]; try reflexivity.
    apply plain_high, (mr_high _ _ Hm).
Qed.

Lemma plain_appendString (s : string) : plain (appendString s) = true.
Proof. unfold appendString. by rewrite !plain_app, plain_escape. Qed.

Lemma plain_prettyProgram (p : Program) : plain (prettyProgram p) = true.
Proof. unfold prettyProgram. by rewrite !plain_app, !plain_appendString. Qed.

Lemma plain_prettyMore (l : list Program) : plain (prettyMore l) = true.
Proof.
  induction l as [|p l IH]; [done |].
  cbn [prettyMore]. by rewrite !plain_app, plain_prettyProgram, IH.
Qed.

Lemma plain_prettyDocument (programs : Slice Program) :
  plain (prettyDocument programs) = true.
Proof.
  destruct programs as [|[|p l]]; [done | done |].
  cbn [prettyDocument].
  by rewrite !plain_app, plain_prettyProgram, plain_prettyMore.
Qed.

Lemma plain_occurs (s : string) (b : Z) :
  plain s = true -> markup b = true -> occurs b s = false.
Proof.
  intros Hs Hb. induction s as [|c s IH]; [done |].
  cbn [plain occurs] in *. apply andb_true_iff in Hs as [Hc Hs].
  rewrite (IH Hs), orb_false_r. apply Z.eqb_neq. intros Heq.
  rewrite Heq, Hb in Hc. discriminate.
Qed.

(** *** The document read back *)

(** Any slice of programs is read back from its document, and from the
    file [saveToJSON] leaves when the file is created and the write of the
    document goes through, with every field repaired: the bytes that belong
    to no valid encoding are replaced by U+FFFD and nothing else changes.
    The repaired fields are valid UTF-8, valid fields are their own repair,
    and the repaired slice is read back as it is. *)
Theorem json_read_back_repaired (programs : Slice Program) :
  readPrograms (json.Encode (toStructs programs)) = Some (repairAll programs)
  /\ Forall2 (fun p q =>
                Name q = repair (Name p) /\ Version q = repair (Version p)
                /\ Path q = repair (Path p))
             (elems programs) (elems (repairAll programs))
  /\ (forall s, ValidString (repair s) = true)
  /\ (forall s, ValidString s = true -> repair s = s)
  /\ readPrograms (json.Encode (toStructs (repairAll programs)))
     = Some (repairAll programs)
  /\ (forall filename w,
        create_error w filename = None ->
        write_error w filename = None ->
        exists doc,
          files (after (saveToJSON programs filename w)) !! filename = Some doc
          /\ readPrograms doc = Some (repairAll programs)).
Proof.
  split; [apply read_Encode_any |]. split; [|split; [|split; [|split]]].
  - destruct programs as [|l]; [constructor |]. cbn [elems repairAll].
    induction l as [|p l IH]; constructor; [done | exact IH].
  - apply ValidString_repair.
  - apply repair_valid.
  - rewrite read_Encode_any. f_equal.
    destruct programs as [|l]; [done |]. cbn [repairAll]. f_equal.
    induction l as [|p l IH]; [done |]. cbn [map]. rewrite IH. f_equal.
    unfold repairProgram. cbn [Name Version Path].
    by rewrite !(repair_valid (repair _)) by apply ValidString_repair.
  - intros filename w Hc Hw. exists (json.Encode (toStructs programs)).
    split; [|apply read_Encode_any].
    rewrite (saveToJSON_spec _ _ _ Hc Hw). unfold after. cbn [snd files].
    apply lookup_insert_eq.
Qed.

(** The document written for any slice of programs is valid UTF-8,
    whatever bytes the fields hold, and so is the file [saveToJSON] leaves
    when the file is created and the write of the document goes through. *)
Theorem json_document_is_valid_utf8 (programs : Slice Program) :
  ValidString (json.Encode (toStructs programs)) = true
  /\ (forall filename w,
        create_error w filename = None ->
        write_error w filename = None ->
        exists doc,
          files (after (saveToJSON programs filename w)) !! filename = Some doc
          /\ ValidString doc = true).
Proof.
  assert (ValidString (json.Encode (toStructs programs)) = true) as H.
  { rewrite Encode_pretty. apply Segs_ValidString, Segs_prettyDocument. }
  split; [exact H |]. intros filename w Hc Hw.
  exists (json.Encode (toStructs programs)). split; [|exact H].
  rewrite (saveToJSON_spec _ _ _ Hc Hw). unfold after. cbn [snd files].
  apply lookup_insert_eq.
Qed.

(** The document holds none of the bytes [&], [<] and [>], and no byte
    below 0x20 but the line feed: in the fields they are written as
    escapes. *)
Theorem json_document_escapes_markup (programs : Slice Program) (b : Z) :
  b = 0x26 \/ b = 0x3C \/ b = 0x3E \/ (0 <= b < 0x20 /\ b <> 0x0A) ->
  occurs b (json.Encode (toStructs programs)) = false.
Proof.
  intros Hb. apply plain_occurs.
  - rewrite Encode_pretty. apply plain_prettyDocument.
  - unfold markup. destruct Hb as [->|[->|[->|[Hr Hn]]]]; try reflexivity.
    destruct (Z.ltb_spec b 32); [|lia].
    destruct (Z.eqb_spec b 10); [lia |]. by rewrite !orb_true_r.
Qed.

Lemma json_document_escapes_markup_witness :
  occurs 0x26
    (json.Encode (toStructs (mk_slice [ mkProgram "AT&T <x>" "1.0" "C:\AT&T" ])))
  = false
  /\ occurs 0x26 "AT&T <x>" = true.
Proof.
  split; [|reflexivity].
  apply (json_document_escapes_markup
           (mk_slice [ mkProgram "AT&T <x>" "1.0" "C:\AT&T" ]) 0x26).
  left. reflexivity.
Defined.

(** *** What the exports tell *)

Lemma repairAll_valid (programs : Slice Program) :
  Forall (fun p => validProgram p = true) (elems programs) ->
  repairAll programs = programs.
Proof.
  destruct programs as [|l]; [done |]. cbn [elems repairAll]. intros Hv.
  f_equal. induction Hv as [|p l Hp _ IH]; [done |].
  cbn [map]. rewrite IH. f_equal.
  unfold validProgram in Hp. rewrite !andb_true_iff in Hp.
  destruct Hp as [[Hn Hve] Hpa]. destruct p as [n v pa].
  unfold repairProgram. cbn [Name Version Path] in *.
  by rewrite !repair_valid.
Qed.

(** Two slices with the same document are the same once repaired, and
    the same when their fields are valid UTF-8. *)
Theorem json_export_is_injective (ps qs : Slice Program) :
  json.Encode (toStructs ps) = json.Encode (toStructs qs) ->
  repairAll ps = repairAll qs
  /\ (Forall (fun p => validProgram p = true) (elems ps) ->
      Forall (fun p => validProgram p = true) (elems qs) ->
      ps = qs).
Proof.
  intros Heq.
  assert (repairAll ps = repairAll qs) as H.
  { pose proof (read_Encode_any ps) as Hp. rewrite Heq, read_Encode_any in Hp.
    by injection Hp. }
  split; [exact H |]. intros Hp Hq.
  by rewrite <- (repairAll_valid ps), <- (repairAll_valid qs).
Qed.

Lemma json_export_is_injective_witness :
  let ps := mk_slice [ mkProgram (String (ascii_of_nat 255) EmptyString) "" "" ] in
  let qs := mk_slice [ mkProgram (String (ascii_of_nat 254) EmptyString) "" "" ] in
  ps <> qs /\ repairAll ps = repairAll qs.
Proof.
  cbv zeta. split; [discriminate |].
  apply (json_export_is_injective
           (mk_slice [ mkProgram (String (ascii_of_nat 255) EmptyString) "" "" ])
           (mk_slice [ mkProgram (String (ascii_of_nat 254) EmptyString) "" "" ])).
  vm_compute. reflexivity.
Defined.

Lemma blocks_app (l1 l2 : list Program) :
  forall i,
    blocks i (l1 ++ l2)
    = blocks i l1 +:+ blocks (i + Z.of_nat (length l1)) l2.
Proof.
  induction l1 as [|p l1 IH]; intros i.
  - cbn [app blocks length Z.of_nat String.append]. by rewrite Z.add_0_r.
  - cbn [app blocks length]. rewrite IH, append_assoc. do 3 f_equal. lia.
Qed.

(** The text report does not tell a version from the end of a name: a
    program with a version and the program without one whose name ends in
    that version in parentheses are written alike, wherever they stand. *)
Theorem text_report_is_ambiguous (name version path : string)
    (before after_ : list Program) :
  version <> EmptyString ->
  let p := mkProgram name version path in
  let q := mkProgram (name +:+ " (v" +:+ version +:+ ")") EmptyString path in
  p <> q
  /\ textReport (before ++ p :: after_) = textReport (before ++ q :: after_)
  /\ (forall i, blocks i (before ++ p :: after_) = blocks i (before ++ q :: after_)).
Proof.
  intros Hv p q.
  assert (forall i, block i p = block i q) as Hb.
  { intros i. unfold block, p, q. cbn [Name Version Path is_empty].
    apply is_empty_false in Hv. rewrite Hv.
    by rewrite !append_assoc. }
  assert (forall i, blocks i (before ++ p :: after_)
                    = blocks i (before ++ q :: after_)) as Hbs.
  { intros i. rewrite !blocks_app. cbn [blocks]. by rewrite Hb. }
  split; [|split; [|exact Hbs]].
  - intros Heq. apply (f_equal Version) in Heq. by cbn in Heq.
  - unfold textReport. rewrite Hbs. by rewrite !length_app.
Qed.

Lemma text_report_is_ambiguous_witness :
  mkProgram "Editor" "2.1" "" <> mkProgram "Editor (v2.1)" "" ""
  /\ textReport [ mkProgram "Editor" "2.1" "" ]
     = textReport [ mkProgram "Editor (v2.1)" "" "" ].
Proof.
  destruct (text_report_is_ambiguous "Editor" "2.1" "" [] [] ltac:(discriminate))
    as (Hne & Heq & _).
  split; [exact Hne | exact Heq].
Defined.

(** ** Trimming *)

(** *** Cutting strings *)

Lemma stake_sdrop (n : nat) (s : string) : stake n s +:+ sdrop n s = s.
Proof.
  revert s. induction n as [|n IH]; intros s; [done |].
  destruct s as [|c t]; [done |]. cbn [stake sdrop String.append]. by rewrite IH.
Qed.

Lemma stake_all (n : nat) (s : string) :
  (String.length s <= n)%nat -> stake n s = s.
Proof.
  revert s. induction n as [|n IH]; intros s H.
  - destruct s; [done | cbn in H; lia].
  - destruct s as [|c t]; [done |]. cbn [stake]. rewrite IH; [done |].
    cbn in H. lia.
Qed.

Lemma sdrop_all (n : nat) (s : string) :
  (String.length s <= n)%nat -> sdrop n s = EmptyString.
Proof.
  revert s. induction n as [|n IH]; intros s H.
  - destruct s; [done | cbn in H; lia].
  - destruct s as [|c t]; [done |]. cbn [sdrop]. apply IH. cbn in H. lia.
Qed.

Lemma length_sdrop (n : nat) (s : string) :
  String.length (sdrop n s) = (String.length s - n)%nat.
Proof.
  revert s. induction n as [|n IH]; intros s; [cbn; lia |].
  destruct s as [|c t]; [done |]. cbn [sdrop String.length]. by rewrite IH.
Qed.

Lemma stake_app (a b : string) : stake (String.length a) (a +:+ b) = a.
Proof.
  induction a as [|c a IH]; [done |].
  cbn [String.length String.append stake]. by rewrite IH.
Qed.

Lemma sdrop_app (a b : string) : sdrop (String.length a) (a +:+ b) = b.
Proof. induction a as [|c a IH]; [done | exact IH]. Qed.

Lemma sdrop_sdrop (n m : nat) (s : string) :
  sdrop n (sdrop m s) = sdrop (m + n) s.
Proof.
  revert s. induction m as [|m IH]; intros s; [done |].
  destruct s as [|c t]; [by destruct n |]. cbn [sdrop Nat.add]. apply IH.
Qed.

Lemma stake_stake (n m : nat) (s : string) :
  (n <= m)%nat -> stake n (stake m s) = stake n s.
Proof.
  revert m s. induction n as [|n IH]; intros m s H; [done |].
  destruct m as [|m]; [lia |]. destruct s as [|c t]; [done |].
  cbn [stake]. rewrite IH; [done | lia].
Qed.

Lemma sdrop_stake (n m : nat) (s : string) :
  sdrop n (stake m s) = stake (m - n) (sdrop n s).
Proof.
  revert m s. induction n as [|n IH]; intros m s.
  - by rewrite Nat.sub_0_r.
  - destruct m as [|m]; [by destruct s |].
    destruct s as [|c t]; [cbn; by destruct (m - n)%nat |].
    cbn [stake sdrop Nat.sub]. apply IH.
Qed.

Lemma app_inj_length (a b a' b' : string) :
  String.length a = String.length a' -> a +:+ b = a' +:+ b' -> a = a' /\ b = b'.
Proof.
  revert a'. induction a as [|c a IH]; intros [|c' a'] Hl H; try discriminate.
  - done.
  - cbn [String.append] in H. injection H as -> H.
    cbn [String.length] in Hl. destruct (IH a' ltac:(lia) H) as [-> ->]. done.
Qed.

Lemma append_eq_nil_r (a b : string) :
  String.length (a +:+ b) = String.length a -> b = EmptyString.
Proof. rewrite length_append. destruct b; [done | cbn; lia]. Qed.

(** The last byte of a string that is not empty. *)
Lemma last_byte (x : string) :
  x <> EmptyString ->
  exists y c, x = y +:+ String c EmptyString
              /\ at_ x (len x - 1) = byte_val c
              /\ sdrop (Z.to_nat (len x - 1)) x = String c EmptyString.
Proof.
  intros Hne.
  assert (String.length x - 1 < String.length x)%nat as Hlt
    by (destruct x; [done | cbn; lia]).
  destruct (sdrop_nonempty _ _ Hlt) as (c & t & Hd).
  assert (t = EmptyString) as ->.
  { apply (f_equal String.length) in Hd. rewrite length_sdrop in Hd.
    cbn [String.length] in Hd. destruct t; [done | cbn in Hd; lia]. }
  assert (Z.to_nat (len x - 1) = (String.length x - 1)%nat) as Hn
    by (unfold len; lia).
  exists (stake (String.length x - 1) x), c. split; [|split].
  - by rewrite <- Hd, stake_sdrop.
  - unfold at_. rewrite Hn, Hd.
    destruct (Z.leb_spec 0 (len x - 1)); [done |]. unfold len in *. lia.
  - by rewrite Hn.
Qed.

(** *** The last rune *)

Lemma DecodeLast_shape (x : string) (r size : Z) :
  x <> EmptyString ->
  DecodeLastRuneInString x = (r, size) ->
  (size = 1
   /\ exists y c, x = y +:+ String c EmptyString
        /\ ((byte_val c < 0x80 /\ r = byte_val c)
            \/ (0x80 <= byte_val c /\ r = RuneError)))
  \/ (exists y u, x = y +:+ u /\ MultiRune u r /\ size = len u).
Proof.
  intros Hne. destruct (last_byte x Hne) as (y & c & Hx & Hat & Hlast).
  unfold DecodeLastRuneInString.
  destruct (Z.eqb_spec (len x) 0) as [H0|H0].
  { destruct x; [done |]. rewrite len_String in H0. pose proof (len_nonneg x). lia. }
  rewrite Hat. unfold RuneSelf.
  destruct (Z.ltb_spec (byte_val c) 128) as [Hc|Hc].
  { intros [= <- <-]. left. split; [done |]. exists y, c. split; [done |]. by left. }
  set (start := Z.max 0 (backToStart 4 x (Z.max 0 (len x - UTFMax)) (len x - 1 - 1))).
  assert (0 <= start) as Hs0 by (subst start; lia).
  assert (slice x start (len x) = sdrop (Z.to_nat start) x) as ->.
  { unfold slice. apply stake_all. rewrite length_sdrop. unfold len. lia. }
  destruct (DecodeRuneInString (sdrop (Z.to_nat start) x)) as [r0 size0] eqn:Hd.
  destruct (Z.eqb_spec (start + size0) (len x)) as [He|He]; cbn [negb].
  2: { intros [= <- <-]. left. split; [done |]. exists y, c. split; [done |]. by right. }
  intros [= <- <-].
  assert (start < len x) as Hlt.
  { pose proof (backToStart_le 4 x (Z.max 0 (len x - UTFMax)) (len x - 1 - 1)).
    pose proof (len_nonneg x). subst start. lia. }
  destruct (sdrop_nonempty (Z.to_nat start) x) as (c0 & t0 & Hw);
    [unfold len in Hlt; lia |].
  rewrite Hw in Hd.
  destruct (decode_shape c0 t0) as [[Hc0 Hd0]|[[Hc0 Hd0]|(u & t' & r' & Hu & Hm & Hd0)]];
    rewrite Hd0 in Hd; injection Hd as <- <-.
  - (* one ASCII byte: it is the last byte *)
    assert (Z.to_nat start = Z.to_nat (len x - 1)) as Hst by lia.
    rewrite Hst, Hlast in Hw. injection Hw as <- _. lia.
  - left. split; [done |]. exists y, c. split; [done |]. by right.
  - right. exists (stake (Z.to_nat start) x), u.
    assert (t' = EmptyString) as ->.
    { apply (append_eq_nil_r u). rewrite <- Hu, <- Hw, length_sdrop.
      unfold len in *. lia. }
    rewrite append_nil_r in Hu. split; [|done].
    by rewrite <- Hu, <- Hw, stake_sdrop.
Qed.

(** The first two bytes of a valid multi-byte encoding. *)
Lemma MultiRune_bytes (u : string) (r : Z) :
  MultiRune u r ->
  exists c0 c1 u', u = String c0 (String c1 u')
                   /\ 0xC2 <= byte_val c0 /\ 0x80 <= byte_val c1 <= 0xBF.
Proof.
  intros Hm. pose proof (mr_decode _ _ Hm EmptyString) as Hd.
  pose proof (mr_len _ _ Hm) as Hl.
  rewrite append_nil_r, DecodeRuneInString_spec in Hd.
  destruct u as [|c0 [|c1 u']]; try (unfold len in Hl; cbn in Hl; lia).
  exists c0, c1, u'. split; [done |].
  assert (2 <= len (String c0 (String c1 u'))) as H2 by lia.
  unfold decodeSpec in Hd.
  destruct (Z.ltb_spec (byte_val c0) 128); [injection Hd as _ Hd; lia |].
  destruct ((byte_val c0 <? 194) || (244 <? byte_val c0)) eqn:Hlead;
    [injection Hd as _ Hd; lia |].
  apply orb_false_iff in Hlead as [Hlo _]. apply Z.ltb_ge in Hlo.
  destruct (second_ok (byte_val c0) (byte_val c1)) eqn:H1; cbn [negb] in Hd;
    [|injection Hd as _ Hd; lia].
  destruct (second_ok_range _ _ H1) as (? & _). split; [done | lia].
Qed.

Lemma at_app (y : string) (c : ascii) (rest : string) :
  at_ (y +:+ String c rest) (len y) = byte_val c.
Proof.
  unfold at_, len. rewrite Nat2Z.id, sdrop_app.
  destruct (Z.leb_spec 0 (Z.of_nat (String.length y))); [done | lia].
Qed.

(** *** Sequences of white space *)

Lemma IsSpace_RuneError : unicode.IsSpace RuneError = false.
Proof. reflexivity. Qed.

Lemma Spaces_app (a b : string) : Spaces a -> Spaces b -> Spaces (a +:+ b).
Proof.
  intros Ha Hb. induction Ha as [|c t Hc Hs _ IH|u r t Hm Hs _ IH].
  - exact Hb.
  - cbn [String.append]. by apply Spaces_ascii.
  - rewrite append_assoc. by apply (Spaces_multi u r).
Qed.

Lemma Spaces_head (c : ascii) (t : string) :
  Spaces (String c t) ->
  unicode.IsSpace (fst (DecodeRuneInString (String c t))) = true.
Proof.
  intros H. inversion H as [|c' t' Hc Hs Ht|u r t' Hm Hs Ht Heq]; subst.
  - by rewrite decode_ascii.
  - by rewrite (mr_decode _ _ Hm).
Qed.

Lemma Spaces_first_byte (c : ascii) (t : string) :
  Spaces (String c t) -> byte_val c < 0x80 \/ 0xC2 <= byte_val c.
Proof.
  intros H. inversion H as [|c' t' Hc Hs Ht|u r t' Hm Hs Ht Heq]; subst.
  - by left.
  - destruct (MultiRune_bytes _ _ Hm) as (c0 & c1 & u' & -> & H0 & _).
    cbn [String.append] in Heq. injection Heq as <- _. by right.
Qed.

(** The last rune of a string, when it is white space, is a valid
    encoding at the end of the string. *)
Lemma DecodeLast_space (x : string) (r size : Z) :
  x <> EmptyString ->
  DecodeLastRuneInString x = (r, size) ->
  unicode.IsSpace r = true ->
  exists y u, x = y +:+ u /\ size = len u /\ Spaces u.
Proof.
  intros Hne Hd Hs.
  destruct (DecodeLast_shape x r size Hne Hd)
    as [(-> & y & c & -> & [[Hc ->]|[Hc ->]])|(y & u & -> & Hm & ->)].
  - exists y, (String c EmptyString). split; [done |]. split; [done |].
    apply Spaces_ascii; [done | done | constructor].
  - by rewrite IsSpace_RuneError in Hs.
  - exists y, u. split; [done |]. split; [done |].
    rewrite <- (append_nil_r u). apply (Spaces_multi u r); [done | done | constructor].
Qed.

Lemma DecodeLast_size_le (x : string) (r size : Z) :
  x <> EmptyString ->
  DecodeLastRuneInString x = (r, size) -> 1 <= size <= len x.
Proof.
  intros Hne Hd.
  destruct (DecodeLast_shape x r size Hne Hd)
    as [(-> & y & c & -> & _)|(y & u & -> & Hm & ->)].
  - unfold len. rewrite length_append. cbn [String.length]. lia.
  - pose proof (mr_len _ _ Hm). unfold len in *. rewrite length_append. lia.
Qed.

(** *** The scan from the left *)

Lemma blankFrom_sdrop (k : nat) (t : string) :
  blankFrom k t = blank (sdrop k t).
Proof.
  revert t. induction k as [|k IH]; intros t; [done |].
  destruct t as [|c t]; [done |]. cbn [blankFrom sdrop]. apply IH.
Qed.

Lemma indexFunc_found (s : string) :
  forall fuel i,
    0 <= i -> len s - i < Z.of_nat fuel ->
    let j := Strings.indexFuncFrom fuel s unicode.IsSpace false i in
    (j = -1 /\ blank (sdrop (Z.to_nat i) s) = true)
    \/ (i <= j < len s
        /\ blank (sdrop (Z.to_nat i) s) = false
        /\ unicode.IsSpace (fst (DecodeRuneInString (sdrop (Z.to_nat j) s)))
           = false).
Proof.
  induction fuel as [|fuel IH]; intros i Hi Hf; cbv zeta.
  - left. split; [done |]. rewrite sdrop_all; [done |]. unfold len in Hf. lia.
  - cbn [Strings.indexFuncFrom].
    destruct (Z.leb_spec (len s) i) as [Hle|Hlt].
    { left. split; [done |]. rewrite sdrop_all; [done |]. unfold len in Hle. lia. }
    unfold slice_from.
    destruct (sdrop_nonempty (Z.to_nat i) s) as (c & t & Hd);
      [unfold len in Hlt; lia |].
    rewrite Hd. pose proof (decode_size c t) as Hsz.
    destruct (DecodeRuneInString (String c t)) as [r size] eqn:Hdec.
    cbn [snd] in Hsz.
    assert (blank (String c t)
            = unicode.IsSpace r && blank (sdrop (Z.to_nat (size - 1)) t)) as Hb.
    { unfold blank at 1. cbn [blankFrom]. rewrite Hdec. by rewrite blankFrom_sdrop. }
    destruct (unicode.IsSpace r) eqn:Hsp; cbn [Bool.eqb].
    + assert (sdrop (Z.to_nat (i + size)) s = sdrop (Z.to_nat (size - 1)) t) as Hnext.
      { replace (Z.to_nat (i + size)) with (Z.to_nat i + S (Z.to_nat (size - 1)))%nat
          by lia.
        rewrite <- sdrop_sdrop, Hd. reflexivity. }
      specialize (IH (i + size) ltac:(lia) ltac:(lia)). cbv zeta in IH.
      rewrite Hnext in IH. rewrite Hb. cbn [andb].
      destruct IH as [[-> Hbl]|(Hj & Hbl & Hns)].
      * by left.
      * right. split; [lia | done].
    + right. split; [lia |]. split; [by rewrite Hb |]. by rewrite Hd, Hdec.
Qed.

(** *** The scan from the right *)

Lemma stake_add (n m : nat) (s : string) :
  stake (n + m) s = stake n s +:+ stake m (sdrop n s).
Proof.
  revert s. induction n as [|n IH]; intros s; [done |].
  destruct s as [|c t]; [by destruct m |].
  cbn [Nat.add stake sdrop String.append]. by rewrite IH.
Qed.

Lemma lastIndex_found (s : string) :
  forall fuel k,
    0 <= k <= len s -> k < Z.of_nat fuel ->
    let j := Strings.lastIndexFuncFrom fuel s unicode.IsSpace false k in
    (j = -1 /\ Spaces (stake (Z.to_nat k) s))
    \/ (exists e r,
          0 <= j < e /\ e <= k
          /\ DecodeLastRuneInString (stake (Z.to_nat e) s) = (r, e - j)
          /\ unicode.IsSpace r = false
          /\ Spaces (stake (Z.to_nat (k - e)) (sdrop (Z.to_nat e) s))).
Proof.
  induction fuel as [|fuel IH]; intros k Hk Hf; cbv zeta; [lia |].
  cbn [Strings.lastIndexFuncFrom].
  destruct (Z.leb_spec k 0) as [Hle|Hpos].
  { left. split; [done |]. replace (Z.to_nat k) with 0%nat by lia. constructor. }
  assert (slice s 0 k = stake (Z.to_nat k) s) as ->.
  { unfold slice. by rewrite Z.sub_0_r. }
  set (x := stake (Z.to_nat k) s).
  assert (String.length x = Z.to_nat k) as Hlx.
  { subst x. rewrite length_stake. unfold len in Hk. lia. }
  assert (x <> EmptyString) as Hne.
  { intros Heq. rewrite Heq in Hlx. cbn in Hlx. lia. }
  destruct (DecodeLastRuneInString x) as [r size] eqn:Hd.
  pose proof (DecodeLast_size_le x r size Hne Hd) as Hsz.
  assert (len x = k) as Hlen by (unfold len; lia). rewrite Hlen in Hsz.
  destruct (unicode.IsSpace r) eqn:Hsp; cbn [Bool.eqb].
  - destruct (DecodeLast_space x r size Hne Hd Hsp) as (y & u & Hx & Hu & HSu).
    assert (String.length y = Z.to_nat (k - size)) as Hly.
    { apply (f_equal String.length) in Hx. rewrite length_append in Hx.
      unfold len in Hu. lia. }
    assert (y = stake (Z.to_nat (k - size)) s
            /\ u = stake (Z.to_nat size) (sdrop (Z.to_nat (k - size)) s))
      as [Hy Hu'].
    { apply app_inj_length; [by rewrite length_stake; unfold len in Hk; lia |].
      rewrite <- Hx. subst x. rewrite <- stake_add. f_equal. lia. }
    specialize (IH (k - size) ltac:(lia) ltac:(lia)). cbv zeta in IH.
    destruct IH as [[-> HS]|(e & r0 & Hj & He & Hdl & Hns & HS)].
    + left. split; [done |]. fold x. rewrite Hx. apply Spaces_app; [|done].
      by rewrite Hy.
    + right. exists e, r0. split; [done |]. split; [lia |]. split; [done |].
      split; [done |].
      replace (Z.to_nat (k - e))
        with (Z.to_nat (k - size - e) + Z.to_nat size)%nat by lia.
      rewrite stake_add. apply Spaces_app; [done |].
      rewrite sdrop_sdrop.
      replace (Z.to_nat e + Z.to_nat (k - size - e))%nat
        with (Z.to_nat (k - size)) by lia.
      by rewrite <- Hu'.
  - right. exists k, r. split; [lia |]. split; [lia |]. split.
    + fold x. rewrite Hd. f_equal. lia.
    + split; [done |]. rewrite Z.sub_diag. constructor.
Qed.

(** *** The two ends *)

Lemma decode_one_byte (c : ascii) :
  snd (DecodeRuneInString (String c EmptyString)) = 1.
Proof.
  destruct (decode_shape c EmptyString)
    as [[_ ->]|[[_ ->]|(u & t' & r & Hu & Hm & _)]]; [done | done |].
  pose proof (mr_len _ _ Hm) as Hl. apply (f_equal String.length) in Hu.
  rewrite length_append in Hu. unfold len in Hl. cbn in Hu. lia.
Qed.

(** What [TrimRightFunc] leaves: the string up to the end of its last rune
    that is not white space; what it cuts off is white space; and what it
    leaves is left as it is by a second cut. *)
Lemma TrimRight_cases (s : string) :
  (Strings.TrimRightFunc s unicode.IsSpace = EmptyString /\ Spaces s)
  \/ (exists x z,
         s = x +:+ z /\ Spaces z /\ x <> EmptyString
         /\ unicode.IsSpace (fst (DecodeLastRuneInString x)) = false
         /\ Strings.TrimRightFunc s unicode.IsSpace = x
         /\ Strings.TrimRightFunc x unicode.IsSpace = x).
Proof.
  pose proof (len_nonneg s) as Hl0.
  destruct (lastIndex_found s (S (String.length s)) (len s))
    as [[Hj HS]|(e & r & Hj & He & Hd & Hns & HS)];
    [lia | unfold len; lia | |].
  - left. split.
    + unfold Strings.TrimRightFunc, Strings.lastIndexFunc. by rewrite Hj.
    + rewrite stake_all in HS; [done | unfold len; lia].
  - set (j := Strings.lastIndexFuncFrom (S (String.length s)) s unicode.IsSpace
                false (len s)) in *.
    rewrite stake_all in HS by (rewrite length_sdrop; unfold len in *; lia).
    set (x := stake (Z.to_nat e) s) in *.
    assert (String.length x = Z.to_nat e) as Hlx.
    { subst x. rewrite length_stake. unfold len in He. lia. }
    assert (x <> EmptyString) as Hne.
    { intros Heq. rewrite Heq in Hlx. cbn in Hlx. lia. }
    assert (s = x +:+ sdrop (Z.to_nat e) s) as Hs
      by (unfold x; by rewrite stake_sdrop).
    (* the cut is made at [e], in [s] and in [x] *)
    assert ((if (0 <=? j) && (RuneSelf <=? at_ s j)
             then let '(_, wid) := DecodeRuneInString (slice_from s j) in j + wid
             else j + 1) = e
            /\ (if (0 <=? j) && (RuneSelf <=? at_ x j)
                then let '(_, wid) := DecodeRuneInString (slice_from x j) in j + wid
                else j + 1) = e) as [Hcut Hcut'].
    { destruct (Z.leb_spec 0 j) as [_|]; [|lia]. cbn [andb].
      unfold slice_from, RuneSelf.
      destruct (DecodeLast_shape x r (e - j) Hne Hd)
        as [(H1 & y & c & Hx & Hc)|(y & u & Hx & Hm & Hu)].
      - assert (len y = j) as Hy.
        { apply (f_equal String.length) in Hx. rewrite length_append in Hx.
          cbn [String.length] in Hx. unfold len. lia. }
        assert (at_ x j = byte_val c) as Hax by (by rewrite Hx, <- Hy, at_app).
        assert (at_ s j = byte_val c) as Has.
        { rewrite Hs, Hx, append_assoc, <- Hy. apply at_app. }
        assert (sdrop (Z.to_nat j) x = String c EmptyString) as Hdx.
        { rewrite Hx. replace (Z.to_nat j) with (String.length y)
            by (unfold len in Hy; lia). apply sdrop_app. }
        assert (sdrop (Z.to_nat j) s = String c (sdrop (Z.to_nat e) s)) as Hds.
        { rewrite Hs at 1. rewrite Hx, append_assoc.
          replace (Z.to_nat j) with (String.length y) by (unfold len in Hy; lia).
          apply sdrop_app. }
        rewrite Has, Hax, Hds, Hdx.
        destruct (Z.leb_spec 128 (byte_val c)) as [Hhi|Hlo]; [|lia].
        pose proof (decode_one_byte c) as H1c.
        destruct (DecodeRuneInString (String c EmptyString)) as [r1 w1].
        cbn [snd] in H1c. split; [|lia].
        destruct (decode_shape c (sdrop (Z.to_nat e) s))
          as [[Hc0 _]|[[_ ->]|(u & t' & r' & Hu & Hm & _)]]; [lia | lia |].
        exfalso.
        destruct (MultiRune_bytes _ _ Hm) as (c0 & c1 & u' & -> & _ & Hc1).
        cbn [String.append] in Hu. injection Hu as _ Hu.
        rewrite Hu in HS. apply Spaces_first_byte in HS. lia.
      - assert (len y = j) as Hy.
        { apply (f_equal String.length) in Hx. rewrite length_append in Hx.
          unfold len in *. lia. }
        destruct (MultiRune_cons _ _ Hm) as (c & u' & Hu' & Hc & _).
        assert (at_ x j = byte_val c) as Hax by (by rewrite Hx, Hu', <- Hy, at_app).
        assert (at_ s j = byte_val c) as Has.
        { rewrite Hs, Hx, Hu', append_assoc, <- Hy. apply at_app. }
        assert (sdrop (Z.to_nat j) x = u) as Hdx.
        { rewrite Hx. replace (Z.to_nat j) with (String.length y)
            by (unfold len in Hy; lia). apply sdrop_app. }
        assert (sdrop (Z.to_nat j) s = u +:+ sdrop (Z.to_nat e) s) as Hds.
        { rewrite Hs at 1. rewrite Hx, append_assoc.
          replace (Z.to_nat j) with (String.length y) by (unfold len in Hy; lia).
          apply sdrop_app. }
        rewrite Has, Hax, Hds, Hdx.
        destruct (Z.leb_spec 128 (byte_val c)) as [_|]; [|lia].
        rewrite (mr_decode _ _ Hm).
        pose proof (mr_decode _ _ Hm EmptyString) as Hd0.
        rewrite append_nil_r in Hd0. rewrite Hd0. lia. }
    assert (slice s 0 e = x) as Hx0 by (unfold slice; by rewrite Z.sub_0_r).
    right. exists x, (sdrop (Z.to_nat e) s).
    split; [done |]. split; [done |]. split; [done |].
    split; [by rewrite Hd |]. split.
    { unfold Strings.TrimRightFunc, Strings.lastIndexFunc. fold j.
      by rewrite Hcut. }
    (* the second cut *)
    assert (Strings.lastIndexFunc x unicode.IsSpace false = j) as Hj'.
    { unfold Strings.lastIndexFunc. cbn [Strings.lastIndexFuncFrom].
      assert (len x = e) as Hle by (unfold len; lia). rewrite Hle.
      destruct (Z.leb_spec e 0); [lia |].
      assert (slice x 0 e = x) as ->.
      { unfold slice. rewrite Z.sub_0_r. apply stake_all. lia. }
      rewrite Hd, Hns. cbn [Bool.eqb]. lia. }
    unfold Strings.TrimRightFunc. rewrite Hj', Hcut'.
    unfold slice. rewrite Z.sub_0_r. apply stake_all. cbn [sdrop Z.to_nat]. lia.
Qed.

(** The runes the scan from the left passes are white space. *)
Lemma indexFunc_skips (s : string) :
  forall fuel i,
    0 <= i -> len s - i < Z.of_nat fuel ->
    let j := Strings.indexFuncFrom fuel s unicode.IsSpace false i in
    (j = -1 -> Spaces (sdrop (Z.to_nat i) s))
    /\ (j <> -1 -> Spaces (stake (Z.to_nat (j - i)) (sdrop (Z.to_nat i) s))).
Proof.
  induction fuel as [|fuel IH]; intros i Hi Hf; cbv zeta.
  - split; [|done]. intros _. rewrite sdrop_all; [constructor |].
    unfold len in Hf. lia.
  - cbn [Strings.indexFuncFrom].
    destruct (Z.leb_spec (len s) i) as [Hle|Hlt].
    { split; [|done]. intros _. rewrite sdrop_all; [constructor |].
      unfold len in Hle. lia. }
    unfold slice_from.
    destruct (sdrop_nonempty (Z.to_nat i) s) as (c & t & Hd);
      [unfold len in Hlt; lia |].
    rewrite Hd. pose proof (decode_size c t) as Hsz.
    destruct (DecodeRuneInString (String c t)) as [r size] eqn:Hdec.
    cbn [snd] in Hsz.
    destruct (unicode.IsSpace r) eqn:Hsp; cbn [Bool.eqb].
    + assert (exists u t', String c t = u +:+ t' /\ size = len u
                           /\ Spaces u) as (u & t' & Hu & Hlu & HSu).
      { destruct (decode_shape c t)
          as [[Hc Hd0]|[[Hc Hd0]|(u & t' & r' & Hu & Hm & Hd0)]];
          rewrite Hd0 in Hdec; injection Hdec as <- <-.
        - exists (String c EmptyString), t. split; [done |]. split; [done |].
          apply Spaces_ascii; [done | done | constructor].
        - by rewrite IsSpace_RuneError in Hsp.
        - exists u, t'. split; [done |]. split; [done |].
          rewrite <- (append_nil_r u).
          apply (Spaces_multi u r'); [done | done | constructor]. }
      assert (sdrop (Z.to_nat (i + size)) s = t') as Hnext.
      { replace (Z.to_nat (i + size)) with (Z.to_nat i + String.length u)%nat
          by (unfold len in Hlu; lia).
        rewrite <- sdrop_sdrop, Hd, Hu. apply sdrop_app. }
      specialize (IH (i + size) ltac:(lia) ltac:(lia)). cbv zeta in IH.
      rewrite Hnext in IH. destruct IH as [IH1 IH2].
      pose proof (indexFunc_found s fuel (i + size) ltac:(lia) ltac:(lia)) as Hf'.
      cbv zeta in Hf'.
      set (j := Strings.indexFuncFrom fuel s unicode.IsSpace false (i + size)) in *.
      rewrite Hu. split.
      * intros Hj. apply Spaces_app; [done | by apply IH1].
      * intros Hj. destruct Hf' as [[? _]|(Hjr & _)]; [done |].
        replace (Z.to_nat (j - i))
          with (String.length u + Z.to_nat (j - (i + size)))%nat
          by (unfold len in Hlu; lia).
        rewrite stake_add, stake_app, sdrop_app.
        apply Spaces_app; [done | by apply IH2].
    + split; [lia |]. intros _. rewrite Z.sub_diag. constructor.
Qed.

Lemma TrimLeft_cases (v : string) :
  (blank v = true /\ Spaces v
   /\ Strings.TrimLeftFunc v unicode.IsSpace = EmptyString)
  \/ (blank v = false
      /\ exists pre c t,
           v = pre +:+ String c t /\ Spaces pre
           /\ Strings.TrimLeftFunc v unicode.IsSpace = String c t
           /\ unicode.IsSpace (fst (DecodeRuneInString (String c t))) = false).
Proof.
  pose proof (len_nonneg v) as Hl0.
  pose proof (indexFunc_found v (S (String.length v)) 0 ltac:(lia)
                ltac:(unfold len; lia)) as Hf.
  pose proof (indexFunc_skips v (S (String.length v)) 0 ltac:(lia)
                ltac:(unfold len; lia)) as [Hs1 Hs2].
  cbv zeta in Hf, Hs1, Hs2. change (Z.to_nat 0) with 0%nat in *. cbn [sdrop] in *.
  unfold Strings.TrimLeftFunc, Strings.indexFunc.
  set (j := Strings.indexFuncFrom (S (String.length v)) v unicode.IsSpace false 0)
    in *.
  destruct Hf as [[Hj Hb]|(Hj & Hb & Hns)].
  - left. split; [done |]. split; [by apply Hs1 |]. by rewrite Hj.
  - right. split; [done |].
    destruct (sdrop_nonempty (Z.to_nat j) v) as (c & t & Hd);
      [unfold len in Hj; lia |].
    exists (stake (Z.to_nat j) v), c, t.
    split; [by rewrite <- Hd, stake_sdrop |].
    split; [rewrite Z.sub_0_r in Hs2; apply Hs2; lia |].
    destruct (Z.eqb_spec j (-1)); [lia |].
    unfold slice_from. split; [done |]. by rewrite <- Hd.
Qed.

Lemma TrimLeft_fixed (x : string) :
  unicode.IsSpace (fst (DecodeRuneInString x)) = false ->
  Strings.TrimLeftFunc x unicode.IsSpace = x.
Proof.
  intros Hns. destruct x as [|c t]; [reflexivity |].
  unfold Strings.TrimLeftFunc, Strings.indexFunc.
  cbn [Strings.indexFuncFrom].
  destruct (Z.leb_spec (len (String c t)) 0) as [Hle|_].
  { rewrite len_String in Hle. pose proof (len_nonneg t). lia. }
  change (slice_from (String c t) 0) with (String c t).
  destruct (DecodeRuneInString (String c t)) as [r size]. cbn [fst] in Hns.
  rewrite Hns. reflexivity.
Qed.

(** The first rune of a string does not change when the string is made
    longer, unless it is the mark of an invalid byte. *)
Lemma decode_prefix (x z : string) :
  x <> EmptyString ->
  unicode.IsSpace (fst (DecodeRuneInString (x +:+ z))) = false ->
  unicode.IsSpace (fst (DecodeRuneInString x)) = false.
Proof.
  intros Hne Hns. destruct x as [|c t]; [done |].
  destruct (decode_shape c t) as [[Hc Hd]|[[Hc Hd]|(u & t' & r & Hu & Hm & Hd)]].
  - cbn [String.append] in Hns. rewrite decode_ascii in Hns by done.
    by rewrite Hd.
  - by rewrite Hd.
  - rewrite Hd. rewrite Hu, append_assoc, (mr_decode _ _ Hm) in Hns. exact Hns.
Qed.

(** [TrimSpace] takes a sequence of white space off each end of the
    string; what is left neither starts nor ends with white space and is
    left as it is by [TrimSpace]; it is empty exactly when the string is
    blank. *)
Lemma TrimSpace_spec (v : string) :
  (exists pre post,
     v = pre +:+ Strings.TrimSpace v +:+ post /\ Spaces pre /\ Spaces post)
  /\ Trimmed (Strings.TrimSpace v)
  /\ (Strings.TrimSpace v = EmptyString <-> blank v = true).
Proof.
  unfold Strings.TrimSpace at 1 2 3. unfold Strings.TrimFunc.
  destruct (TrimLeft_cases v) as [(Hb & HS & ->)|(Hb & pre & c & t & Hv & Hpre & -> & Hns)].
  - change (Strings.TrimRightFunc EmptyString unicode.IsSpace) with EmptyString.
    split; [|split].
    + exists v, EmptyString. split; [by rewrite append_nil_r |].
      split; [done | constructor].
    + by repeat split.
    + by rewrite Hb.
  - rewrite Hb.
    destruct (TrimRight_cases (String c t))
      as [[_ HS]|(x & z & Hs & Hz & Hne & Hlast & -> & Hfix)].
    { apply Spaces_head in HS. rewrite HS in Hns. discriminate. }
    assert (unicode.IsSpace (fst (DecodeRuneInString x)) = false) as Hfirst.
    { apply (decode_prefix x z Hne). by rewrite <- Hs. }
    split; [|split].
    + exists pre, z. split; [by rewrite <- Hs |]. done.
    + split; [done |]. split; [done |].
      unfold Strings.TrimSpace, Strings.TrimFunc.
      by rewrite (TrimLeft_fixed x Hfirst).
    + split; [done | discriminate].
Qed.

(** A string is blank exactly when it is a sequence of encodings of white
    space. *)
Lemma Spaces_blank (s : string) : Spaces s <-> blank s = true.
Proof.
  split.
  - induction 1 as [|c t Hc Hs _ IH|u r t Hm Hs _ IH].
    + reflexivity.
    + unfold blank. cbn [blankFrom]. rewrite decode_ascii by done.
      rewrite Hs. exact IH.
    + destruct (MultiRune_cons _ _ Hm) as (c & u' & -> & _ & _ & Hk & _).
      pose proof (mr_decode _ _ Hm t) as Hd. cbn [String.append] in *.
      unfold blank. cbn [blankFrom]. rewrite Hd, Hs, Hk.
      by rewrite blankFrom_sdrop, sdrop_app.
  - intros Hb. destruct (TrimLeft_cases s) as [(_ & HS & _)|(Hf & _)]; [done |].
    rewrite Hb in Hf. discriminate.
Qed.

Lemma Padded_TrimSpace (v : string) : Padded v (Strings.TrimSpace v).
Proof.
  destruct (TrimSpace_spec v) as ((pre & post & Heq & Hpre & Hpost) & _).
  exists pre, post. split; [done |]. by split; apply Spaces_blank.
Qed.

(** *** The fields of the records *)

Lemma Trimmed_empty : Trimmed EmptyString.
Proof. by repeat split. Qed.

Lemma Trimmed_TrimSpace (v : string) : Trimmed (Strings.TrimSpace v).
Proof. by destruct (TrimSpace_spec v) as (_ & H & _). Qed.

Section Fields.
Context {R : API}.

Lemma getProgramFromSubkey_Trimmed (key : Key) (name : string) (p : Program) :
  getProgramFromSubkey key name = (p, None) ->
  Trimmed (Name p) /\ Trimmed (Version p) /\ Trimmed (Path p).
Proof.
  unfold getProgramFromSubkey.
  destruct (OpenKey key name QUERY_VALUE) as [subkey|e]; [|done].
  destruct (GetStringValue subkey "DisplayName") as [v|e]; [|done].
  destruct (GetStringValue subkey "DisplayVersion") as [ver|e1];
    destruct (GetStringValue subkey "InstallLocation") as [path|e2];
    intros [= <-]; cbn [Name Version Path zeroProgram];
    repeat split; first [apply Trimmed_TrimSpace | apply Trimmed_empty].
Qed.

Lemma rootRecords_Trimmed (path : string) :
  Forall (fun p => Trimmed (Name p) /\ Trimmed (Version p) /\ Trimmed (Path p))
         (rootRecords path).
Proof.
  unfold rootRecords.
  destruct (OpenKey _ _ _) as [key|e]; [|constructor].
  destruct (ReadSubKeyNames _ _) as [names|e]; [|constructor].
  induction names as [|n names IH]; [constructor |].
  cbn [omap list_omap]. destruct (kept key n) as [p|] eqn:E; [|exact IH].
  constructor; [|exact IH].
  unfold kept in E.
  destruct (getProgramFromSubkey key n) as [q [e|]] eqn:Hq; [done |].
  destruct (negb (is_empty (Name q))); [|done]. injection E as <-.
  by apply (getProgramFromSubkey_Trimmed key n).
Qed.

(** Every field of every record of the scan is trimmed. *)
Theorem scanned_fields_are_trimmed (w : World) :
  Forall (fun p => Trimmed (Name p) /\ Trimmed (Version p) /\ Trimmed (Path p))
         (elems (fst (value (scanAllPrograms w)))).
Proof.
  rewrite scanAllPrograms_elems. apply Forall_app; split; apply rootRecords_Trimmed.
Qed.

(** A subkey gives a record exactly when its display name can be read
    and holds a rune that is not white space. *)
Theorem kept_iff_visible_name (key : Key) (name : string) :
  is_Some (kept key name)
  <-> exists subkey v,
        OpenKey key name QUERY_VALUE = Ok subkey
        /\ GetStringValue subkey "DisplayName" = Ok v
        /\ blank v = false.
Proof.
  rewrite kept_iff_HasName. unfold HasName.
  split; intros (subkey & v & Hs & Hv & Hb); exists subkey, v;
    (split; [done |]); (split; [done |]);
    destruct (TrimSpace_spec v) as (_ & _ & Hiff).
  - destruct (blank v); [|done]. by destruct Hb; apply Hiff.
  - intros Ht. apply Hiff in Ht. by rewrite Ht in Hb.
Qed.

(** What [getProgramFromSubkey] takes off a value is white space at its
    two ends, and nothing else. *)
Theorem getProgramFromSubkey_cuts_only_spaces (key : Key) (name : string)
    (p : Program) :
  getProgramFromSubkey key name = (p, None) ->
  exists subkey,
    OpenKey key name QUERY_VALUE = Ok subkey
    /\ (forall v, GetStringValue subkey "DisplayName" = Ok v -> Padded v (Name p))
    /\ (forall v, GetStringValue subkey "DisplayVersion" = Ok v ->
          Padded v (Version p))
    /\ (forall v, GetStringValue subkey "InstallLocation" = Ok v ->
          Padded v (Path p)).
Proof.
  pose proof Padded_TrimSpace as HP.
  unfold getProgramFromSubkey.
  destruct (OpenKey key name QUERY_VALUE) as [subkey|e]; [|done].
  destruct (GetStringValue subkey "DisplayName") as [v0|e] eqn:H0; [|done].
  destruct (GetStringValue subkey "DisplayVersion") as [v1|e1] eqn:H1;
    destruct (GetStringValue subkey "InstallLocation") as [v2|e2] eqn:H2;
    intros Hp; injection Hp as <-; exists subkey; cbn [Name Version Path].
  all: split; [done |].
  all: split; [|split].
  all: intros v Hv.
  all: first [ rewrite H0 in Hv | rewrite H1 in Hv | rewrite H2 in Hv ].
  all: first [ discriminate Hv | injection Hv as <-; apply HP ].
Qed.

End Fields.

Lemma getProgramFromSubkey_cuts_only_spaces_witness :
  Padded "  Foo  " "Foo".
Proof.
  destruct (@getProgramFromSubkey_cuts_only_spaces (Fake.api [])
              (Fake.AtRoot Fake.paddedRoot) "Foo" (mkProgram "Foo" "" "")
              ltac:(vm_compute; reflexivity)) as (subkey & Hs & Hn & _).
  apply Hn. injection Hs as <-. reflexivity.
Defined.

(** ** Valid values give valid records *)

Lemma append_eq_append (a b c d : string) :
  a +:+ b = c +:+ d ->
  (exists m, c = a +:+ m /\ b = m +:+ d)
  \/ (exists e m, a = c +:+ String e m /\ d = String e m +:+ b).
Proof.
  revert c. induction a as [|x a IH]; intros c H.
  - left. exists c. by cbn [String.append] in *.
  - destruct c as [|y c].
    + right. exists x, a. by cbn [String.append] in *.
    + cbn [String.append] in H. injection H as -> H.
      destruct (IH c H) as [(m & -> & ->)|(e & m & -> & ->)].
      * left. by exists m.
      * right. by exists e, m.
Qed.

(** The bytes of a valid multi-byte encoding after the first are
    continuation bytes. *)
Lemma MultiRune_tail (u : string) (r : Z) :
  MultiRune u r ->
  forall x e m, u = x +:+ String e m -> x <> EmptyString ->
    0x80 <= byte_val e <= 0xBF.
Proof.
  intros Hm. pose proof (mr_decode _ _ Hm EmptyString) as Hd.
  pose proof (mr_len _ _ Hm) as Hl.
  rewrite append_nil_r, DecodeRuneInString_spec in Hd.
  destruct u as [|c0 [|c1 [|c2 [|c3 [|c4 u]]]]];
    unfold len in Hl; cbn [String.length] in Hl; try lia.
  - (* two bytes *)
    unfold decodeSpec in Hd.
    destruct (byte_val c0 <? 128); [injection Hd as _ Hd; unfold len in Hd; cbn in Hd; lia |].
    destruct ((byte_val c0 <? 194) || (244 <? byte_val c0));
      [injection Hd as _ Hd; unfold len in Hd; cbn in Hd; lia |].
    destruct (second_ok (byte_val c0) (byte_val c1)) eqn:H1; cbn [negb] in Hd;
      [|injection Hd as _ Hd; unfold len in Hd; cbn in Hd; lia].
    destruct (second_ok_range _ _ H1) as (? & _).
    intros [|x0 [|x1 x]] e m Hu Hne; [done | |];
      cbn [String.append] in Hu; injection Hu as; subst; try done.
    by destruct x.
  - (* three bytes *)
    unfold decodeSpec in Hd.
    destruct (byte_val c0 <? 128); [injection Hd as _ Hd; unfold len in Hd; cbn in Hd; lia |].
    destruct ((byte_val c0 <? 194) || (244 <? byte_val c0));
      [injection Hd as _ Hd; unfold len in Hd; cbn in Hd; lia |].
    destruct (second_ok (byte_val c0) (byte_val c1)) eqn:H1; cbn [negb] in Hd;
      [|injection Hd as _ Hd; unfold len in Hd; cbn in Hd; lia].
    destruct (byte_val c0 <? 224); [injection Hd as _ Hd; unfold len in Hd; cbn in Hd; lia |].
    destruct (cont (byte_val c2)) eqn:H2; cbn [negb] in Hd;
      [|injection Hd as _ Hd; unfold len in Hd; cbn in Hd; lia].
    destruct (second_ok_range _ _ H1) as (? & _).
    apply cont_range in H2.
    intros [|x0 [|x1 [|x2 x]]] e m Hu Hne; [done | | |];
      cbn [String.append] in Hu; injection Hu as; subst; try done.
    by destruct x.
  - (* four bytes *)
    unfold decodeSpec in Hd.
    destruct (byte_val c0 <? 128); [injection Hd as _ Hd; unfold len in Hd; cbn in Hd; lia |].
    destruct ((byte_val c0 <? 194) || (244 <? byte_val c0));
      [injection Hd as _ Hd; unfold len in Hd; cbn in Hd; lia |].
    destruct (second_ok (byte_val c0) (byte_val c1)) eqn:H1; cbn [negb] in Hd;
      [|injection Hd as _ Hd; unfold len in Hd; cbn in Hd; lia].
    destruct (byte_val c0 <? 224); [injection Hd as _ Hd; unfold len in Hd; cbn in Hd; lia |].
    destruct (cont (byte_val c2)) eqn:H2; cbn [negb] in Hd;
      [|injection Hd as _ Hd; unfold len in Hd; cbn in Hd; lia].
    destruct (byte_val c0 <? 240); [injection Hd as _ Hd; unfold len in Hd; cbn in Hd; lia |].
    destruct (cont (byte_val c3)) eqn:H3; cbn [negb] in Hd;
      [|injection Hd as _ Hd; unfold len in Hd; cbn in Hd; lia].
    destruct (second_ok_range _ _ H1) as (? & _).
    apply cont_range in H2, H3.
    intros [|x0 [|x1 [|x2 [|x3 x]]]] e m Hu Hne; [done | | | |];
      cbn [String.append] in Hu; injection Hu as; subst; try done.
    by destruct x.
Qed.

Lemma MultiRune_same (u u' : string) (r r' : Z) (t t' : string) :
  MultiRune u r -> MultiRune u' r' -> u +:+ t = u' +:+ t' -> u = u' /\ t = t'.
Proof.
  intros Hm Hm' Heq. apply app_inj_length; [|done].
  pose proof (mr_decode _ _ Hm t) as Hd. rewrite Heq, (mr_decode _ _ Hm') in Hd.
  injection Hd as _ Hd. unfold len in Hd. lia.
Qed.

Lemma Segs_not_ascii_multi (u : string) (r : Z) (t : string) (c : ascii)
    (t0 : string) :
  MultiRune u r -> byte_val c < 0x80 -> String c t0 <> u +:+ t.
Proof.
  intros Hm Hc Heq.
  destruct (MultiRune_cons _ _ Hm) as (c' & u' & -> & Hc' & _).
  cbn [String.append] in Heq. injection Heq as -> _. lia.
Qed.

(** White space taken off the front of a valid string leaves a valid
    string. *)
Lemma Segs_after_Spaces (pre rest : string) :
  Spaces pre -> Segs true (pre +:+ rest) -> Segs true rest.
Proof.
  induction 1 as [|c t Hc Hs _ IH|u r t Hm Hs _ IH]; intros HS.
  - exact HS.
  - cbn [String.append] in HS.
    inversion HS as [|c' t' Hc' Ht' Heq|c' t' Hf|u' r' t' Hm' Ht' Heq]; subst.
    + by apply IH.
    + discriminate.
    + symmetry in Heq. by apply (Segs_not_ascii_multi u' r') in Heq.
  - rewrite append_assoc in HS.
    inversion HS as [Heq|c' t' Hc' Ht' Heq|c' t' Hf|u' r' t' Hm' Ht' Heq]; subst.
    + destruct (MultiRune_cons _ _ Hm) as (c' & u' & -> & _). discriminate.
    + by apply (Segs_not_ascii_multi u r) in Heq.
    + discriminate.
    + destruct (MultiRune_same _ _ _ _ _ _ Hm' Hm Heq) as [-> ->]. by apply IH.
Qed.

(** White space taken off the end of a valid string leaves a valid
    string. *)
Lemma Segs_before_Spaces (s : string) :
  Segs true s ->
  forall x post, s = x +:+ post -> Spaces post -> Segs true x.
Proof.
  induction 1 as [|c t Hc _ IH|c t Hf|u r t Hm _ IH]; intros x post Heq Hp.
  - destruct x; [constructor | discriminate].
  - destruct x as [|c' x]; [constructor |].
    cbn [String.append] in Heq. injection Heq as <- Heq.
    apply Segs_ascii; [done | by apply (IH x post)].
  - discriminate.
  - destruct (append_eq_append _ _ _ _ Heq) as [(m & -> & ->)|(e & m & -> & ->)].
    + apply (Segs_multi _ u r); [done | by apply (IH m post)].
    + destruct x as [|c' x]; [constructor |]. exfalso.
      pose proof (MultiRune_tail _ _ Hm (String c' x) e m eq_refl ltac:(done)) as He.
      cbn [String.append] in Hp. apply Spaces_first_byte in Hp. lia.
Qed.

Lemma Spaces_Segs (s : string) : Spaces s -> Segs true s.
Proof.
  induction 1 as [|c t Hc Hs _ IH|u r t Hm Hs _ IH].
  - constructor.
  - by apply Segs_ascii.
  - by apply (Segs_multi _ u r).
Qed.

Lemma ValidString_TrimSpace (v : string) :
  ValidString v = true -> ValidString (Strings.TrimSpace v) = true.
Proof.
  intros Hv. apply Segs_valid in Hv.
  destruct (TrimSpace_spec v) as ((pre & post & Heq & Hpre & Hpost) & _).
  rewrite Heq in Hv. apply Segs_after_Spaces in Hv; [|done].
  apply Segs_ValidString. by apply (Segs_before_Spaces _ Hv _ post).
Qed.

Section ValidStore.
Context {R : API}.
Variable unicode_ToLower : Z -> Z.

Hypothesis values_valid :
  forall path key name subkey field v,
    path = root64 \/ path = root32 ->
    OpenKey LOCAL_MACHINE path (Z.lor ENUMERATE_SUB_KEYS QUERY_VALUE) = Ok key ->
    OpenKey key name QUERY_VALUE = Ok subkey ->
    queried field ->
    GetStringValue subkey field = Ok v ->
    ValidString v = true.

Lemma kept_valid (path : string) (key : Key) (name : string) (p : Program) :
  path = root64 \/ path = root32 ->
  OpenKey LOCAL_MACHINE path (Z.lor ENUMERATE_SUB_KEYS QUERY_VALUE) = Ok key ->
  kept key name = Some p -> validProgram p = true.
Proof.
  intros Hp Hk. unfold kept, getProgramFromSubkey.
  destruct (OpenKey key name QUERY_VALUE) as [subkey|e] eqn:Hs; [|done].
  assert (forall field v, queried field -> GetStringValue subkey field = Ok v ->
                          ValidString (Strings.TrimSpace v) = true) as Hval.
  { intros field v Hq Hv. apply ValidString_TrimSpace.
    by apply (values_valid path key name subkey field v). }
  destruct (GetStringValue subkey "DisplayName") as [v0|e] eqn:H0; [|done].
  pose proof (Hval _ _ ltac:(by left) H0) as V0.
  destruct (GetStringValue subkey "DisplayVersion") as [v1|e1] eqn:H1;
    destruct (GetStringValue subkey "InstallLocation") as [v2|e2] eqn:H2;
    cbn [Name Version Path zeroProgram];
    destruct (negb (is_empty (Strings.TrimSpace v0))); intros [= <-];
    unfold validProgram; cbn [Name Version Path]; rewrite V0;
    rewrite ?(Hval _ _ ltac:(by right; left) H1),
            ?(Hval _ _ ltac:(by right; right) H2); reflexivity.
Qed.

Lemma rootRecords_valid (path : string) :
  path = root64 \/ path = root32 ->
  Forall (fun p => validProgram p = true) (rootRecords path).
Proof.
  intros Hp. unfold rootRecords.
  destruct (OpenKey _ _ _) as [key|e] eqn:Hk; [|constructor].
  destruct (ReadSubKeyNames _ _) as [names|e]; [|constructor].
  induction names as [|n names IH]; [constructor |].
  cbn [omap list_omap]. destruct (kept key n) as [p|] eqn:E; [|exact IH].
  constructor; [by apply (kept_valid path key n) | exact IH].
Qed.

(** When the values the scan reads are valid UTF-8, so are the fields of
    the records it returns, and the records are read back as they are from
    their document and from the file the command exports them to, when the
    file is created and the write of the document goes through. *)
Theorem scan_export_reads_back (outputFile : string) (w : World) :
  let programs := fst (value (scanAllPrograms w)) in
  Forall (fun p => validProgram p = true) (elems programs)
  /\ readPrograms (json.Encode (toStructs programs)) = Some programs
  /\ (Strings.HasSuffix (Strings.ToLower unicode_ToLower outputFile) ".json" = true ->
      create_error w outputFile = None ->
      write_error w outputFile = None ->
      exists doc,
        files (after (scanCmd_Run unicode_ToLower outputFile w)) !! outputFile
        = Some doc
        /\ readPrograms doc = Some programs).
Proof.
  cbv zeta.
  assert (Forall (fun p => validProgram p = true)
                 (elems (fst (value (scanAllPrograms w))))) as Hv.
  { rewrite scanAllPrograms_elems.
    apply Forall_app; split; apply rootRecords_valid; [by left | by right]. }
  split; [exact Hv |]. split; [by apply read_Encode |].
  intros Hs Hc Hw.
  exists (json.Encode (toStructs (fst (value (scanAllPrograms w))))).
  split; [|by apply read_Encode].
  assert (is_empty outputFile = false) as Hne.
  { destruct outputFile; [|done]. vm_compute in Hs. discriminate Hs. }
  rewrite scanCmd_Run_world, scanAllPrograms_prints.
  unfold after, value, filesAfter. cbn [fst snd files].
  by rewrite Hne, Hc, Hw, Hs, lookup_insert_eq.
Qed.

End ValidStore.

Lemma scan_export_reads_back_witness :
  readPrograms
    (json.Encode
       (toStructs
          (fst (value (@scanAllPrograms (Fake.api Fake.scenario) Fake.emptyWorld)))))
  = Some (mk_slice [ mkProgram "Alpha" "1.0" "C:\Alpha"; mkProgram "Beta" "" "" ]).
Proof.
  assert (forall path key name subkey field v,
            path = root64 \/ path = root32 ->
            @OpenKey (Fake.api Fake.scenario) (@LOCAL_MACHINE (Fake.api Fake.scenario))
              path (Z.lor ENUMERATE_SUB_KEYS QUERY_VALUE) = Ok key ->
            @OpenKey (Fake.api Fake.scenario) key name QUERY_VALUE = Ok subkey ->
            queried field ->
            @GetStringValue (Fake.api Fake.scenario) subkey field = Ok v ->
            ValidString v = true) as Hvalid.
  { intros path key name subkey field v Hp Hk Hs Hq Hv.
    assert (exists r, key = Fake.AtRoot r
                      /\ (r = Fake.mkRoot None None
                                [ ("C1", Fake.mkSubkey None
                                           [("DisplayName", "Alpha");
                                            ("DisplayVersion", "1.0");
                                            ("InstallLocation", "C:\Alpha")]);
                                  ("C2", Fake.mkSubkey None [("DisplayVersion", "2.0")]) ]
                          \/ r = Fake.mkRoot None None
                                   [ ("C3", Fake.mkSubkey None [("DisplayName", "Beta")]) ]))
      as (r & -> & Hr).
    { destruct Hp as [-> | ->]; vm_compute in Hk; injection Hk as <-;
        eexists; (split; [reflexivity |]); [left | right]; reflexivity. }
    cbn [OpenKey Fake.api Fake.open] in Hs.
    destruct Hr as [-> | ->]; cbn [Fake.root_subkeys Fake.assoc] in Hs;
      repeat match type of Hs with
             | context [String.eqb ?a ?b] => destruct (String.eqb a b)
             end;
      cbn in Hs; try discriminate Hs; injection Hs as <-;
      destruct Hq as [-> | [-> | ->]]; vm_compute in Hv;
      try discriminate Hv; injection Hv as <-; reflexivity. }
  destruct (@scan_export_reads_back (Fake.api Fake.scenario) (fun r => r) Hvalid
              "" Fake.emptyWorld) as (_ & H & _).
  exact H.
Defined.

(** ** The suffix test on ASCII paths *)

Lemma length_lowerASCII (s : string) :
  String.length (Strings.lowerASCII s) = String.length s.
Proof. induction s as [|c s IH]; [done |]. cbn [Strings.lowerASCII String.length]. by rewrite IH. Qed.

Lemma lowerASCII_app (a b : string) :
  Strings.lowerASCII (a +:+ b) = Strings.lowerASCII a +:+ Strings.lowerASCII b.
Proof.
  induction a as [|c a IH]; [done |].
  cbn [String.append Strings.lowerASCII]. by rewrite IH.
Qed.

Lemma lowerASCII_sdrop (n : nat) (s : string) :
  sdrop n (Strings.lowerASCII s) = Strings.lowerASCII (sdrop n s).
Proof.
  revert s. induction n as [|n IH]; intros s; [done |].
  destruct s as [|c s]; [done |]. cbn [Strings.lowerASCII sdrop]. apply IH.
Qed.

(** For a path made of ASCII bytes the choice of the export does not
    depend on the case tables of Unicode, and the JSON export is chosen
    exactly when the path ends in [.json] written in any mix of upper and
    lower case. *)
Theorem ascii_path_suffix_test (lower lower' : Z -> Z) (path : string) :
  Strings.isASCII path = true ->
  Strings.HasSuffix (Strings.ToLower lower path) ".json"
  = Strings.HasSuffix (Strings.ToLower lower' path) ".json"
  /\ (Strings.HasSuffix (Strings.ToLower lower path) ".json" = true
      <-> exists stem ext,
            path = stem +:+ ext /\ Strings.lowerASCII ext = ".json").
Proof.
  intros Ha. unfold Strings.ToLower. rewrite Ha. split; [done |].
  unfold Strings.HasSuffix, slice_from, len. rewrite length_lowerASCII.
  change (Z.of_nat (String.length ".json")) with 5.
  rewrite andb_true_iff, Z.leb_le, String.eqb_eq, lowerASCII_sdrop. split.
  - intros [Hl He].
    exists (stake (Z.to_nat (Z.of_nat (String.length path) - 5)) path),
           (sdrop (Z.to_nat (Z.of_nat (String.length path) - 5)) path).
    split; [by rewrite stake_sdrop | exact He].
  - intros (stem & ext & -> & He).
    assert (String.length ext = 5%nat) as Hl.
    { rewrite <- (length_lowerASCII ext), He. reflexivity. }
    rewrite length_append, Hl. split; [lia |].
    replace (Z.to_nat (Z.of_nat (String.length stem + 5) - 5))
      with (String.length stem) by lia.
    by rewrite sdrop_app.
Qed.

Lemma ascii_path_suffix_test_witness :
  Strings.HasSuffix (Strings.ToLower (fun r => r) "C:\out\Programs.JsOn") ".json"
  = true.
Proof.
  destruct (ascii_path_suffix_test (fun r => r) (fun r => r + 1)
              "C:\out\Programs.JsOn" eq_refl) as [_ [_ H]].
  apply H. exists "C:\out\Programs", ".JsOn". split; reflexivity.
Defined.

(** ** The keys the scan holds open *)

Section HandleFacts.
Context {R : API}.

Lemma Handles_getProgramFromSubkey (key : Key) (name : string) :
  fst (Handles.getProgramFromSubkey key name) = getProgramFromSubkey key name
  /\ Handles.Nested 1 (snd (Handles.getProgramFromSubkey key name)).
Proof.
  unfold Handles.getProgramFromSubkey, getProgramFromSubkey, Handles.deferClose.
  destruct (OpenKey key name QUERY_VALUE) as [subkey|e];
    [|split; [done | constructor]].
  destruct (GetStringValue subkey "DisplayName") as [v|e]; cbn [fst snd];
    (split; [done |]);
    apply (Handles.Nested_key 0 subkey []); constructor.
Qed.

Lemma Nested_flat_map (key : Key) (names : list string) :
  Handles.Nested 1
    (flat_map (fun n => snd (Handles.getProgramFromSubkey key n)) names).
Proof.
  induction names as [|n names IH]; [constructor |].
  cbn [flat_map]. apply Handles.Nested_app; [|exact IH].
  apply Handles_getProgramFromSubkey.
Qed.

Lemma Handles_scanSubkeys (key : Key) (total : Z) (names : list string) :
  forall i programs log w,
    Handles.scanSubkeys key total names i programs log w
    = ((fst (scanSubkeys key total names i programs w),
        log ++ flat_map (fun n => snd (Handles.getProgramFromSubkey key n)) names),
       snd (scanSubkeys key total names i programs w)).
Proof.
  induction names as [|n names IH]; intros i programs log w.
  - cbn [Handles.scanSubkeys scanSubkeys flat_map]. unfold ret. cbn [fst snd].
    by rewrite app_nil_r.
  - cbn [Handles.scanSubkeys scanSubkeys flat_map]. unfold bind.
    destruct ((if (Z.rem i 50 =? 0) && (0 <? i)
               then Print ("  Processed " +:+ itoa i +:+ "/" +:+ itoa total
                           +:+ " programs..." +:+ nl)
               else ret tt) w) as [[] w1].
    destruct (Handles_getProgramFromSubkey key n) as [Hfst _].
    destruct (Handles.getProgramFromSubkey key n) as [[program err] events].
    cbn [fst snd] in *. rewrite <- Hfst.
    destruct err as [e|].
    + rewrite IH. by rewrite <- app_assoc.
    + destruct (negb (is_empty (Name program))); rewrite IH;
        by rewrite <- app_assoc.
Qed.

Lemma Handles_scanRegistryLocation (path : string) (w : World) :
  Handles.scanRegistryLocation path w
  = ((fst (scanRegistryLocation path w), Handles.rootLog path),
     snd (scanRegistryLocation path w)).
Proof.
  unfold Handles.scanRegistryLocation, scanRegistryLocation, Handles.rootLog, bind.
  destruct (Print ("  Opening registry key: " +:+ path +:+ nl) w) as [[] w1].
  destruct (OpenKey LOCAL_MACHINE path (Z.lor ENUMERATE_SUB_KEYS QUERY_VALUE))
    as [key|e]; [|done].
  destruct (Print ("  Reading subkey names..." +:+ nl) w1) as [[] w2].
  destruct (ReadSubKeyNames key (-1)) as [names|e]; [|done].
  destruct (Print ("  Found " +:+ itoa (Z.of_nat (length names))
                   +:+ " subkeys to process" +:+ nl) w2) as [[] w3].
  rewrite Handles_scanSubkeys.
  by destruct (scanSubkeys key (Z.of_nat (length names)) names 0 nil_slice w3)
    as [programs w4].
Qed.

Lemma Nested_rootLog (path : string) : Handles.Nested 2 (Handles.rootLog path).
Proof.
  unfold Handles.rootLog.
  destruct (OpenKey LOCAL_MACHINE path (Z.lor ENUMERATE_SUB_KEYS QUERY_VALUE))
    as [key|e]; [|constructor].
  apply (Handles.Nested_key 1 key).
  destruct (ReadSubKeyNames key (-1)) as [names|e];
    [apply Nested_flat_map | constructor].
Qed.

Lemma Handles_scanAllPrograms (w : World) :
  Handles.scanAllPrograms w
  = ((fst (scanAllPrograms w), Handles.rootLog root64 ++ Handles.rootLog root32),
     snd (scanAllPrograms w)).
Proof.
  unfold Handles.scanAllPrograms, scanAllPrograms, bind, Println, ret.
  destruct (Print ("Step 1: Scanning 64-bit programs..." +:+ nl) w) as [[] w1].
  destruct (Print _ w1) as [[] w2].
  rewrite Handles_scanRegistryLocation.
  destruct (scanRegistryLocation root64 w2) as [[programs64 err64] w3].
  cbn [fst snd].
  destruct err64 as [e64|];
    destruct (Print _ w3) as [[] w4];
    destruct (Print _ w4) as [[] w5];
    destruct (Print _ w5) as [[] w6];
    rewrite Handles_scanRegistryLocation;
    destruct (scanRegistryLocation root32 w6) as [[programs32 err32] w7];
    cbn [fst snd];
    destruct err32 as [e32|]; by destruct (Print _ w7) as [[] w8].
Qed.

(** Every key the scan opens it closes, the key opened last first, and it
    holds no more than two keys open at any time, however many subkeys the
    roots have: a subkey is closed before the next one is opened.  The
    functions that keep the log of the keys return what [scanRegistryLocation]
    and [scanAllPrograms] return, and print what they print. *)
Theorem scan_closes_its_keys (w : World) :
  (forall path,
     Handles.scanRegistryLocation path w
     = ((fst (scanRegistryLocation path w), Handles.rootLog path),
        snd (scanRegistryLocation path w))
     /\ Handles.Nested 2 (Handles.rootLog path))
  /\ Handles.scanAllPrograms w
     = ((fst (scanAllPrograms w), Handles.rootLog root64 ++ Handles.rootLog root32),
        snd (scanAllPrograms w))
  /\ Handles.Nested 2 (Handles.rootLog root64 ++ Handles.rootLog root32).
Proof.
  split; [|split].
  - intros path. split; [apply Handles_scanRegistryLocation | apply Nested_rootLog].
  - apply Handles_scanAllPrograms.
  - apply Handles.Nested_app; apply Nested_rootLog.
Qed.

End HandleFacts.
